(** * Google Scholar daily fetcher: parser, search client, article model and
      the fetch-articles controller

    A shallow embedding of the JavaScript sources
    (services/parserService.js, services/serpApiService.js,
    models/articleModel.js, controllers/authorArticleController.js and
    middleware/errorHandler.js) together with the properties of the
    fetch -> parse -> dedupe -> persist pipeline.

    JavaScript strings are sequences of UTF-16 code units; they are modelled
    as lists of code units ([N]).  JSON data and the other values the code
    handles are modelled by the inductive type [value]; exceptions by the
    error monad [res]; the network and the database by oracles over an
    abstract [World], every call being recorded in a trace of events. *)

From Stdlib Require Import List NArith ZArith Bool Lia String Ascii DecimalString.
Import ListNotations.

Set Implicit Arguments.
Set Warnings "-register-all".
Open Scope string_scope.
Open Scope list_scope.

(* ================================================================== *)
(** * JavaScript strings *)
(* ================================================================== *)

Definition jsstring := list N.

(** An ASCII literal as a JavaScript string. *)
Definition js (s : string) : jsstring :=
  List.map N_of_ascii (list_ascii_of_string s).

Module Char.
Open Scope N_scope.

(** [\s] of a regular expression and the characters removed by
    [String.prototype.trim]: WhiteSpace and LineTerminator of ECMAScript. *)
Definition is_ws (c : N) : bool :=
  ((9 <=? c) && (c <=? 13)) || (c =? 32) || (c =? 160) || (c =? 5760)
  || ((8192 <=? c) && (c <=? 8202)) || (c =? 8232) || (c =? 8233)
  || (c =? 8239) || (c =? 8287) || (c =? 12288) || (c =? 65279).

(** [\d]: 0-9. *)
Definition is_digit (c : N) : bool := (48 <=? c) && (c <=? 57).

(** [\w]: A-Z, a-z, 0-9 and underscore. *)
Definition is_word (c : N) : bool :=
  is_digit c || ((65 <=? c) && (c <=? 90)) || ((97 <=? c) && (c <=? 122))
  || (c =? 95).

Definition comma : N := 44.
Definition space : N := 32.
Definition dquote : N := 34.

(** ASCII upper-casing; the only use of [toUpperCase] is a comparison with
    the literal 'PDF', which no string with a non-ASCII code unit
    upper-cases to. *)
Definition toUpper (c : N) : N :=
  if (97 <=? c) && (c <=? 122) then c - 32 else c.
End Char.

Fixpoint jsstring_eqb (a b : jsstring) : bool :=
  match a, b with
  | [], [] => true
  | x :: a', y :: b' => N.eqb x y && jsstring_eqb a' b'
  | _, _ => false
  end.

(** [s.startsWith(p)], used to anchor a literal at the current position. *)
Fixpoint starts_with (p s : jsstring) : bool :=
  match p, s with
  | [], _ => true
  | x :: p', y :: s' => N.eqb x y && starts_with p' s'
  | _ :: _, [] => false
  end.

(** [s.includes(needle)]. *)
Fixpoint includes (needle s : jsstring) : bool :=
  starts_with needle s
  || match s with
     | [] => false
     | _ :: s' => includes needle s'
     end.

(** [s.trim()]. *)
Fixpoint trimStart (s : jsstring) : jsstring :=
  match s with
  | c :: s' => if Char.is_ws c then trimStart s' else s
  | [] => []
  end.

Definition trimEnd (s : jsstring) : jsstring := rev (trimStart (rev s)).

Definition trim (s : jsstring) : jsstring := trimEnd (trimStart s).

(** [s.split(sep)] for a non-empty separator: the pieces between the
    successive leftmost occurrences of [sep].  [skip] counts the code units
    of an occurrence still to be passed over, [cur] is the current piece,
    reversed. *)
Fixpoint split_go (sep s : jsstring) (skip : nat) (cur : jsstring)
  : list jsstring :=
  match s with
  | [] => [rev cur]
  | c :: s' =>
      match skip with
      | S k => split_go sep s' k cur
      | O =>
          if starts_with sep s
          then rev cur :: split_go sep s' (List.length sep - 1) []
          else split_go sep s' 0 (c :: cur)
      end
  end.

Definition split (sep s : jsstring) : list jsstring := split_go sep s 0 [].

(** [s.toUpperCase()], see [Char.toUpper]. *)
Definition toUpperCase (s : jsstring) : jsstring := List.map Char.toUpper s.

(** ** The regular expressions of the parser *)

(** [(19|20)\d{2}] on four code units. *)
Definition year4 (c1 c2 c3 c4 : N) : bool :=
  (((c1 =? 49) && (c2 =? 57)) || ((c1 =? 50) && (c2 =? 48)))%N
  && Char.is_digit c3 && Char.is_digit c4.

(** [(19|20)\d{2}] anchored at the start of [s]: the matched text and what
    follows it. *)
Definition year_prefix (s : jsstring) : option (jsstring * jsstring) :=
  match s with
  | c1 :: c2 :: c3 :: c4 :: r =>
      if year4 c1 c2 c3 c4 then Some ([c1; c2; c3; c4], r) else None
  | _ => None
  end.

(** [\b] between two positions; [None] is the start or the end of the
    string. *)
Definition is_word_opt (c : option N) : bool :=
  match c with
  | Some c => Char.is_word c
  | None => false
  end.

Definition boundary (prev next : option N) : bool :=
  xorb (is_word_opt prev) (is_word_opt next).

(** [s.match(/\b(19|20)\d{2}\b/)]: the text of the leftmost match
    ([yearMatch[0]]), or [None] when [match] returns null.  [prev] is the
    code unit before the current position. *)
Fixpoint match_year_from (prev : option N) (s : jsstring) : option jsstring :=
  match s with
  | [] => None
  | c :: s' =>
      match year_prefix s with
      | Some (m, r) =>
          if boundary prev (Some c) && boundary (Some (last m c)) (hd_error r)
          then Some m
          else match_year_from (Some c) s'
      | None => match_year_from (Some c) s'
      end
  end.

Definition match_year (s : jsstring) : option jsstring :=
  match_year_from None s.

(** [\s*(19|20)\d{2}] anchored at the start of [s]: what follows the match.
    The star is greedy and backtracks: the longest run of white space is
    tried first, then the shorter ones. *)
Fixpoint ws_then_year (s : jsstring) : option jsstring :=
  match s with
  | [] => None
  | c :: s' =>
      if Char.is_ws c
      then match ws_then_year s' with
           | Some r => Some r
           | None => option_map snd (year_prefix s)
           end
      else option_map snd (year_prefix s)
  end.

(** [,?\s*(19|20)\d{2}] anchored at the start of [s]: the optional comma is
    taken first, and given up when the rest does not match. *)
Definition strip_here (s : jsstring) : option jsstring :=
  match s with
  | c :: s' =>
      if (c =? Char.comma)%N
      then match ws_then_year s' with
           | Some r => Some r
           | None => ws_then_year s
           end
      else ws_then_year s
  | [] => None
  end.

(** [s.replace(/,?\s*(19|20)\d{2}/, '')]: the leftmost match is removed. *)
Fixpoint replace_year (s : jsstring) : jsstring :=
  match strip_here s with
  | Some r => r
  | None =>
      match s with
      | [] => []
      | c :: s' => c :: replace_year s'
      end
  end.

(** [s.replace(/\s+/g, ' ')]: [in_run] tells that the previous code unit
    was white space, already replaced. *)
Fixpoint collapse_go (in_run : bool) (s : jsstring) : jsstring :=
  match s with
  | [] => []
  | c :: s' =>
      if Char.is_ws c
      then if in_run then collapse_go true s' else Char.space :: collapse_go true s'
      else c :: collapse_go false s'
  end.

Definition collapse_ws (s : jsstring) : jsstring := collapse_go false s.

(** [parseInt(s)] for a string that starts with a decimal digit 1-9 (no
    white space, sign or radix prefix to skip, which is the case of the
    text matched by the year pattern): the value of the leading digits. *)
Fixpoint parseInt_go (acc : Z) (s : jsstring) : Z :=
  match s with
  | c :: s' =>
      if Char.is_digit c then parseInt_go (10 * acc + (Z.of_N c - 48))%Z s'
      else acc
  | [] => acc
  end.

Definition parseInt (s : jsstring) : Z := parseInt_go 0%Z s.

(* ================================================================== *)
(** * JavaScript values and exceptions *)
(* ================================================================== *)

(** The values the program handles: JSON data (numbers are the
    integer-valued ones), [undefined], and the built-in methods a property
    read can return ([VFun], with the name of the method). *)
Inductive value :=
| VUndefined
| VNull
| VBool (b : bool)
| VNum (n : Z)
| VStr (s : jsstring)
| VArr (items : list value)
| VObj (fields : list (string * value))
| VFun (name : string).

(** The exceptions the engine raises; their message is the engine's.  The
    first three are [TypeError]s: a property read on [undefined] or [null],
    a call of what is not a function, and the conversion to a string of an
    object that has no usable [toString] or [valueOf].  The last one is the
    [RangeError] of a conversion that calls itself without end. *)
Inductive type_error :=
| ReadOfNullish (base : value) (prop : string)
| NotAFunction (callee : string)
| NotPrimitive
| CallStackExceeded.

(** The properties the program reads from an exception object. *)
Record error_obj := mkError {
  message : jsstring;
  code : option jsstring;
  response : option value;   (* [error.response.data], when there is a response *)
  status : option Z
}.

Inductive jserror :=
| ErrObj (e : error_obj)
| TypeError (te : type_error).

(** [new Error(msg)]. *)
Definition newError (msg : jsstring) : jserror :=
  ErrObj (mkError msg None None None).

(** Normal completion or a thrown exception. *)
Inductive res (A : Type) :=
| Ok (a : A)
| Throw (e : jserror).
Arguments Ok {A} a.
Arguments Throw {A} e.

Definition bind {A B} (m : res A) (k : A -> res B) : res B :=
  match m with
  | Ok a => k a
  | Throw e => Throw e
  end.

Notation "'do' x <- m ; k" := (bind m (fun x => k))
  (at level 10, x name, m at level 100, k at level 200).

Fixpoint mapM {A B} (f : A -> res B) (l : list A) : res (list B) :=
  match l with
  | [] => Ok []
  | a :: l' => do b <- f a; do bs <- mapM f l'; Ok (b :: bs)
  end.

Definition truthy (v : value) : bool :=
  match v with
  | VUndefined | VNull => false
  | VBool b => b
  | VNum n => negb (n =? 0)%Z
  | VStr s => match s with [] => false | _ => true end
  | VArr _ | VObj _ | VFun _ => true
  end.

Definition nullish (v : value) : bool :=
  match v with
  | VUndefined | VNull => true
  | _ => false
  end.

(** [a || b]. *)
Definition or_else (a b : value) : value := if truthy a then a else b.

Fixpoint lookup (k : string) (fields : list (string * value)) : value :=
  match fields with
  | [] => VUndefined
  | (k', v) :: rest => if String.eqb k k' then v else lookup k rest
  end.

(** [v.k] for [v] neither null nor undefined, for the property names the
    program reads: own properties of an object; of the prototypes, strings
    and arrays have [length], strings have the method [link]. *)
Definition getprop (v : value) (k : string) : value :=
  match v with
  | VObj fields => lookup k fields
  | VStr s =>
      if String.eqb k "length" then VNum (Z.of_nat (List.length s))
      else if String.eqb k "link" then VFun "link"
      else VUndefined
  | VArr items =>
      if String.eqb k "length" then VNum (Z.of_nat (List.length items))
      else VUndefined
  | _ => VUndefined
  end.

(** [v.k]. *)
Definition get (v : value) (k : string) : res value :=
  if nullish v then Throw (TypeError (ReadOfNullish v k)) else Ok (getprop v k).

(** [v?.k]. *)
Definition opt_get (v : value) (k : string) : value :=
  if nullish v then VUndefined else getprop v k.

(** The receiver of a string method call [v.m(...)], [callee] being the text
    of [v.m]: no value other than a string has a callable [split], [replace]
    or [toUpperCase]. *)
Definition string_receiver (v : value) (m callee : string) : res jsstring :=
  match v with
  | VStr s => Ok s
  | VUndefined | VNull => Throw (TypeError (ReadOfNullish v m))
  | _ => Throw (TypeError (NotAFunction callee))
  end.

(** [a === b] against a string literal. *)
Definition strict_eq_str (v : value) (lit : jsstring) : bool :=
  match v with
  | VStr s => jsstring_eqb s lit
  | _ => false
  end.

(** The decimal digits of an integer. *)
Definition Z_to_jsstring (n : Z) : jsstring :=
  js (DecimalString.NilZero.string_of_int (Z.to_int n)).

Fixpoint join_with (sep : jsstring) (l : list jsstring) : jsstring :=
  match l with
  | [] => []
  | [x] => x
  | x :: l' => x ++ sep ++ join_with sep l'
  end.

(** ** Numbers

    [VNum n] stands for the Number value for the integer [n]: [n] itself
    when binary64 holds it, as it holds every integer up to [2^53], and [n]
    rounded to nearest, ties to even, otherwise. *)
Module Number.
Open Scope Z_scope.

(** Round to nearest, ties to even, of a positive integer to the 53
    significant bits of a binary64 number. *)
Definition round53 (x : Z) : Z :=
  let e := Z.log2 x - 52 in
  if e <=? 0 then x
  else
    let q := Z.shiftr x e in
    let r := x - Z.shiftl q e in
    let half := Z.shiftl 1 (e - 1) in
    let q' := if (half <? r) || ((r =? half) && Z.odd q) then q + 1 else q in
    Z.shiftl q' e.

(** The integers at or above [2^1024 - 2^970] round to [Infinity]. *)
Definition overflows (x : Z) : bool := 2 ^ 1024 <=? round53 x.

(** [v] rounds to the binary64 number [x], for [x >= 2^53]: twice the
    distance from [x] to [v] against the gaps to the neighbours of [x]; the
    gap below a power of two is half the gap above, and the ends of the
    interval round to [x] when its significand is even. *)
Definition rounds_to (x v : Z) : bool :=
  let e := Z.log2 x - 52 in
  let q := Z.shiftr x e in
  let hi2 := Z.shiftl 1 e in
  let lo2 := if q =? 2 ^ 52 then Z.shiftl 1 (e - 1) else Z.shiftl 1 e in
  let d2 := 2 * (v - x) in
  if Z.even q then (- lo2 <=? d2) && (d2 <=? hi2)
  else (- lo2 <? d2) && (d2 <? hi2).

(** The multiple of [p] that rounds to [x] and is closest to [x], if any;
    of two equally close ones, the one with the even multiplier. *)
Definition candidate (x p : Z) : option Z :=
  let c1 := (x / p) * p in
  let c2 := c1 + p in
  let ok1 := (0 <? c1) && rounds_to x c1 in
  let ok2 := rounds_to x c2 in
  match ok1, ok2 with
  | true, true =>
      if x - c1 <? c2 - x then Some c1
      else if c2 - x <? x - c1 then Some c2
      else if Z.even (x / p) then Some c1 else Some c2
  | true, false => Some c1
  | false, true => Some c2
  | false, false => None
  end.

(** The decimal with the fewest significant digits that rounds to [x]:
    the candidate at the largest power of ten that has one, searched from
    [p], a power of ten above [x], downwards. *)
Fixpoint shortest (x p : Z) (fuel : nat) : Z :=
  match candidate x p with
  | Some v => v
  | None =>
      match fuel with
      | O => x
      | S fuel' => shortest x (p / 10) fuel'
      end
  end.

Fixpoint strip_zeros (rev_digits : jsstring) : jsstring :=
  match rev_digits with
  | 48%N :: r => strip_zeros r
  | _ => rev_digits
  end.

(** The text of a positive integer given by its decimal digits: the digits
    when there are at most 21 of them, else the exponent form. *)
Definition format (digits : jsstring) : jsstring :=
  let n := List.length digits in
  if (n <=? 21)%nat then digits
  else
    match rev (strip_zeros (rev digits)) with
    | [] => digits
    | [d] => d :: js "e+" ++ Z_to_jsstring (Z.of_nat n - 1)
    | d :: ds => d :: js "." ++ ds ++ js "e+" ++ Z_to_jsstring (Z.of_nat n - 1)
    end.

Definition positive_toString (x : Z) : jsstring :=
  if overflows x then js "Infinity"
  else
    let d := round53 x in
    if d <? 2 ^ 53 then Z_to_jsstring d
    else format (Z_to_jsstring (shortest d (10 ^ Z.log2 d) (Z.to_nat (Z.log2 d)))).

(** [Number.prototype.toString()] of the Number value for [n]. *)
Definition toString (n : Z) : jsstring :=
  if n =? 0 then js "0"
  else if n <? 0 then js "-" ++ positive_toString (- n)
  else positive_toString n.

(** [Math.floor(a / 10)] for [a > 0]: the quotient rounded to binary64 is
    [m * 2^(-s)], with [2^52 <= m <= 2^53]. *)
Definition scaled (a s : Z) : Z * Z :=
  if 0 <=? s then (a * 2 ^ s, 10) else (a, 10 * 2 ^ (- s)).

Definition quotient10 (a : Z) : Z * Z :=
  let s1 := 56 - Z.log2 a in
  let '(n1, d1) := scaled a s1 in
  let s := if n1 <? 2 ^ 53 * d1 then s1 else s1 - 1 in
  let '(num, den) := scaled a s in
  let t := num / den in
  let r := num mod den in
  let m := if (den <? 2 * r) || ((2 * r =? den) && Z.odd t) then t + 1 else t in
  (m, s).

Definition floor_quotient10 (a : Z) : Z :=
  let '(m, s) := quotient10 a in
  if 0 <? s then Z.shiftr m s else m * 2 ^ (- s).

Definition ceil_quotient10 (a : Z) : Z :=
  let '(m, s) := quotient10 a in
  if 0 <? s then Z.shiftr (m + 2 ^ s - 1) s else m * 2 ^ (- s).

(** The Number value for an integer. *)
Definition of_Z (n : Z) : Z :=
  if n <? 0 then - round53 (- n) else round53 n.

(** [Math.floor(start / 10) + 1]. *)
Definition page_of (start : Z) : Z :=
  let a := of_Z start in
  let f := if a =? 0 then 0
           else if a <? 0 then - ceil_quotient10 (- a)
           else floor_quotient10 a in
  of_Z (f + 1).
End Number.

(** The object has an own property [k]. *)
Definition has_own (k : string) (fields : list (string * value)) : bool :=
  List.existsb (fun kv => String.eqb k (fst kv)) fields.

Definition callable (v : value) : bool :=
  match v with
  | VFun _ => true
  | _ => false
  end.

(** [OrdinaryToPrimitive] with the hint string, for an object made of JSON
    data and of the one kind of function of the model, a method of
    [String.prototype].  Without an own [toString], the one of
    [Object.prototype] answers.  An own [toString] that is not callable is
    passed over, and so is then an own [valueOf] that is not callable; the
    [valueOf] of [Object.prototype] returns the object itself, which is not
    a primitive: the conversion throws.  An own [toString] or [valueOf] that
    is a method of [String.prototype] converts its receiver, this object,
    to a string again, without end. *)
Definition object_ToString (fields : list (string * value)) : res jsstring :=
  if has_own "toString" fields then
    if callable (lookup "toString" fields) then Throw (TypeError CallStackExceeded)
    else if has_own "valueOf" fields && callable (lookup "valueOf" fields)
         then Throw (TypeError CallStackExceeded)
         else Throw (TypeError NotPrimitive)
  else Ok (js "[object Object]").

(** The conversions of the elements of an array by [Array.prototype.join],
    from left to right: [null] and [undefined] give the empty string. *)
Section Elements.
Variable convert : value -> res jsstring.

Fixpoint elements (l : list value) : res (list jsstring) :=
  match l with
  | [] => Ok []
  | x :: l' =>
      do s <- (if nullish x then Ok [] else convert x);
      do r <- elements l';
      Ok (s :: r)
  end.
End Elements.

(** [ToString(v)], as in a template literal or in [new Error(v)]; an array
    joins the conversions of its elements. *)
Fixpoint ToString (v : value) : res jsstring :=
  match v with
  | VUndefined => Ok (js "undefined")
  | VNull => Ok (js "null")
  | VBool true => Ok (js "true")
  | VBool false => Ok (js "false")
  | VNum n => Ok (Number.toString n)
  | VStr s => Ok s
  | VArr items =>
      do parts <- elements ToString items;
      Ok (join_with (js ",") parts)
  | VObj fields => object_ToString fields
  | VFun name => Ok (js "function " ++ js name ++ js "() { [native code] }")
  end.

(** The code points a string iterates over: a high surrogate followed by a
    low one is one element. *)
Definition is_high_surrogate (c : N) : bool := ((55296 <=? c) && (c <=? 56319))%N.
Definition is_low_surrogate (c : N) : bool := ((56320 <=? c) && (c <=? 57343))%N.

Fixpoint code_points (s : jsstring) : list jsstring :=
  match s with
  | [] => []
  | c :: s' =>
      match s' with
      | d :: s'' =>
          if is_high_surrogate c && is_low_surrogate d
          then [c; d] :: code_points s''
          else [c] :: code_points s'
      | [] => [[c]]
      end
  end.

(** The elements of a spread [...v] in an argument list: arrays and strings
    are iterable; for the other values ([None]) the engine throws a
    [TypeError]. *)
Definition spread (v : value) : option (list value) :=
  match v with
  | VArr items => Some items
  | VStr s => Some (List.map VStr (code_points s))
  | _ => None
  end.

(* ================================================================== *)
(** * services/parserService.js *)
(* ================================================================== *)

Module PubInfo.
(** The object returned by [parsePublicationInfo]. *)
Record t := mk {
  authors : value;
  journal : value;
  year : value;
  publisher : value
}.
(** The empty object [{}]: every property reads as [undefined]. *)
Definition empty : t := mk VUndefined VUndefined VUndefined VUndefined.
End PubInfo.

(** The object returned by [parseOrganicResult]. *)
Record publication := mkPublication {
  google_scholar_id : value;
  title : value;
  authors : value;
  publication_year : value;
  journal : value;
  article_url : value;
  abstract : value;
  citation_count : value;
  cites_id : value;
  pdf_url : value;
  cluster_id : value;
  publisher : value
}.

Module ParserService.

Definition sep_dash : jsstring := js " - ".

(** [parts[i]?.trim() || null]. *)
Definition trimmed_part (parts : list jsstring) (i : nat) : value :=
  match nth_error parts i with
  | Some p => or_else (VStr (trim p)) VNull
  | None => VNull
  end.

(** The journal and the year read off the second part. *)
Definition journal_year (parts : list jsstring) : value * value :=
  match nth_error parts 1 with
  | Some ((_ :: _) as p1) =>
      let sourceYear := trim p1 in
      match match_year sourceYear with
      | Some m => (VStr (trim (replace_year sourceYear)), VNum (parseInt m))
      | None => (VStr sourceYear, VNull)
      end
  | _ => (VNull, VNull)
  end.

Definition parsePublicationInfo (summary : value) : res PubInfo.t :=
  if negb (truthy summary) then
    Ok (PubInfo.mk VNull VNull VNull VNull)
  else
    do s <- string_receiver summary "split" "summary.split";
    let parts := split sep_dash s in
    let authors := trimmed_part parts 0 in
    let '(journal, year) := journal_year parts in
    let publisher := trimmed_part parts 2 in
    Ok (PubInfo.mk authors journal year publisher).

(** [resource => resource.file_format?.toUpperCase() === 'PDF']. *)
Definition is_pdf_resource (resource : value) : res bool :=
  do ff <- get resource "file_format";
  if nullish ff then Ok false
  else
    do s <- string_receiver ff "toUpperCase" "resource.file_format?.toUpperCase";
    Ok (jsstring_eqb (toUpperCase s) (js "PDF")).

(** [resources.find(...)]: the first entry the predicate accepts; the
    entries after it are not visited. *)
Fixpoint find (resources : list value) : res value :=
  match resources with
  | [] => Ok VUndefined
  | r :: rest =>
      do b <- is_pdf_resource r;
      if b then Ok r else find rest
  end.

Definition extractPdfUrl (resources : value) : res value :=
  match resources with
  | VArr items =>
      do pdfResource <- find items;
      Ok (or_else (opt_get pdfResource "link") VNull)
  | _ => Ok VNull
  end.

Definition parseOrganicResult (result : value) : res publication :=
  do pi <- get result "publication_info";
  do publicationInfo <-
    (if truthy pi then parsePublicationInfo (getprop pi "summary")
     else Ok PubInfo.empty);
  let inline_links := getprop result "inline_links" in
  do pdf <- extractPdfUrl (getprop result "resources");
  Ok {| google_scholar_id := or_else (getprop result "result_id") VNull;
        title := or_else (getprop result "title") VNull;
        authors := or_else (PubInfo.authors publicationInfo) VNull;
        publication_year := or_else (PubInfo.year publicationInfo) VNull;
        journal := or_else (PubInfo.journal publicationInfo) VNull;
        article_url := or_else (getprop result "link") VNull;
        abstract := or_else (getprop result "snippet") VNull;
        citation_count :=
          or_else (opt_get (opt_get inline_links "cited_by") "total") (VNum 0);
        cites_id :=
          or_else (opt_get (opt_get inline_links "cited_by") "cites_id") VNull;
        pdf_url := pdf;
        cluster_id :=
          or_else (opt_get (opt_get inline_links "versions") "cluster_id") VNull;
        publisher := or_else (PubInfo.publisher publicationInfo) VNull |}.

Definition parseOrganicResults (results : value) : res (list publication) :=
  match results with
  | VArr items => mapM parseOrganicResult items
  | _ => Ok []
  end.

Definition isValidPublication (p : publication) : bool :=
  truthy (title p) && truthy (google_scholar_id p).

Definition filterValidPublications (l : list publication) : list publication :=
  List.filter isValidPublication l.

Definition sanitizeString (str : value) : res value :=
  if negb (truthy str) then Ok VNull
  else
    do s <- string_receiver str "replace" "str.replace";
    Ok (VStr (trim (collapse_ws s))).


(** [Math.floor(start / 10) + 1], for an integer-valued [start], in
    binary64 arithmetic. *)
Definition calculateCurrentPage (start : Z) : Z := Number.page_of start.

(** The object literal of [prepareForDatabase]; [sanitizeString] is called
    on the fields in the order of the literal. *)
Definition prepareForDatabase (p : publication) : res publication :=
  do title' <- sanitizeString (title p);
  do authors' <- sanitizeString (authors p);
  do journal' <- sanitizeString (journal p);
  do abstract' <- sanitizeString (abstract p);
  do publisher' <- sanitizeString (publisher p);
  Ok {| google_scholar_id := google_scholar_id p;
        title := title';
        authors := authors';
        publication_year := publication_year p;
        journal := journal';
        article_url := article_url p;
        abstract := abstract';
        citation_count := or_else (citation_count p) (VNum 0);
        cites_id := cites_id p;
        pdf_url := pdf_url p;
        cluster_id := cluster_id p;
        publisher := publisher' |}.

End ParserService.

(* ================================================================== *)
(** * The outside world *)
(* ================================================================== *)

(** The calls that leave the process. *)
Inductive event :=
| EvHttpGet (q : jsstring) (start : Z)   (* [axios.get] to the search API *)
| EvSelectCount (id : value)             (* [pool.execute] of the COUNT query *)
| EvInsert (values : list value)         (* [pool.execute] of the INSERT *)
| EvDelay (ms : Z).                      (* the [setTimeout] promise *)

(** The world the run acts on, and the calls made so far, oldest first. *)
Record state (World : Type) := mkState {
  world : World;
  trace : list event
}.

Definition emit {World} (e : event) (w : World) (st : state World) : state World :=
  mkState w (trace st ++ [e]).

(** The engine's message for a [TypeError]; V8's wording serves as the
    concrete instance. *)
Definition v8_message (te : type_error) : jsstring :=
  match te with
  | ReadOfNullish base prop =>
      js "Cannot read properties of "
      ++ (match base with VNull => js "null" | _ => js "undefined" end)
      ++ js " (reading '" ++ js prop ++ js "')"
  | NotAFunction callee => js callee ++ js " is not a function"
  | NotPrimitive => js "Cannot convert object to primitive value"
  | CallStackExceeded => js "Maximum call stack size exceeded"
  end.

Section ErrorProperties.
Variable typeErrorMessage : type_error -> jsstring.

(** [error.message], [error.code], [error.response], [error.status]. *)
Definition message_of (e : jserror) : jsstring :=
  match e with
  | ErrObj o => message o
  | TypeError te => typeErrorMessage te
  end.

Definition code_of (e : jserror) : option jsstring :=
  match e with
  | ErrObj o => code o
  | TypeError _ => None
  end.

Definition response_of (e : jserror) : option value :=
  match e with
  | ErrObj o => response o
  | TypeError _ => None
  end.

Definition status_of (e : jserror) : option Z :=
  match e with
  | ErrObj o => status o
  | TypeError _ => None
  end.
End ErrorProperties.

(* ================================================================== *)
(** * services/serpApiService.js *)
(* ================================================================== *)

Module SerpApiService.
Section Env.
Variable typeErrorMessage : type_error -> jsstring.
Variable World : Type.
(** [axios.get(baseUrl, {params, timeout: 30000})]: resolves with
    [response.data], or rejects with an error that has a [response] when
    the server answered with an error status, and none on a timeout or a
    transport failure. *)
Variable axios_get : World -> jsstring -> Z -> res value * World.

(** The body of the [try] block, after the request. *)
Definition search_try (r : res value) : res value :=
  do data <- r;
  do e <- get data "error";
  if truthy e then (do m <- ToString e; Throw (newError m)) else Ok data.

(** The [catch] block: what it throws for the exception caught. *)
Definition search_catch (error : jserror) : jserror :=
  match response_of error with
  | Some data =>
      match get data "error" with
      | Throw te => te
      | Ok e =>
          if truthy e then
            match ToString e with
            | Throw te => te
            | Ok m => newError (js "SerpAPI Error: " ++ m)
            end
          else newError (js "SerpAPI Error: "
                         ++ message_of typeErrorMessage error)
      end
  | None =>
      newError (js "Network Error: " ++ message_of typeErrorMessage error)
  end.

Definition search (query : jsstring) (start : Z) (st : state World)
  : res value * state World :=
  let '(r, w) := axios_get (world st) query start in
  let st' := emit (EvHttpGet query start) w st in
  match search_try r with
  | Ok data => (Ok data, st')
  | Throw error => (Throw (search_catch error), st')
  end.

Definition searchByAuthor (authorName : jsstring) (start : Z) (st : state World)
  : res value * state World :=
  search (js "author:" ++ [Char.dquote] ++ authorName ++ [Char.dquote]) start st.

(** [x === 0]. *)
Definition length_is_zero (v : value) : bool :=
  match v with
  | VNum 0 => true
  | _ => false
  end.

(** The loop of [searchMultiplePages] for an integer [maxPages]: [n] pages
    are left, [page] is the current one; a failing or empty page ends the
    loop ([break]), whatever the failure. *)
Fixpoint pagesLoop (query : jsstring) (maxPages : Z) (n : nat) (page : Z)
    (allResults : list value) (st : state World) : list value * state World :=
  match n with
  | O => (allResults, st)
  | S n' =>
      let '(r, st1) := search query (page * 10)%Z st in
      match r with
      | Throw _ => (allResults, st1)
      | Ok response =>
          match get response "organic_results" with
          | Throw _ => (allResults, st1)
          | Ok organic_results =>
              if negb (truthy organic_results)
                 || length_is_zero (getprop organic_results "length")
              then (allResults, st1)
              else
                match spread organic_results with
                | None => (allResults, st1)
                | Some items =>
                    let st2 :=
                      if (page <? maxPages - 1)%Z
                      then emit (EvDelay 2000) (world st1) st1
                      else st1 in
                    pagesLoop query maxPages n' (page + 1)%Z
                      (allResults ++ items) st2
                end
          end
      end
  end.

Definition searchMultiplePages (query : jsstring) (maxPages : Z)
    (st : state World) : list value * state World :=
  pagesLoop query maxPages (Z.to_nat maxPages) 0%Z [] st.
End Env.
End SerpApiService.

(* ================================================================== *)
(** * middleware/errorHandler.js *)
(* ================================================================== *)

Module ErrorHandler.
Section Env.
Variable typeErrorMessage : type_error -> jsstring.

(** The status and the message of the response. *)
Definition errorHandler (err : jserror) : Z * jsstring :=
  let status0 := match status_of err with
                 | Some s => if (s =? 0)%Z then 500%Z else s
                 | None => 500%Z
                 end in
  let message0 := match message_of typeErrorMessage err with
                  | [] => js "Internal Server Error"
                  | m => m
                  end in
  let status1 := if includes (js "SerpAPI Error") message0 then 502%Z else status0 in
  let status2 := if includes (js "Network Error") message0 then 503%Z else status1 in
  let '(status3, message3) :=
    match code_of err with
    | Some c => if jsstring_eqb c (js "ECONNREFUSED")
                then (503%Z, js "Database connection failed")
                else (status2, message0)
    | None => (status2, message0)
    end in
  let status4 := if includes (js "required") message3 then 400%Z else status3 in
  (status4, message3).
End Env.
End ErrorHandler.

(* ================================================================== *)
(** * models/articleModel.js *)
(* ================================================================== *)

Module DbArticle.
(** The object the controller hands to [create]. *)
Record t := mk {
  google_scholar_id : value;
  paper_title : value;
  authors : value;
  publication_year : value;
  journal : value;
  article_url : value;
  abstract_text : value;
  citation_count : value;
  cites_id : value;
  pdf_url : value;
  publisher : value
}.
End DbArticle.

Module ArticleModel.
Section Env.
Variable World : Type.
(** [pool.execute] of the INSERT: resolves with [result.insertId], or
    rejects with the driver's error ([code], [message]). *)
Variable pool_insert : World -> list value -> res value * World.
(** [pool.execute] of the COUNT query: resolves with [rows[0].count]. *)
Variable pool_count : World -> value -> res Z * World.

Definition insert_values (articleData : DbArticle.t) : list value :=
  [ DbArticle.google_scholar_id articleData;
    DbArticle.paper_title articleData;
    DbArticle.authors articleData;
    DbArticle.publication_year articleData;
    DbArticle.journal articleData;
    DbArticle.article_url articleData;
    DbArticle.abstract_text articleData;
    or_else (DbArticle.citation_count articleData) (VNum 0);
    DbArticle.cites_id articleData;
    DbArticle.pdf_url articleData;
    DbArticle.publisher articleData ].

Definition duplicate_message (id : value) : res jsstring :=
  do s <- ToString id;
  Ok (js "Article with google_scholar_id '" ++ s ++ js "' already exists").

Definition create (articleData : DbArticle.t) (st : state World)
  : res value * state World :=
  let values := insert_values articleData in
  let '(r, w) := pool_insert (world st) values in
  let st' := emit (EvInsert values) w st in
  match r with
  | Ok insertId => (Ok insertId, st')
  | Throw error =>
      match code_of error with
      | Some c =>
          if jsstring_eqb c (js "ER_DUP_ENTRY")
          then
            match duplicate_message (DbArticle.google_scholar_id articleData) with
            | Ok m => (Throw (newError m), st')
            | Throw te => (Throw te, st')
            end
          else (Throw error, st')
      | None => (Throw error, st')
      end
  end.

Definition existsByGoogleScholarId (googleScholarId : value) (st : state World)
  : res bool * state World :=
  let '(r, w) := pool_count (world st) googleScholarId in
  let st' := emit (EvSelectCount googleScholarId) w st in
  match r with
  | Ok count => (Ok (0 <? count)%Z, st')
  | Throw error => (Throw error, st')
  end.
End Env.
End ArticleModel.

(* ================================================================== *)
(** * controllers/authorArticleController.js *)
(* ================================================================== *)

(** An entry of [authorResult.articles]. *)
Record article_ref := mkArticleRef {
  ref_id : value;
  ref_google_scholar_id : value;
  ref_title : value;
  ref_citation_count : value
}.

(** An entry of [results.articles_saved]. *)
Record saved_ref := mkSavedRef {
  saved_article_id : value;
  saved_title : value;
  author_searched : jsstring
}.

Module AuthorResult.
Record t := mk {
  author : jsstring;
  fetched : nat;
  saved : nat;
  already_exists : nat;
  articles : list article_ref;
  error : option jsstring
}.

Definition init (authorName : jsstring) : t := mk authorName 0 0 0 [] None.

Definition set_error (msg : jsstring) (a : t) : t :=
  mk (author a) (fetched a) (saved a) (already_exists a) (articles a) (Some msg).

Definition set_fetched (n : nat) (a : t) : t :=
  mk (author a) n (saved a) (already_exists a) (articles a) (error a).

(** [authorResult.already_exists++]. *)
Definition incr_already_exists (a : t) : t :=
  mk (author a) (fetched a) (saved a) (S (already_exists a)) (articles a) (error a).

(** [authorResult.saved++] and the push onto [authorResult.articles]. *)
Definition add_saved (r : article_ref) (a : t) : t :=
  mk (author a) (fetched a) (S (saved a)) (already_exists a)
     (articles a ++ [r]) (error a).
End AuthorResult.

Module Results.
Record t := mk {
  authors : list AuthorResult.t;
  total_fetched : nat;
  total_saved : nat;
  total_already_exists : nat;
  articles_saved : list saved_ref
}.

Definition init : t := mk [] 0 0 0 [].

(** [results.authors.push(authorResult)]. *)
Definition push_author (a : AuthorResult.t) (r : t) : t :=
  mk (authors r ++ [a]) (total_fetched r) (total_saved r)
     (total_already_exists r) (articles_saved r).

Definition add_fetched (n : nat) (r : t) : t :=
  mk (authors r) (total_fetched r + n) (total_saved r)
     (total_already_exists r) (articles_saved r).

(** [results.total_already_exists++]. *)
Definition incr_already_exists (r : t) : t :=
  mk (authors r) (total_fetched r) (total_saved r)
     (S (total_already_exists r)) (articles_saved r).

(** [results.total_saved++] and the push onto [results.articles_saved]. *)
Definition add_saved (s : saved_ref) (r : t) : t :=
  mk (authors r) (total_fetched r) (S (total_saved r))
     (total_already_exists r) (articles_saved r ++ [s]).
End Results.

(** The [summary] object of the response. *)
Record summary := mkSummary {
  sum_total_fetched : nat;
  sum_total_saved : nat;
  sum_total_already_exists : nat
}.

(** What the handler does with the request: a JSON response with its
    status, or the exception passed to [next]. *)
Inductive body :=
| ErrorBody (error : jsstring)
| SuccessBody (msg : jsstring) (s : summary)
    (authors : list AuthorResult.t) (articles_saved : list saved_ref).

Inductive http_result :=
| Json (status : Z) (b : body)
| Next (e : jserror).

Module AuthorArticleController.
Section Env.
Variable typeErrorMessage : type_error -> jsstring.
Variable World : Type.
Variable axios_get : World -> jsstring -> Z -> res value * World.
Variable pool_insert : World -> list value -> res value * World.
Variable pool_count : World -> value -> res Z * World.

Local Abbreviation searchByAuthor := (SerpApiService.searchByAuthor typeErrorMessage axios_get).
Local Abbreviation create := (ArticleModel.create pool_insert).
Local Abbreviation existsByGoogleScholarId := (ArticleModel.existsByGoogleScholarId pool_count).
Local Abbreviation sanitizeString := ParserService.sanitizeString.

(** [authors.split(',').map(a => a.trim()).filter(a => a)]. *)
Definition authorList_of (authors : jsstring) : list jsstring :=
  List.filter (fun a => truthy (VStr a))
    (List.map trim (split (js ",") authors)).

(** The object literal [dbArticle]; [sanitizeString] is called on the
    fields in the order of the literal. *)
Definition dbArticle_of (article : publication) : res DbArticle.t :=
  do paper_title <- sanitizeString (title article);
  do authors' <- sanitizeString (authors article);
  do journal' <- sanitizeString (journal article);
  do abstract_text <- sanitizeString (abstract article);
  let citation_count' := or_else (citation_count article) (VNum 0) in
  do publisher' <- sanitizeString (publisher article);
  Ok (DbArticle.mk (google_scholar_id article) paper_title authors'
        (publication_year article) journal' (article_url article)
        abstract_text citation_count' (cites_id article) (pdf_url article)
        publisher').

(** The objects the inner loop mutates, and the world. *)
Record loop_state := mkLoop {
  authorResult : AuthorResult.t;
  results : Results.t;
  st : state World
}.

Definition count_already_exists (l : loop_state) (st' : state World) : loop_state :=
  mkLoop (AuthorResult.incr_already_exists (authorResult l))
         (Results.incr_already_exists (results l)) st'.

Definition count_saved (authorName : jsstring) (articleId : value)
    (dbArticle : DbArticle.t) (l : loop_state) (st' : state World) : loop_state :=
  mkLoop
    (AuthorResult.add_saved
       (mkArticleRef articleId (DbArticle.google_scholar_id dbArticle)
          (DbArticle.paper_title dbArticle) (DbArticle.citation_count dbArticle))
       (authorResult l))
    (Results.add_saved
       (mkSavedRef articleId (DbArticle.paper_title dbArticle) authorName)
       (results l))
    st'.

(** [for (const article of validArticles) { ... }]: the exception that
    leaves the loop, if any, and the state it leaves behind.  The line
    logged for a candidate that exists converts its title to a string, which
    can throw, before the counters move.  The two other lines logged in the
    loop convert [dbArticle.paper_title], which [sanitizeString] returned,
    a string or null, and [saveError.message], a string: they cannot
    throw. *)
Fixpoint saveLoop (authorName : jsstring) (validArticles : list publication)
    (savedCount : nat) (l : loop_state) : option jserror * loop_state :=
  match validArticles with
  | [] => (None, l)
  | article :: rest =>
      if (3 <=? savedCount)%nat then (None, l)
      else
        let '(r, st1) :=
          existsByGoogleScholarId (google_scholar_id article) (st l) in
        match r with
        | Throw e => (Some e, mkLoop (authorResult l) (results l) st1)
        | Ok true =>
            match ToString (title article) with
            | Throw e => (Some e, mkLoop (authorResult l) (results l) st1)
            | Ok _ =>
                saveLoop authorName rest savedCount (count_already_exists l st1)
            end
        | Ok false =>
            match dbArticle_of article with
            | Throw e => (Some e, mkLoop (authorResult l) (results l) st1)
            | Ok dbArticle =>
                let '(r2, st2) := create dbArticle st1 in
                match r2 with
                | Ok articleId =>
                    saveLoop authorName rest (S savedCount)
                      (count_saved authorName articleId dbArticle l st2)
                | Throw saveError =>
                    if includes (js "already exists")
                         (message_of typeErrorMessage saveError)
                    then saveLoop authorName rest savedCount
                           (count_already_exists l st2)
                    else saveLoop authorName rest savedCount
                           (mkLoop (authorResult l) (results l) st2)
                end
            end
        end
  end.

(** [authorList.indexOf(authorName)]. *)
Fixpoint indexOf (authorList : list jsstring) (authorName : jsstring) : Z :=
  match authorList with
  | [] => (-1)%Z
  | a :: rest =>
      if jsstring_eqb a authorName then 0%Z
      else let i := indexOf rest authorName in
           if (i <? 0)%Z then (-1)%Z else (i + 1)%Z
  end.

(** [x === 0]. *)
Definition is_zero (v : value) : bool :=
  match v with
  | VNum 0 => true
  | _ => false
  end.

(** The [catch (authorError)] block followed by the push. *)
Definition author_failed (authorError : jserror) (l : loop_state)
  : Results.t * state World :=
  (Results.push_author
     (AuthorResult.set_error (message_of typeErrorMessage authorError)
        (authorResult l))
     (results l),
   st l).

(** One iteration of [for (const authorName of authorList)]. *)
Definition processAuthor (authorList : list jsstring) (authorName : jsstring)
    (results0 : Results.t) (st0 : state World) : Results.t * state World :=
  let authorResult0 := AuthorResult.init authorName in
  let '(r, st1) := searchByAuthor authorName 0%Z st0 in
  match r with
  | Throw e => author_failed e (mkLoop authorResult0 results0 st1)
  | Ok searchData =>
      match get searchData "organic_results" with
      | Throw e => author_failed e (mkLoop authorResult0 results0 st1)
      | Ok organic_results =>
          if negb (truthy organic_results)
             || is_zero (getprop organic_results "length")
          then
            (Results.push_author
               (AuthorResult.set_error (js "No articles found") authorResult0)
               results0,
             st1)
          else
            match ParserService.parseOrganicResults organic_results with
            | Throw e => author_failed e (mkLoop authorResult0 results0 st1)
            | Ok parsedArticles =>
                let validArticles :=
                  ParserService.filterValidPublications parsedArticles in
                let n := List.length validArticles in
                let l1 := mkLoop (AuthorResult.set_fetched n authorResult0)
                                 (Results.add_fetched n results0) st1 in
                match saveLoop authorName validArticles 0 l1 with
                | (Some e, l2) => author_failed e l2
                | (None, l2) =>
                    let st3 :=
                      if (indexOf authorList authorName
                          <? Z.of_nat (List.length authorList) - 1)%Z
                      then emit (EvDelay 2000) (world (st l2)) (st l2)
                      else st l2 in
                    (Results.push_author (authorResult l2) (results l2), st3)
                end
            end
      end
  end.

(** [for (const authorName of authorList)], over the names still to be
    processed. *)
Fixpoint authorLoop (authorList todo : list jsstring)
    (results0 : Results.t) (st0 : state World) : Results.t * state World :=
  match todo with
  | [] => (results0, st0)
  | authorName :: rest =>
      let '(results1, st1) := processAuthor authorList authorName results0 st0 in
      authorLoop authorList rest results1 st1
  end.

Definition msg_authors_required : jsstring :=
  js "Query parameter " ++ [Char.dquote] ++ js "authors" ++ [Char.dquote]
  ++ js " is required (comma-separated list of 3 author names)".

Definition msg_exactly_three : jsstring :=
  js "Exactly 3 author names are required, separated by commas".

(** The handler, for [req.query.authors] and the world at the request. *)
Definition fetchArticlesByAuthors (authors : value) (w : World)
  : http_result * state World :=
  let st0 := mkState w [] in
  if negb (truthy authors) then
    (Json 400 (ErrorBody msg_authors_required), st0)
  else
    match string_receiver authors "split" "authors.split" with
    | Throw e => (Next e, st0)
    | Ok s =>
        let authorList := authorList_of s in
        if negb (List.length authorList =? 3)%nat then
          (Json 400 (ErrorBody msg_exactly_three), st0)
        else
          let '(results1, st1) :=
            authorLoop authorList authorList Results.init st0 in
          (Json 200
             (SuccessBody
                (js "Processed "
                 ++ Z_to_jsstring (Z.of_nat (List.length authorList))
                 ++ js " authors")
                (mkSummary (Results.total_fetched results1)
                           (Results.total_saved results1)
                           (Results.total_already_exists results1))
                (Results.authors results1)
                (Results.articles_saved results1)),
           st1)
    end.
End Env.
End AuthorArticleController.

(* ================================================================== *)
(** * A concrete world: canned search responses and an in-memory table *)
(* ================================================================== *)

Module Scenario.

(** The answers of the search API by query, the identifiers stored, the
    next [insertId], and the identifiers whose INSERT the database
    rejects with a given error. *)
Record World := mkWorld {
  responses : list (jsstring * res value);
  stored : list jsstring;
  next_id : Z;
  faults : list (jsstring * error_obj)
}.

Fixpoint assoc {A} (k : jsstring) (l : list (jsstring * A)) : option A :=
  match l with
  | [] => None
  | (k', a) :: rest => if jsstring_eqb k k' then Some a else assoc k rest
  end.

Definition mem (k : jsstring) (l : list jsstring) : bool :=
  List.existsb (jsstring_eqb k) l.

(** A transport failure when the query has no canned answer. *)
Definition timeout_error : jserror :=
  ErrObj (mkError (js "timeout of 30000ms exceeded") (Some (js "ECONNABORTED"))
            None None).

Definition axios_get (w : World) (q : jsstring) (start : Z) : res value * World :=
  match assoc q (responses w) with
  | Some r => (r, w)
  | None => (Throw timeout_error, w)
  end.

Definition pool_count (w : World) (id : value) : res Z * World :=
  match id with
  | VStr s => (Ok (if mem s (stored w) then 1%Z else 0%Z), w)
  | _ => (Ok 0%Z, w)
  end.

Definition dup_entry (s : jsstring) : jserror :=
  ErrObj (mkError (js "Duplicate entry '" ++ s
                   ++ js "' for key 'articles.google_scholar_id'")
            (Some (js "ER_DUP_ENTRY")) None None).

Definition pool_insert (w : World) (values : list value) : res value * World :=
  match values with
  | VStr s :: _ =>
      match assoc s (faults w) with
      | Some e => (Throw (ErrObj e), w)
      | None =>
          if mem s (stored w) then (Throw (dup_entry s), w)
          else (Ok (VNum (next_id w)),
                mkWorld (responses w) (stored w ++ [s]) (next_id w + 1) (faults w))
      end
  | _ => (Throw (ErrObj (mkError (js "Incorrect arguments to mysqld_stmt_execute")
                           (Some (js "ER_WRONG_ARGUMENTS")) None None)), w)
  end.

Abbreviation fetchArticlesByAuthors :=
  (AuthorArticleController.fetchArticlesByAuthors v8_message axios_get
     pool_insert pool_count).

(** A raw result item with an identifier and a title. *)
Definition item (id ttl : string) : value :=
  VObj [("result_id", VStr (js id)); ("title", VStr (js ttl))].

Definition page (items : list value) : res value :=
  Ok (VObj [("organic_results", VArr items)]).

Definition author_query (name : string) : jsstring :=
  js "author:" ++ [Char.dquote] ++ js name ++ [Char.dquote].

(** The record parsed from [item id ttl]. *)
Definition pub (id ttl : string) : publication :=
  mkPublication (VStr (js id)) (VStr (js ttl)) VNull VNull VNull VNull VNull
    (VNum 0) VNull VNull VNull VNull.

(** Three authors: five candidates for the first, one of them stored
    already; an error reported in the response body for the second; three
    candidates for the third, the first of which the first author's pass
    will have stored. *)
Definition demo_world : World :=
  mkWorld
    [ (author_query "Ann",
       page [item "a1" "T1"; item "a2" "T2"; item "a3" "T3"; item "a4" "T4";
             item "a5" "T5"]);
      (author_query "Bob", Ok (VObj [("error", VStr (js "Invalid API key."))]));
      (author_query "Cy", page [item "a1" "T1"; item "c2" "U2"; item "c3" "U3"]) ]
    [js "a2"] 10 [].

Definition demo_request : jsstring := js "Ann, Bob ,Cy".

(** Errors of the INSERT other than the duplicate entry: a deadlock, and
    the error a BEFORE INSERT trigger signals. *)
Definition deadlock_error : error_obj :=
  mkError (js "Deadlock found when trying to get lock; try restarting transaction")
    (Some (js "ER_LOCK_DEADLOCK")) None None.

Definition trigger_error : error_obj :=
  mkError (js "Article title already exists") (Some (js "ER_SIGNAL_EXCEPTION"))
    None None.

(** The duplicate entry of a row inserted between the check and the
    insert. *)
Definition race_error : error_obj :=
  mkError (js "Duplicate entry 'a1' for key 'articles.google_scholar_id'")
    (Some (js "ER_DUP_ENTRY")) None None.

(** An empty table that rejects the insert of the one candidate of the
    first author with [e]. *)
Definition faulty_world (e : error_obj) : World :=
  mkWorld [ (author_query "Ann", page [item "a1" "T1"; item "a9" "T9"]) ] []
    10 [ (js "a1", e) ].

(** The three ways a search can fail: an error field in the body of a
    successful response, a time-out, and an error status with the same
    body. *)
Definition embedded_error_world : World :=
  mkWorld [ (author_query "Ann", Ok (VObj [("error", VStr (js "Invalid API key."))])) ]
    [] 10 [].

Definition timeout_world : World := mkWorld [] [] 10 [].

Definition http_error_world : World :=
  mkWorld
    [ (author_query "Ann",
       Throw (ErrObj (mkError (js "Request failed with status code 401")
                        (Some (js "ERR_BAD_REQUEST"))
                        (Some (VObj [("error", VStr (js "Invalid API key."))]))
                        None))) ]
    [] 10 [].

(** The inner loop's state at its start for the first author. *)
Definition loop_start (w : World) : AuthorArticleController.loop_state World :=
  AuthorArticleController.mkLoop (AuthorResult.init (js "Ann")) Results.init
    (mkState w []).

Abbreviation saveLoop :=
  (AuthorArticleController.saveLoop v8_message pool_insert pool_count).

End Scenario.

(* ================================================================== *)
(** * Specification-level notions *)
(* ================================================================== *)

(** The words of a string: its maximal runs of code units that are not
    white space. *)
Definition add_head (c : N) (l : list jsstring) : list jsstring :=
  match l with
  | w :: ws => (c :: w) :: ws
  | [] => [[c]]
  end.

Definition starts_ws_or_ends (s : jsstring) : bool :=
  match s with
  | c :: _ => Char.is_ws c
  | [] => true
  end.

Fixpoint words (s : jsstring) : list jsstring :=
  match s with
  | [] => []
  | c :: s' =>
      if Char.is_ws c then words s'
      else if starts_ws_or_ends s' then [c] :: words s'
      else add_head c (words s')
  end.

(** The words joined by single spaces: white-space runs collapsed, no white
    space at either end. *)
Definition unwords (ws : list jsstring) : jsstring := join_with [Char.space] ws.

Definition starts_clean (s : jsstring) : bool :=
  match s with
  | c :: _ => negb (Char.is_ws c)
  | [] => true
  end.

Definition ends_clean (s : jsstring) : bool := starts_clean (rev s).

(** No two consecutive white-space code units. *)
Fixpoint no_ws_pair (s : jsstring) : bool :=
  match s with
  | c1 :: ((c2 :: _) as r) => negb (Char.is_ws c1 && Char.is_ws c2) && no_ws_pair r
  | _ => true
  end.

(** A word: not empty, no white space in it. *)
Definition word_ok (w : jsstring) : Prop :=
  w <> [] /\ forallb (fun c => negb (Char.is_ws c)) w = true.

Definition starts_ws (s : jsstring) : bool :=
  match s with
  | c :: _ => Char.is_ws c
  | [] => false
  end.

(** ** Raw result items *)

(** The summary of the item's [publication_info], when there is one, is a
    string or is falsy (absent, null, empty). *)
Definition summary_ok (result : value) : bool :=
  let pi := getprop result "publication_info" in
  if truthy pi then
    match getprop pi "summary" with
    | VStr _ => true
    | v => negb (truthy v)
    end
  else true.

(** A resource entry is not null and its [file_format] is a string or is
    absent. *)
Definition resource_ok (r : value) : bool :=
  negb (nullish r)
  && match getprop r "file_format" with
     | VStr _ | VUndefined | VNull => true
     | _ => false
     end.

Definition resources_ok (result : value) : bool :=
  match getprop result "resources" with
  | VArr items => forallb resource_ok items
  | _ => true
  end.

(** The items the parser is written for. *)
Definition well_formed_item (result : value) : bool :=
  negb (nullish result) && summary_ok result && resources_ok result.

(** The item has no usable summary: no [publication_info], or one whose
    [summary] is absent or empty. *)
Definition summary_absent (result : value) : bool :=
  let pi := getprop result "publication_info" in
  negb (truthy pi) || negb (truthy (getprop pi "summary")).

Definition is_nonneg_int (v : value) : bool :=
  match v with
  | VNum n => (0 <=? n)%Z
  | _ => false
  end.

(** The nested citation-count field [inline_links.cited_by.total] is
    missing at some level. *)
Definition total_missing (result : value) : bool :=
  let inline_links := getprop result "inline_links" in
  nullish inline_links
  || (let cited_by := getprop inline_links "cited_by" in
      nullish cited_by || nullish (getprop cited_by "total")).

(** The nested citation-count field, when no level is missing. *)
Definition source_total (result : value) : value :=
  getprop (getprop (getprop result "inline_links") "cited_by") "total".

(** ** The run summary *)

(** What the inner loop leaves untouched, and how the counters of the
    author and of the run move together. *)
Definition loop_related {World : Type}
    (l l' : AuthorArticleController.loop_state World) : Prop :=
  let ar := AuthorArticleController.authorResult l in
  let ar' := AuthorArticleController.authorResult l' in
  let rs := AuthorArticleController.results l in
  let rs' := AuthorArticleController.results l' in
  Results.authors rs' = Results.authors rs
  /\ Results.total_fetched rs' = Results.total_fetched rs
  /\ AuthorResult.author ar' = AuthorResult.author ar
  /\ AuthorResult.fetched ar' = AuthorResult.fetched ar
  /\ AuthorResult.error ar' = AuthorResult.error ar
  /\ Results.total_saved rs' + AuthorResult.saved ar
     = Results.total_saved rs + AuthorResult.saved ar'
  /\ Results.total_already_exists rs' + AuthorResult.already_exists ar
     = Results.total_already_exists rs + AuthorResult.already_exists ar'.

(** The sum of a counter over the sub-summaries. *)
Definition sum_of (f : AuthorResult.t -> nat) (l : list AuthorResult.t) : nat :=
  list_sum (List.map f l).

(** One pass of the outer loop pushed the sub-summary [ar] of [name] and
    moved the run-level counters by its counters. *)
Definition author_pushed (name : jsstring) (r0 r1 : Results.t)
    (ar : AuthorResult.t) : Prop :=
  Results.authors r1 = Results.authors r0 ++ [ar]
  /\ AuthorResult.author ar = name
  /\ AuthorResult.saved ar <= 3
  /\ Results.total_saved r1 = Results.total_saved r0 + AuthorResult.saved ar
  /\ Results.total_already_exists r1
     = Results.total_already_exists r0 + AuthorResult.already_exists ar.

(** The sub-summary of an author whose search failed with [msg]. *)
Definition failed_author (name msg : jsstring) : AuthorResult.t :=
  AuthorResult.mk name 0 0 0 [] (Some msg).

(** The state after the existence check of the inner loop, and after the
    insert that follows it. *)
Definition after_check {World : Type}
    (l : AuthorArticleController.loop_state World) (id : value) (w1 : World)
  : state World :=
  emit (EvSelectCount id) w1 (AuthorArticleController.st l).

Definition after_insert {World : Type}
    (l : AuthorArticleController.loop_state World) (id : value) (w1 : World)
    (db : DbArticle.t) (w2 : World) : state World :=
  emit (EvInsert (ArticleModel.insert_values db)) w2 (after_check l id w1).

(** What a test reads off the response. *)
Definition response_summary (r : http_result) : option summary :=
  match r with
  | Json _ (SuccessBody _ s _ _) => Some s
  | _ => None
  end.

Definition response_authors (r : http_result) : list AuthorResult.t :=
  match r with
  | Json _ (SuccessBody _ _ auths _) => auths
  | _ => []
  end.

(** ** Year tokens *)

(** The last code unit of [a], or [prev] when [a] is empty. *)
Definition last_or (prev : option N) (a : jsstring) : option N :=
  fold_left (fun _ c => Some c) a prev.

Definition last_opt (a : jsstring) : option N := last_or None a.

(** Four code units of the shape 19dd or 20dd. *)
Definition is_year_text (y : jsstring) : bool :=
  match y with
  | [c1; c2; c3; c4] => year4 c1 c2 c3 c4
  | _ => false
  end.

(** No substring of the shape 19dd or 20dd starts at one of the first [n]
    positions of [s]. *)
Fixpoint no_year_start (n : nat) (s : jsstring) : bool :=
  match n with
  | O => true
  | S n' =>
      match year_prefix s with
      | Some _ => false
      | None =>
          match s with
          | [] => true
          | _ :: s' => no_year_start n' s'
          end
      end
  end.

(** No substring of [s] has the shape 19dd or 20dd. *)
Definition no_year_inside (s : jsstring) : bool := no_year_start (List.length s) s.

(** [y], between the code units [before] and [after], is delimited by word
    boundaries. *)
Definition token_delimited (before : option N) (y : jsstring) (after : option N)
  : bool :=
  boundary before (hd_error y) && boundary (last_opt y) after.

(** An optional comma followed by white space. *)
Definition is_lead (l : jsstring) : bool :=
  match l with
  | [] => true
  | c :: l' => ((c =? Char.comma)%N || Char.is_ws c) && forallb Char.is_ws l'
  end.

(** [lead] cannot be extended to the left into [pre]. *)
Definition lead_maximal (pre lead : jsstring) : bool :=
  match last_opt pre with
  | Some c => negb (is_lead (c :: lead))
  | None => true
  end.

(** No hyphen in [s]. *)
Definition no_dash (s : jsstring) : bool := forallb (fun c => negb (c =? 45)%N) s.

(** ** Resources and raw items *)

(** The three letters p, d, f in either case. *)
Definition is_pdf_format (s : jsstring) : bool :=
  match s with
  | [p; d; f] =>
      (((p =? 80) || (p =? 112)) && ((d =? 68) || (d =? 100))
       && ((f =? 70) || (f =? 102)))%N
  | _ => false
  end.

(** A resource whose format, if any, is a string that is not PDF. *)
Definition non_pdf_resource (r : value) : bool :=
  resource_ok r
  && negb (match getprop r "file_format" with
           | VStr f => is_pdf_format f
           | _ => false
           end).

(** A raw item with a title and an identifier. *)
Definition raw_valid (item : value) : bool :=
  truthy (getprop item "title") && truthy (getprop item "result_id").

(** Null, or a string without white space at its ends and without two
    consecutive white-space code units. *)
Definition sanitized (v : value) : bool :=
  match v with
  | VNull => true
  | VStr s => starts_clean s && ends_clean s && no_ws_pair s
  | _ => false
  end.

(** The code units of [s] that are not white space. *)
Definition nonws_content (s : jsstring) : jsstring :=
  List.filter (fun c => negb (Char.is_ws c)) s.

(** A string field of a parsed summary: null, or a trimmed string. *)
Definition trimmed_or_null (v : value) : bool :=
  match v with
  | VNull => true
  | VStr s => starts_clean s && ends_clean s
  | _ => false
  end.

(** The year of a parsed summary: null, or an integer from 1900 to 2099. *)
Definition year_in_range (v : value) : Prop :=
  v = VNull \/ exists n : Z, v = VNum n /\ (1900 <= n <= 2099)%Z.

(** ** Events *)

Definition is_http (e : event) : bool :=
  match e with
  | EvHttpGet _ _ => true
  | _ => false
  end.

Definition is_delay (e : event) : bool :=
  match e with
  | EvDelay _ => true
  | _ => false
  end.

Definition is_insert (e : event) : bool :=
  match e with
  | EvInsert _ => true
  | _ => false
  end.

(** The requests to the search API in a trace, the pauses, the inserts. *)
Definition http_events (tr : list event) : list event := List.filter is_http tr.
Definition delay_events (tr : list event) : list event := List.filter is_delay tr.
Definition insert_events (tr : list event) : list event := List.filter is_insert tr.

(** The request [searchByAuthor] makes for a name. *)
Definition author_request (name : jsstring) : event :=
  EvHttpGet (js "author:" ++ [Char.dquote] ++ name ++ [Char.dquote]) 0.

(** ** The trace of a run *)

(** The storage events of the inner loop for the candidates it reached, in
    their order: for each one the COUNT query of its identifier, followed or
    not by the INSERT of the object built from it. *)
Inductive checks_of : list publication -> list event -> Prop :=
| checks_nil : checks_of [] []
| checks_only (a : publication) (rest : list publication) (tr : list event) :
    checks_of rest tr ->
    checks_of (a :: rest) (EvSelectCount (google_scholar_id a) :: tr)
| checks_insert (a : publication) (db : DbArticle.t)
    (rest : list publication) (tr : list event) :
    AuthorArticleController.dbArticle_of a = Ok db ->
    checks_of rest tr ->
    checks_of (a :: rest)
      (EvSelectCount (google_scholar_id a)
       :: EvInsert (ArticleModel.insert_values db) :: tr).

(** The events of one author's pass: the search request, the storage
    events for valid candidates, and at most one pause at the end. *)
Definition author_trace (name : jsstring) (t : list event) : Prop :=
  exists (checked : list publication) (blocks pause : list event),
    t = author_request name :: blocks ++ pause
    /\ checks_of checked blocks
    /\ Forall (fun a => ParserService.isValidPublication a = true) checked
    /\ (pause = [] \/ pause = [EvDelay 2000]).

(** An INSERT carries eleven values, the identifier first and truthy, the
    title a sanitized string, the other text columns sanitized. *)
Definition insert_well_formed (values : list value) : bool :=
  match values with
  | [id; ttl; auth; _; jour; _; abst; _; _; _; publ] =>
      truthy id
      && match ttl with VStr _ => sanitized ttl | _ => false end
      && sanitized auth && sanitized jour && sanitized abst && sanitized publ
  | _ => false
  end.

(** The entry of the run-level list for an entry of an author's list. *)
Definition tag (name : jsstring) (r : article_ref) : saved_ref :=
  mkSavedRef (ref_id r) (ref_title r) name.

Definition tagged_articles (a : AuthorResult.t) : list saved_ref :=
  List.map (tag (AuthorResult.author a)) (AuthorResult.articles a).

Definition response_articles_saved (r : http_result) : list saved_ref :=
  match r with
  | Json _ (SuccessBody _ _ _ refs) => refs
  | _ => []
  end.

(** What the inner loop adds: to the trace, to the lists of references and
    to the counters. *)
Definition loop_adds {World : Type} (name : jsstring)
    (validArticles : list publication)
    (l l' : AuthorArticleController.loop_state World) : Prop :=
  let ar := AuthorArticleController.authorResult l in
  let ar' := AuthorArticleController.authorResult l' in
  let rs := AuthorArticleController.results l in
  let rs' := AuthorArticleController.results l' in
  exists (checked unchecked : list publication) (tr : list event)
         (newrefs : list article_ref) (k : nat),
    validArticles = checked ++ unchecked
    /\ trace (AuthorArticleController.st l')
       = trace (AuthorArticleController.st l) ++ tr
    /\ checks_of checked tr
    /\ AuthorResult.articles ar' = AuthorResult.articles ar ++ newrefs
    /\ Results.articles_saved rs'
       = Results.articles_saved rs ++ List.map (tag name) newrefs
    /\ AuthorResult.saved ar' = AuthorResult.saved ar + List.length newrefs
    /\ AuthorResult.already_exists ar' = AuthorResult.already_exists ar + k
    /\ List.length newrefs + k <= List.length checked.

(** The counters of a sub-summary: as many references as saved, at most
    three of them, and no more saved and existing than fetched. *)
Definition counts_ok (ar : AuthorResult.t) : Prop :=
  AuthorResult.saved ar = List.length (AuthorResult.articles ar)
  /\ AuthorResult.saved ar <= 3
  /\ AuthorResult.saved ar + AuthorResult.already_exists ar
     <= AuthorResult.fetched ar.

(** The results after the sub-summaries [ars] were added to [r0]. *)
Definition results_plus (r0 : Results.t) (ars : list AuthorResult.t) : Results.t :=
  Results.mk (Results.authors r0 ++ ars)
    (Results.total_fetched r0 + sum_of AuthorResult.fetched ars)
    (Results.total_saved r0 + sum_of AuthorResult.saved ars)
    (Results.total_already_exists r0 + sum_of AuthorResult.already_exists ars)
    (Results.articles_saved r0 ++ List.concat (List.map tagged_articles ars)).

(** Every INSERT of a trace comes right after the COUNT query of the
    identifier it inserts, and is well formed. *)
Definition inserts_checked (tr : list event) : Prop :=
  forall (pre : list event) (vals : list value) (post : list event),
    tr = pre ++ EvInsert vals :: post ->
    exists (pre' : list event) (id : value) (rest : list value),
      pre = pre' ++ [EvSelectCount id]
      /\ vals = id :: rest
      /\ insert_well_formed vals = true.

(** ** Author names *)

(** No comma in [s]. *)
Definition no_comma (s : jsstring) : bool := forallb (fun c => negb (c =? 44)%N) s.

(** A name of the list the handler works on: not empty, no white space at
    its ends, no comma. *)
Definition name_ok (a : jsstring) : Prop :=
  a <> [] /\ starts_clean a = true /\ ends_clean a = true /\ no_comma a = true.

(** A COUNT query that finds every identifier stored. *)
Definition all_stored_count (w : Scenario.World) (id : value)
  : res Z * Scenario.World := (Ok 1%Z, w).

(** A search that finds nothing for the one name it knows. *)
Definition no_results_world : Scenario.World :=
  Scenario.mkWorld [ (Scenario.author_query "Ann", Scenario.page []) ] [] 10 [].

(** ** Values whose conversion to a string throws *)

(** An object with an own [toString] that is not callable. *)
Definition unprintable : value := VObj [("toString", VNum 1)].

(** A candidate stored already whose title is [unprintable], and the record
    parsed from it. *)
Definition unprintable_item : value :=
  VObj [("result_id", VStr (js "a2")); ("title", unprintable)].

Definition unprintable_pub : publication :=
  mkPublication (VStr (js "a2")) unprintable VNull VNull VNull VNull VNull
    (VNum 0) VNull VNull VNull VNull.

(** The search for the first author returns that candidate, then a new
    one. *)
Definition unprintable_title_world : Scenario.World :=
  Scenario.mkWorld
    [ (Scenario.author_query "Ann",
       Scenario.page [unprintable_item; Scenario.item "a3" "T3"]) ]
    [js "a2"] 10 [].

(** A candidate whose identifier is [unprintable], the record parsed from
    it, and a table that rejects every insert of a value that is not a
    string with the duplicate-entry error. *)
Definition unprintable_id_pub : publication :=
  mkPublication unprintable (VStr (js "T1")) VNull VNull VNull VNull VNull
    (VNum 0) VNull VNull VNull VNull.

Definition duplicate_object_error : jserror :=
  ErrObj (mkError (js "Duplicate entry '[object Object]' for key 'articles.google_scholar_id'")
            (Some (js "ER_DUP_ENTRY")) None None).

Definition rejecting_insert (w : Scenario.World) (values : list value)
  : res value * Scenario.World :=
  match values with
  | VStr _ :: _ => Scenario.pool_insert w values
  | _ => (Throw duplicate_object_error, w)
  end.

(** A [file_format] that is there and is not a string: its [toUpperCase]
    is not a function. *)
Definition format_not_string (v : value) : bool :=
  match v with
  | VStr _ | VUndefined | VNull => false
  | _ => true
  end.

(** ** The per-author procedure in terms of the oracles

    Steps 3 to 5 of the orchestrator's algorithm, told by what the storage
    answers: what the persistence step makes of the valid candidates, and
    the sub-summary and the events of a pass whose search returned
    results. *)
Section Procedure.
Variable typeErrorMessage : type_error -> jsstring.
Variable World : Type.
Variable pool_insert : World -> list value -> res value * World.
Variable pool_count : World -> value -> res Z * World.

(** What the persistence step leaves: the storage operations in their
    order, the world after them, the references of the records newly saved,
    the number of candidates counted as existing, and the exception that
    ended the step, if any. *)
Record persisted := mkPersisted {
  storage_events : list event;
  world_after : World;
  saved_refs : list article_ref;
  existing : nat;
  failure : option jserror
}.

Definition stopped (w : World) : persisted := mkPersisted [] w [] 0 None.

Definition failed (evs : list event) (w : World) (e : jserror) : persisted :=
  mkPersisted evs w [] 0 (Some e).

Definition after_events (evs : list event) (o : persisted) : persisted :=
  mkPersisted (evs ++ storage_events o) (world_after o) (saved_refs o)
    (existing o) (failure o).

Definition with_saved (r : article_ref) (o : persisted) : persisted :=
  mkPersisted (storage_events o) (world_after o) (r :: saved_refs o)
    (existing o) (failure o).

Definition with_existing (o : persisted) : persisted :=
  mkPersisted (storage_events o) (world_after o) (saved_refs o)
    (S (existing o)) (failure o).

(** The exception of a rejected insert as the orchestrator receives it: for
    the duplicate-entry code, an error that names the identifier, or the
    exception of the conversion of the identifier to a string; the error of
    the storage otherwise. *)
Definition insert_exception (id : value) (err : jserror) : jserror :=
  match code_of err with
  | Some c =>
      if jsstring_eqb c (js "ER_DUP_ENTRY") then
        match ToString id with
        | Ok shown =>
            newError (js "Article with google_scholar_id '" ++ shown
                      ++ js "' already exists")
        | Throw te => te
        end
      else err
  | None => err
  end.

(** Step 4, from the world [w], for the candidates left and the number of
    records saved so far for the author. *)
Inductive persists : World -> list publication -> nat -> persisted -> Prop :=
| persists_done (w : World) (n : nat) :
    persists w [] n (stopped w)
| persists_cap (w : World) (a : publication) (rest : list publication) (n : nat) :
    3 <= n ->
    persists w (a :: rest) n (stopped w)
| persists_check_fails (w w1 : World) (a : publication)
    (rest : list publication) (n : nat) (e : jserror) :
    n < 3 ->
    pool_count w (google_scholar_id a) = (Throw e, w1) ->
    persists w (a :: rest) n (failed [EvSelectCount (google_scholar_id a)] w1 e)
| persists_exists (w w1 : World) (a : publication) (rest : list publication)
    (n : nat) (count : Z) (shown : jsstring) (o : persisted) :
    n < 3 ->
    pool_count w (google_scholar_id a) = (Ok count, w1) ->
    (0 < count)%Z ->
    ToString (title a) = Ok shown ->
    persists w1 rest n o ->
    persists w (a :: rest) n
      (after_events [EvSelectCount (google_scholar_id a)] (with_existing o))
| persists_exists_unshown (w w1 : World) (a : publication)
    (rest : list publication) (n : nat) (count : Z) (e : jserror) :
    n < 3 ->
    pool_count w (google_scholar_id a) = (Ok count, w1) ->
    (0 < count)%Z ->
    ToString (title a) = Throw e ->
    persists w (a :: rest) n (failed [EvSelectCount (google_scholar_id a)] w1 e)
| persists_sanitize_fails (w w1 : World) (a : publication)
    (rest : list publication) (n : nat) (count : Z) (e : jserror) :
    n < 3 ->
    pool_count w (google_scholar_id a) = (Ok count, w1) ->
    (count <= 0)%Z ->
    AuthorArticleController.dbArticle_of a = Throw e ->
    persists w (a :: rest) n (failed [EvSelectCount (google_scholar_id a)] w1 e)
| persists_saved (w w1 w2 : World) (a : publication) (rest : list publication)
    (n : nat) (count : Z) (db : DbArticle.t) (id : value) (o : persisted) :
    n < 3 ->
    pool_count w (google_scholar_id a) = (Ok count, w1) ->
    (count <= 0)%Z ->
    AuthorArticleController.dbArticle_of a = Ok db ->
    pool_insert w1 (ArticleModel.insert_values db) = (Ok id, w2) ->
    persists w2 rest (S n) o ->
    persists w (a :: rest) n
      (after_events
         [EvSelectCount (google_scholar_id a);
          EvInsert (ArticleModel.insert_values db)]
         (with_saved
            (mkArticleRef id (DbArticle.google_scholar_id db)
               (DbArticle.paper_title db) (DbArticle.citation_count db))
            o))
| persists_rejected (w w1 w2 : World) (a : publication)
    (rest : list publication) (n : nat) (count : Z) (db : DbArticle.t)
    (err : jserror) (o : persisted) :
    n < 3 ->
    pool_count w (google_scholar_id a) = (Ok count, w1) ->
    (count <= 0)%Z ->
    AuthorArticleController.dbArticle_of a = Ok db ->
    pool_insert w1 (ArticleModel.insert_values db) = (Throw err, w2) ->
    persists w2 rest n o ->
    persists w (a :: rest) n
      (after_events
         [EvSelectCount (google_scholar_id a);
          EvInsert (ArticleModel.insert_values db)]
         (if includes (js "already exists")
               (message_of typeErrorMessage
                  (insert_exception (DbArticle.google_scholar_id db) err))
          then with_existing o else o)).

(** The records of a parsed page that have a title and an identifier. *)
Definition valid_records (ps : list publication) : list publication :=
  List.filter (fun p => truthy (title p) && truthy (google_scholar_id p)) ps.

(** The sub-summary of an author with [fetched] valid records after the
    persistence step. *)
Definition sub_summary (name : jsstring) (fetched : nat) (o : persisted)
  : AuthorResult.t :=
  AuthorResult.mk name fetched (List.length (saved_refs o)) (existing o)
    (saved_refs o)
    (match failure o with
     | Some e => Some (message_of typeErrorMessage e)
     | None => None
     end).

(** Step 5: the pause after an author whose pass raised no exception and
    whose name stands, at its first occurrence, before the last place of
    the list. *)
Definition pause_after (authorList : list jsstring) (name : jsstring)
    (o : persisted) : list event :=
  match failure o with
  | Some _ => []
  | None =>
      if (AuthorArticleController.indexOf authorList name
          <? Z.of_nat (List.length authorList) - 1)%Z
      then [EvDelay 2000]
      else []
  end.
End Procedure.

Arguments mkPersisted {World} storage_events world_after saved_refs existing failure.
Arguments storage_events {World} p.
Arguments world_after {World} p.
Arguments saved_refs {World} p.
Arguments existing {World} p.
Arguments failure {World} p.
Arguments stopped {World} w.
Arguments failed {World} evs w e.
Arguments after_events {World} evs o.
Arguments with_saved {World} r o.
Arguments with_existing {World} o.
Arguments sub_summary typeErrorMessage {World} name fetched o.
Arguments pause_after {World} authorList name o.

(** The state of the inner loop once the persistence step [o] has run from
    the state [l]: the counters and the lists of the author and of the run
    moved by what [o] holds, the world and the trace after its
    operations. *)
Definition loop_after {World : Type} (name : jsstring)
    (l : AuthorArticleController.loop_state World) (o : persisted World)
  : AuthorArticleController.loop_state World :=
  let ar := AuthorArticleController.authorResult l in
  let rs := AuthorArticleController.results l in
  AuthorArticleController.mkLoop
    (AuthorResult.mk (AuthorResult.author ar) (AuthorResult.fetched ar)
       (AuthorResult.saved ar + List.length (saved_refs o))
       (AuthorResult.already_exists ar + existing o)
       (AuthorResult.articles ar ++ saved_refs o)
       (AuthorResult.error ar))
    (Results.mk (Results.authors rs) (Results.total_fetched rs)
       (Results.total_saved rs + List.length (saved_refs o))
       (Results.total_already_exists rs + existing o)
       (Results.articles_saved rs ++ List.map (tag name) (saved_refs o)))
    (mkState (world_after o)
       (trace (AuthorArticleController.st l) ++ storage_events o)).

(** The title, the identifier and the citation count of the record parsed
    from a raw item. *)
Definition parsed_from (item : value) (p : publication) : Prop :=
  title p = or_else (getprop item "title") VNull
  /\ google_scholar_id p = or_else (getprop item "result_id") VNull
  /\ citation_count p
     = or_else (opt_get (opt_get (getprop item "inline_links") "cited_by")
                  "total") (VNum 0).

(* ================================================================== *)
(** * Properties *)
(* ================================================================== *)

Unset Implicit Arguments.

(* ================================================================== *)
(** * Strings: basic facts *)
(* ================================================================== *)

Lemma is_ws_space : Char.is_ws Char.space = true.
Proof. reflexivity. Qed.

Lemma trimStart_clean s : starts_clean (trimStart s) = true.
Proof.
  induction s as [|c s IH]; simpl; auto.
  destruct (Char.is_ws c) eqn:E; auto. simpl. now rewrite E.
Qed.

Lemma trimStart_id s : starts_clean s = true -> trimStart s = s.
Proof.
  destruct s as [|c s]; simpl; auto.
  destruct (Char.is_ws c); simpl; congruence.
Qed.

Lemma trimStart_app_nonws s c t :
  Char.is_ws c = false -> trimStart (s ++ c :: t) = trimStart s ++ c :: t.
Proof.
  intros Hc. induction s as [|a s IH]; simpl.
  - now rewrite Hc.
  - destruct (Char.is_ws a); auto.
Qed.

Lemma trimStart_all_ws s : forallb Char.is_ws s = true -> trimStart s = [].
Proof.
  induction s as [|a s IH]; simpl; auto.
  destruct (Char.is_ws a); simpl; auto. discriminate.
Qed.

Lemma trimStart_app_ws s t :
  forallb Char.is_ws s = true -> trimStart (s ++ t) = trimStart t.
Proof.
  induction s as [|a s IH]; simpl; auto.
  destruct (Char.is_ws a); simpl; auto. discriminate.
Qed.

Lemma trimStart_split s :
  exists l, s = l ++ trimStart s /\ forallb Char.is_ws l = true.
Proof.
  induction s as [|a s [l [H1 H2]]]; simpl.
  - exists []. auto.
  - destruct (Char.is_ws a) eqn:Ea.
    + exists (a :: l). simpl. rewrite Ea, H2. split; [now rewrite <- H1|reflexivity].
    + exists []. auto.
Qed.

(** [trimEnd] by recursion from the front. *)
Lemma trimEnd_cons c s :
  trimEnd (c :: s) =
  match trimEnd s with
  | [] => if Char.is_ws c then [] else [c]
  | t => c :: t
  end.
Proof.
  unfold trimEnd. simpl rev.
  destruct (trimStart_split (rev s)) as [l [H1 H2]].
  destruct (trimStart (rev s)) as [|x t] eqn:E.
  - rewrite app_nil_r in H1. rewrite H1.
    rewrite trimStart_app_ws by exact H2. simpl.
    destruct (Char.is_ws c); reflexivity.
  - assert (Hx : Char.is_ws x = false).
    { pose proof (trimStart_clean (rev s)) as Hc. rewrite E in Hc. simpl in Hc.
      now destruct (Char.is_ws x). }
    rewrite H1, <- app_assoc. simpl app.
    rewrite trimStart_app_ws by exact H2.
    simpl. rewrite Hx. simpl. rewrite rev_app_distr. simpl.
    destruct (rev t ++ [x]) eqn:E2; [destruct (rev t); discriminate|].
    reflexivity.
Qed.

Lemma trimEnd_clean s : ends_clean (trimEnd s) = true.
Proof.
  unfold ends_clean, trimEnd. rewrite rev_involutive. apply trimStart_clean.
Qed.

Lemma trimEnd_id s : ends_clean s = true -> trimEnd s = s.
Proof.
  unfold ends_clean, trimEnd. intros H. rewrite trimStart_id by exact H.
  apply rev_involutive.
Qed.

Lemma trimEnd_starts_clean s : starts_clean s = true -> starts_clean (trimEnd s) = true.
Proof.
  destruct s as [|c s]; auto. rewrite trimEnd_cons. simpl.
  destruct (Char.is_ws c) eqn:E; [discriminate|]. intros _.
  destruct (trimEnd s); simpl; now rewrite E.
Qed.

Lemma trim_clean s : starts_clean (trim s) = true /\ ends_clean (trim s) = true.
Proof.
  unfold trim. split.
  - apply trimEnd_starts_clean, trimStart_clean.
  - apply trimEnd_clean.
Qed.

Lemma trim_id s : starts_clean s = true -> ends_clean s = true -> trim s = s.
Proof.
  intros H1 H2. unfold trim. rewrite trimStart_id by exact H1. now apply trimEnd_id.
Qed.

(* ================================================================== *)
(** * White-space collapsing and the words of a string *)
(* ================================================================== *)


Lemma words_ok s : Forall word_ok (words s).
Proof.
  induction s as [|c s IH]; simpl; [constructor|].
  destruct (Char.is_ws c) eqn:Ec; auto.
  destruct (starts_ws_or_ends s).
  - constructor; auto. split; [discriminate|]. simpl. now rewrite Ec.
  - destruct (words s) as [|w ws]; simpl.
    + constructor; auto. split; [discriminate|]. simpl. now rewrite Ec.
    + inversion IH as [|? ? [Hw1 Hw2] Hws]; subst.
      constructor; auto. split; [discriminate|]. simpl. now rewrite Ec.
Qed.

Lemma words_starts_nonws c s :
  Char.is_ws c = false -> words (c :: s) <> [].
Proof.
  intros Hc. simpl. rewrite Hc.
  destruct (starts_ws_or_ends s); [discriminate|].
  destruct (words s); discriminate.
Qed.

Lemma unwords_cons w ws :
  unwords (w :: ws) = match ws with [] => w | _ => w ++ Char.space :: unwords ws end.
Proof. destruct ws; reflexivity. Qed.

Lemma unwords_nil_inv ws : Forall word_ok ws -> unwords ws = [] -> ws = [].
Proof.
  intros H. destruct ws as [|w ws]; auto.
  inversion H as [|? ? [Hw _] _]; subst.
  rewrite unwords_cons. destruct w; [congruence|]. destruct ws; discriminate.
Qed.

Lemma unwords_add_head c ws :
  ws <> [] -> unwords (add_head c ws) = c :: unwords ws.
Proof.
  destruct ws as [|w ws]; [congruence|]. intros _. simpl add_head.
  rewrite !unwords_cons. destruct ws; reflexivity.
Qed.

Lemma collapse_true_clean s : starts_clean (collapse_go true s) = true.
Proof.
  induction s as [|c s IH]; simpl; auto.
  destruct (Char.is_ws c) eqn:Ec; auto. simpl. now rewrite Ec.
Qed.

Lemma trimStart_collapse s : trimStart (collapse_go false s) = collapse_go true s.
Proof.
  destruct s as [|c s]; simpl; auto.
  destruct (Char.is_ws c) eqn:Ec; simpl.
  - apply trimStart_id, collapse_true_clean.
  - now rewrite Ec.
Qed.


Lemma trimEnd_collapse s :
  trimEnd (collapse_go true s) = unwords (words s)
  /\ trimEnd (collapse_go false s) =
     if starts_ws s then
       match words s with [] => [] | _ => Char.space :: unwords (words s) end
     else unwords (words s).
Proof.
  induction s as [|c s [IHt IHf]]; [split; reflexivity|].
  simpl collapse_go. simpl words. simpl starts_ws.
  destruct (Char.is_ws c) eqn:Ec.
  - split; [exact IHt|].
    rewrite trimEnd_cons, IHt, is_ws_space.
    destruct (words s) as [|w ws] eqn:Ew; [reflexivity|].
    destruct (unwords (w :: ws)) eqn:Eu; [|reflexivity].
    apply unwords_nil_inv in Eu; [discriminate|].
    rewrite <- Ew. apply words_ok.
  - assert (H : trimEnd (c :: collapse_go false s) =
                unwords (if starts_ws_or_ends s then [c] :: words s
                         else add_head c (words s))).
    { rewrite trimEnd_cons, IHf, Ec.
      destruct s as [|c' s']; [reflexivity|].
      simpl starts_ws. simpl starts_ws_or_ends.
      destruct (Char.is_ws c') eqn:Ec'.
      - rewrite unwords_cons. destruct (words (c' :: s')); reflexivity.
      - pose proof (words_starts_nonws c' s' Ec') as Hne.
        rewrite unwords_add_head by exact Hne.
        destruct (unwords (words (c' :: s'))) eqn:Eu; [|reflexivity].
        apply unwords_nil_inv in Eu; [contradiction|apply words_ok]. }
    split; exact H.
Qed.

(** Collapsing the white-space runs and trimming leaves the words, joined
    by single spaces. *)
Lemma trim_collapse_words s : trim (collapse_ws s) = unwords (words s).
Proof.
  unfold trim, collapse_ws. rewrite trimStart_collapse.
  apply trimEnd_collapse.
Qed.

Lemma words_all_ws s : forallb Char.is_ws s = true -> words s = [].
Proof.
  induction s as [|c s IH]; simpl; auto.
  destruct (Char.is_ws c); simpl; auto. discriminate.
Qed.

Lemma no_ws_pair_word w rest :
  forallb (fun c => negb (Char.is_ws c)) w = true ->
  no_ws_pair rest = true ->
  no_ws_pair (w ++ rest) = true.
Proof.
  induction w as [|c w IH]; simpl; auto.
  destruct (negb (Char.is_ws c)) eqn:Ec; simpl; [|discriminate].
  intros Hw Hr. specialize (IH Hw Hr).
  destruct (w ++ rest) eqn:E; auto.
  rewrite IH. apply negb_true_iff in Ec. now rewrite Ec.
Qed.

Lemma unwords_starts_clean ws : Forall word_ok ws -> starts_clean (unwords ws) = true.
Proof.
  intros H. destruct ws as [|w ws]; auto.
  inversion H as [|? ? [Hw1 Hw2] _]; subst.
  rewrite unwords_cons. destruct w as [|c w]; [congruence|].
  simpl in Hw2. apply andb_true_iff in Hw2 as [Hc _].
  destruct ws; simpl; exact Hc.
Qed.

Lemma unwords_no_ws_pair ws : Forall word_ok ws -> no_ws_pair (unwords ws) = true.
Proof.
  induction 1 as [|w ws [Hw1 Hw2] Hws IH]; auto.
  rewrite unwords_cons. destruct ws as [|w' ws'].
  - rewrite <- (app_nil_r w). now apply no_ws_pair_word.
  - apply no_ws_pair_word; auto.
    pose proof (unwords_starts_clean _ Hws) as Hs.
    destruct (unwords (w' :: ws')) as [|c r] eqn:E; auto.
    change (no_ws_pair (Char.space :: c :: r)) with
      (negb (Char.is_ws Char.space && Char.is_ws c) && no_ws_pair (c :: r)).
    rewrite IH. simpl in Hs. apply negb_true_iff in Hs. rewrite Hs.
    now rewrite andb_false_r.
Qed.

(* ================================================================== *)
(** * sanitizeString *)
(* ================================================================== *)

(** C10. [sanitizeString] returns null for an absent ([undefined], [null])
    or empty string.  For a non-empty string it returns a string: the words
    of the input joined by single spaces, that is the input with every
    maximal white-space run replaced by one space and the white space at
    both ends removed; an input of white space only gives the empty string;
    the output neither starts nor ends with white space and has no two
    consecutive white-space code units. *)
Theorem sanitizeString_spec :
  ParserService.sanitizeString VUndefined = Ok VNull
  /\ ParserService.sanitizeString VNull = Ok VNull
  /\ ParserService.sanitizeString (VStr []) = Ok VNull
  /\ forall s : jsstring, s <> [] ->
       exists out : jsstring,
         ParserService.sanitizeString (VStr s) = Ok (VStr out)
         /\ out = trim (collapse_ws s)
         /\ out = unwords (words s)
         /\ (forallb Char.is_ws s = true -> out = [])
         /\ starts_clean out = true
         /\ ends_clean out = true
         /\ no_ws_pair out = true.
Proof.
  repeat split; try reflexivity.
  intros s Hs. exists (trim (collapse_ws s)).
  split.
  { destruct s; [congruence|reflexivity]. }
  split; [reflexivity|].
  split; [apply trim_collapse_words|].
  split.
  { intros Hall. rewrite trim_collapse_words, words_all_ws by exact Hall.
    reflexivity. }
  split; [apply trim_clean|].
  split; [apply trim_clean|].
  rewrite trim_collapse_words. apply unwords_no_ws_pair, words_ok.
Qed.

(** The statement at a title with tabs, a line break and several spaces. *)
Lemma sanitizeString_spec_witness :
  js "  Deep" ++ [9; 10]%N ++ js "learning   survey " <> []
  /\ exists out : jsstring,
       ParserService.sanitizeString
         (VStr (js "  Deep" ++ [9; 10]%N ++ js "learning   survey ")) = Ok (VStr out)
       /\ out = trim (collapse_ws (js "  Deep" ++ [9; 10]%N ++ js "learning   survey "))
       /\ out = unwords (words (js "  Deep" ++ [9; 10]%N ++ js "learning   survey "))
       /\ (forallb Char.is_ws (js "  Deep" ++ [9; 10]%N ++ js "learning   survey ") = true
           -> out = [])
       /\ starts_clean out = true
       /\ ends_clean out = true
       /\ no_ws_pair out = true.
Proof.
  split; [discriminate|].
  apply (proj2 (proj2 (proj2 sanitizeString_spec))). discriminate.
Defined.

Example sanitizeString_title :
  ParserService.sanitizeString
    (VStr (js "  Deep" ++ [9; 10]%N ++ js "learning   survey "))
  = Ok (VStr (js "Deep learning survey")).
Proof. reflexivity. Qed.

Example sanitizeString_blank :
  ParserService.sanitizeString (VStr (js "   ")) = Ok (VStr []).
Proof. reflexivity. Qed.

(* ================================================================== *)
(** * The record parser *)
(* ================================================================== *)

Lemma bind_Ok_inv {A B} (m : res A) (k : A -> res B) (b : B) :
  bind m k = Ok b -> exists a, m = Ok a /\ k a = Ok b.
Proof. destruct m as [a|e]; simpl; [eauto|discriminate]. Qed.

Lemma parsePublicationInfo_falsy (summary : value) :
  truthy summary = false ->
  ParserService.parsePublicationInfo summary
  = Ok (PubInfo.mk VNull VNull VNull VNull).
Proof.
  intros H. unfold ParserService.parsePublicationInfo. now rewrite H.
Qed.

Lemma parsePublicationInfo_string (s : jsstring) :
  exists pi, ParserService.parsePublicationInfo (VStr s) = Ok pi.
Proof.
  unfold ParserService.parsePublicationInfo.
  destruct (negb (truthy (VStr s))); [eauto|].
  simpl. destruct (ParserService.journal_year _). eauto.
Qed.

Lemma find_ok (items : list value) :
  forallb resource_ok items = true ->
  exists r, ParserService.find items = Ok r.
Proof.
  induction items as [|x items IH]; simpl; [eauto|].
  intros H. apply andb_true_iff in H as [Hx Hitems].
  unfold resource_ok in Hx. apply andb_true_iff in Hx as [Hn Hff].
  unfold ParserService.is_pdf_resource, get.
  apply negb_true_iff in Hn. rewrite Hn. simpl.
  destruct (getprop x "file_format"); try discriminate; simpl; auto.
  destruct (jsstring_eqb _ _); eauto.
Qed.

Lemma extractPdfUrl_ok (result : value) :
  resources_ok result = true ->
  exists v, ParserService.extractPdfUrl (getprop result "resources") = Ok v.
Proof.
  unfold resources_ok, ParserService.extractPdfUrl.
  destruct (getprop result "resources"); eauto.
  intros H. destruct (find_ok _ H) as [r Hr]. rewrite Hr. simpl. eauto.
Qed.

(** The fields of a record that was returned, in terms of the item. *)
Lemma parseOrganicResult_inv (result : value) (p : publication) :
  ParserService.parseOrganicResult result = Ok p ->
  nullish result = false
  /\ exists publicationInfo,
       (if truthy (getprop result "publication_info")
        then ParserService.parsePublicationInfo
               (getprop (getprop result "publication_info") "summary")
        else Ok PubInfo.empty) = Ok publicationInfo
       /\ authors p = or_else (PubInfo.authors publicationInfo) VNull
       /\ journal p = or_else (PubInfo.journal publicationInfo) VNull
       /\ publication_year p = or_else (PubInfo.year publicationInfo) VNull
       /\ publisher p = or_else (PubInfo.publisher publicationInfo) VNull
       /\ citation_count p =
          or_else (opt_get (opt_get (getprop result "inline_links") "cited_by")
                     "total") (VNum 0)
       /\ title p = or_else (getprop result "title") VNull
       /\ google_scholar_id p = or_else (getprop result "result_id") VNull.
Proof.
  unfold ParserService.parseOrganicResult, get. intros H.
  destruct (nullish result) eqn:En; [discriminate|]. split; [reflexivity|].
  simpl in H.
  apply bind_Ok_inv in H as [publicationInfo [Hpi H]].
  apply bind_Ok_inv in H as [pdf [Hpdf H]].
  exists publicationInfo. split; [exact Hpi|].
  inversion H; subst; simpl. repeat split; reflexivity.
Qed.

(** A page that parses gives one record per item, in the order of the
    items. *)
Lemma parseOrganicResults_records (items : list value) :
  forall ps : list publication,
    ParserService.parseOrganicResults (VArr items) = Ok ps ->
    Forall2 parsed_from items ps.
Proof.
  unfold ParserService.parseOrganicResults.
  induction items as [|item items IH]; intros ps H.
  - simpl in H. inversion H. constructor.
  - simpl in H. apply bind_Ok_inv in H as [p [Hp H]].
    apply bind_Ok_inv in H as [ps' [Hps H]]. inversion H; subst.
    constructor; [|now apply IH].
    apply parseOrganicResult_inv in Hp as [_ [pi [_ Hf]]].
    destruct Hf as (_ & _ & _ & _ & Hc & Ht & Hi).
    unfold parsed_from. auto.
Qed.

(** C8 as stated fails: an item whose summary is a number makes the parser
    throw a [TypeError]. *)
Lemma parseOrganicResult_throws :
  ParserService.parseOrganicResult
    (VObj [("result_id", VStr (js "abc")); ("title", VStr (js "A title"));
           ("publication_info", VObj [("summary", VNum 42)])])
  = Throw (TypeError (NotAFunction "summary.split"))
  /\ forall p : publication,
       ParserService.parseOrganicResult
         (VObj [("result_id", VStr (js "abc")); ("title", VStr (js "A title"));
                ("publication_info", VObj [("summary", VNum 42)])])
       <> Ok p.
Proof. split; [reflexivity|]. intros p H. discriminate H. Qed.

(** C8, amended.  For every raw result item that is not null, whose
    publication-info summary is a string or falsy, and whose resources, when
    an array, hold only non-null entries with a string or absent
    [file_format], the parser returns a record; and when the summary is
    absent or empty, the four derived fields of the record (authors,
    journal, publication year, publisher) are null. *)
Theorem parseOrganicResult_total (result : value) :
  well_formed_item result = true ->
  exists p : publication,
    ParserService.parseOrganicResult result = Ok p
    /\ (summary_absent result = true ->
        authors p = VNull /\ journal p = VNull
        /\ publication_year p = VNull /\ publisher p = VNull).
Proof.
  unfold well_formed_item. intros H.
  apply andb_true_iff in H as [H Hres]. apply andb_true_iff in H as [Hn Hsum].
  apply negb_true_iff in Hn.
  assert (Hpi : exists pi,
             (if truthy (getprop result "publication_info")
              then ParserService.parsePublicationInfo
                     (getprop (getprop result "publication_info") "summary")
              else Ok PubInfo.empty) = Ok pi
             /\ (summary_absent result = true ->
                 or_else (PubInfo.authors pi) VNull = VNull
                 /\ or_else (PubInfo.journal pi) VNull = VNull
                 /\ or_else (PubInfo.year pi) VNull = VNull
                 /\ or_else (PubInfo.publisher pi) VNull = VNull)).
  { unfold summary_ok in Hsum. unfold summary_absent.
    destruct (truthy (getprop result "publication_info")) eqn:Et.
    - simpl.
      destruct (truthy (getprop (getprop result "publication_info") "summary")) eqn:Es.
      + assert (Hstr : exists s0,
                   getprop (getprop result "publication_info") "summary" = VStr s0).
        { destruct (getprop (getprop result "publication_info") "summary")
            as [| |b|n|s0|l|f|g]; eauto; cbv beta iota in Hsum;
            rewrite Es in Hsum; discriminate. }
        destruct Hstr as [s0 Hs0]. rewrite Hs0.
        destruct (parsePublicationInfo_string s0) as [pi Hpi].
        exists pi. split; [exact Hpi|]. discriminate.
      + rewrite parsePublicationInfo_falsy by exact Es.
        eexists. split; [reflexivity|]. intros _. simpl. auto.
    - eexists. split; [reflexivity|]. intros _. simpl. auto. }
  destruct Hpi as [pi [Hpi Habs]].
  destruct (extractPdfUrl_ok _ Hres) as [pdf Hpdf].
  unfold ParserService.parseOrganicResult, get. rewrite Hn. simpl.
  rewrite Hpi. simpl. rewrite Hpdf. simpl.
  eexists. split; [reflexivity|]. simpl. exact Habs.
Qed.

Lemma parseOrganicResult_total_witness :
  exists p : publication,
    ParserService.parseOrganicResult
      (VObj [("result_id", VStr (js "abc")); ("title", VStr (js "A title"));
             ("publication_info", VObj [("summary", VStr [])]);
             ("resources", VArr [VObj [("file_format", VStr (js "pdf"));
                                       ("link", VStr (js "http://x/y.pdf"))]])])
    = Ok p
    /\ (summary_absent
          (VObj [("result_id", VStr (js "abc")); ("title", VStr (js "A title"));
                 ("publication_info", VObj [("summary", VStr [])]);
                 ("resources", VArr [VObj [("file_format", VStr (js "pdf"));
                                           ("link", VStr (js "http://x/y.pdf"))]])])
        = true ->
        authors p = VNull /\ journal p = VNull
        /\ publication_year p = VNull /\ publisher p = VNull).
Proof.
  apply (parseOrganicResult_total
           (VObj [("result_id", VStr (js "abc")); ("title", VStr (js "A title"));
                  ("publication_info", VObj [("summary", VStr [])]);
                  ("resources", VArr [VObj [("file_format", VStr (js "pdf"));
                                            ("link", VStr (js "http://x/y.pdf"))]])])).
  reflexivity.
Defined.

(** C9 as stated fails: the count the source reports is copied as it is, a
    negative one too. *)
Lemma citation_count_negative :
  exists p : publication,
    ParserService.parseOrganicResult
      (VObj [("result_id", VStr (js "abc")); ("title", VStr (js "A title"));
             ("inline_links", VObj [("cited_by", VObj [("total", VNum (-7))])])])
    = Ok p
    /\ citation_count p = VNum (-7)
    /\ is_nonneg_int (citation_count p) = false.
Proof. eexists. split; [reflexivity|]. split; reflexivity. Qed.

(** C9, amended.  The citation count of a parsed record is 0 whenever the
    source's nested citation-count field is missing (at any level) or falsy,
    and is the source's value otherwise; so it is a non-negative integer
    whenever the source's field is missing or is itself a non-negative
    integer. *)
Theorem citation_count_spec (result : value) (p : publication) :
  ParserService.parseOrganicResult result = Ok p ->
  (total_missing result = true -> citation_count p = VNum 0)
  /\ (total_missing result = false ->
      citation_count p =
      if truthy (source_total result) then source_total result else VNum 0)
  /\ (total_missing result = true \/ is_nonneg_int (source_total result) = true ->
      is_nonneg_int (citation_count p) = true).
Proof.
  intros H. apply parseOrganicResult_inv in H as [_ [pi [_ H]]].
  destruct H as (_ & _ & _ & _ & Hc & _). rewrite Hc. clear Hc.
  unfold total_missing, source_total, opt_get, or_else.
  destruct (nullish (getprop result "inline_links")) eqn:E1; simpl.
  { split; [reflexivity|]. split; [discriminate|]. reflexivity. }
  destruct (nullish (getprop (getprop result "inline_links") "cited_by")) eqn:E2; simpl.
  { split; [reflexivity|]. split; [discriminate|]. reflexivity. }
  destruct (getprop (getprop (getprop result "inline_links") "cited_by") "total")
    as [| |b|n|s|l|f|g] eqn:E3; simpl;
    (split; [try reflexivity; try discriminate|
             split; [try reflexivity; try discriminate|]]);
    try (intros [HH|HH]; discriminate HH).
  - reflexivity.
  - reflexivity.
  - intros [HH|HH]; [discriminate|]. destruct (n =? 0)%Z; simpl; auto.
Qed.

Lemma citation_count_spec_witness :
  (total_missing (VObj [("result_id", VStr (js "abc")); ("title", VStr (js "T"));
                        ("inline_links", VObj [("versions", VObj [])])]) = true ->
   citation_count
     (mkPublication (VStr (js "abc")) (VStr (js "T")) VNull VNull VNull VNull
        VNull (VNum 0) VNull VNull VNull VNull) = VNum 0)
  /\ (total_missing (VObj [("result_id", VStr (js "abc")); ("title", VStr (js "T"));
                           ("inline_links", VObj [("versions", VObj [])])]) = false ->
      citation_count
        (mkPublication (VStr (js "abc")) (VStr (js "T")) VNull VNull VNull VNull
           VNull (VNum 0) VNull VNull VNull VNull) =
      if truthy (source_total
                   (VObj [("result_id", VStr (js "abc")); ("title", VStr (js "T"));
                          ("inline_links", VObj [("versions", VObj [])])]))
      then source_total
             (VObj [("result_id", VStr (js "abc")); ("title", VStr (js "T"));
                    ("inline_links", VObj [("versions", VObj [])])])
      else VNum 0)
  /\ (total_missing (VObj [("result_id", VStr (js "abc")); ("title", VStr (js "T"));
                           ("inline_links", VObj [("versions", VObj [])])]) = true
      \/ is_nonneg_int
           (source_total
              (VObj [("result_id", VStr (js "abc")); ("title", VStr (js "T"));
                     ("inline_links", VObj [("versions", VObj [])])])) = true ->
      is_nonneg_int
        (citation_count
           (mkPublication (VStr (js "abc")) (VStr (js "T")) VNull VNull VNull VNull
              VNull (VNum 0) VNull VNull VNull VNull)) = true).
Proof.
  apply (citation_count_spec
           (VObj [("result_id", VStr (js "abc")); ("title", VStr (js "T"));
                  ("inline_links", VObj [("versions", VObj [])])])).
  reflexivity.
Defined.

(* ================================================================== *)
(** * The controller: the inner loop *)
(* ================================================================== *)

Section ControllerLoop.
Variable typeErrorMessage : type_error -> jsstring.
Variable World : Type.
Variable axios_get : World -> jsstring -> Z -> res value * World.
Variable pool_insert : World -> list value -> res value * World.
Variable pool_count : World -> value -> res Z * World.

Local Abbreviation saveLoop :=
  (AuthorArticleController.saveLoop typeErrorMessage pool_insert pool_count).
Local Abbreviation processAuthor :=
  (AuthorArticleController.processAuthor typeErrorMessage axios_get
     pool_insert pool_count).
Local Abbreviation authorLoop :=
  (AuthorArticleController.authorLoop typeErrorMessage axios_get
     pool_insert pool_count).
Local Abbreviation loop_state := (AuthorArticleController.loop_state World).
Local Abbreviation authorResult := (@AuthorArticleController.authorResult World).
Local Abbreviation results := (@AuthorArticleController.results World).
Local Abbreviation lst := (@AuthorArticleController.st World).
Local Abbreviation mkLoop := (@AuthorArticleController.mkLoop World).

Lemma loop_related_refl (l : loop_state) : loop_related l l.
Proof. unfold loop_related. repeat split; reflexivity. Qed.

Lemma loop_related_trans (l1 l2 l3 : loop_state) :
  loop_related l1 l2 -> loop_related l2 l3 -> loop_related l1 l3.
Proof.
  unfold loop_related.
  intros (A1 & A2 & A3 & A4 & A5 & A6 & A7) (B1 & B2 & B3 & B4 & B5 & B6 & B7).
  repeat split; try congruence; lia.
Qed.

Lemma loop_related_world (l : loop_state) s' :
  loop_related l (mkLoop (authorResult l) (results l) s').
Proof. unfold loop_related. simpl. repeat split; reflexivity. Qed.

Lemma loop_related_already (l : loop_state) s' :
  loop_related l (AuthorArticleController.count_already_exists l s').
Proof. unfold loop_related. simpl. repeat split; try reflexivity; lia. Qed.

Lemma loop_related_saved (l : loop_state) name id db s' :
  loop_related l (AuthorArticleController.count_saved name id db l s').
Proof. unfold loop_related. simpl. repeat split; try reflexivity; lia. Qed.

Lemma saveLoop_cons name article rest savedCount l :
  saveLoop name (article :: rest) savedCount l =
  if (3 <=? savedCount)%nat then (None, l)
  else
    let '(r, st1) :=
      ArticleModel.existsByGoogleScholarId pool_count
        (google_scholar_id article) (lst l) in
    match r with
    | Throw e => (Some e, mkLoop (authorResult l) (results l) st1)
    | Ok true =>
        match ToString (title article) with
        | Throw e => (Some e, mkLoop (authorResult l) (results l) st1)
        | Ok _ =>
            saveLoop name rest savedCount
              (AuthorArticleController.count_already_exists l st1)
        end
    | Ok false =>
        match AuthorArticleController.dbArticle_of article with
        | Throw e => (Some e, mkLoop (authorResult l) (results l) st1)
        | Ok dbArticle =>
            let '(r2, st2) := ArticleModel.create pool_insert dbArticle st1 in
            match r2 with
            | Ok articleId =>
                saveLoop name rest (S savedCount)
                  (AuthorArticleController.count_saved name articleId dbArticle l st2)
            | Throw saveError =>
                if includes (js "already exists")
                     (message_of typeErrorMessage saveError)
                then saveLoop name rest savedCount
                       (AuthorArticleController.count_already_exists l st2)
                else saveLoop name rest savedCount
                       (mkLoop (authorResult l) (results l) st2)
            end
        end
    end.
Proof. reflexivity. Qed.

(** The loop, whatever the database answers, keeps the run-level counters
    in step with the author's, and never takes [saved] past three. *)
Lemma saveLoop_inv name validArticles :
  forall savedCount l e l',
    saveLoop name validArticles savedCount l = (e, l') ->
    loop_related l l'
    /\ (AuthorResult.saved (authorResult l) = savedCount -> savedCount <= 3 ->
        AuthorResult.saved (authorResult l') <= 3).
Proof.
  induction validArticles as [|article rest IH]; intros savedCount l e l' H.
  - simpl in H. inversion H; subst. split; [apply loop_related_refl|lia].
  - rewrite saveLoop_cons in H.
    destruct (3 <=? savedCount)%nat eqn:Ecap.
    { inversion H; subst. split; [apply loop_related_refl|lia]. }
    apply Nat.leb_gt in Ecap.
    destruct (ArticleModel.existsByGoogleScholarId pool_count
                (google_scholar_id article) (lst l)) as [r st1].
    destruct r as [[|]|ex].
    + destruct (ToString (title article)) as [shown|ex].
      * apply IH in H as [Hrel Hcap]. split.
        -- eapply loop_related_trans; [apply loop_related_already|exact Hrel].
        -- intros Hs Hle. apply Hcap; simpl; lia.
      * inversion H; subst. split; [apply loop_related_world|simpl; lia].
    + destruct (AuthorArticleController.dbArticle_of article) as [dbArticle|ex].
      * destruct (ArticleModel.create pool_insert dbArticle st1) as [r2 st2].
        destruct r2 as [articleId|saveError].
        -- apply IH in H as [Hrel Hcap]. split.
           ++ eapply loop_related_trans; [apply loop_related_saved|exact Hrel].
           ++ intros Hs Hle. apply Hcap; simpl; lia.
        -- destruct (includes (js "already exists")
                       (message_of typeErrorMessage saveError)).
           ++ apply IH in H as [Hrel Hcap]. split.
              ** eapply loop_related_trans; [apply loop_related_already|exact Hrel].
              ** intros Hs Hle. apply Hcap; simpl; lia.
           ++ apply IH in H as [Hrel Hcap]. split.
              ** eapply loop_related_trans; [apply loop_related_world|exact Hrel].
              ** intros Hs Hle. apply Hcap; simpl; lia.
      * inversion H; subst. split; [apply loop_related_world|simpl; lia].
    + inversion H; subst. split; [apply loop_related_world|simpl; lia].
Qed.

(** ** The outer loop *)

Lemma author_pushed_failed name msg r0 :
  author_pushed name r0
    (Results.push_author
       (AuthorResult.set_error msg (AuthorResult.init name)) r0)
    (failed_author name msg).
Proof.
  unfold author_pushed, failed_author. simpl. repeat split; lia.
Qed.

(** The sub-summary pushed after the inner loop, with or without an
    exception caught. *)
Lemma author_pushed_after_loop name validArticles r0 st1 e l2 (err : option jsstring) :
  saveLoop name validArticles 0
    (mkLoop (AuthorResult.set_fetched (List.length validArticles)
               (AuthorResult.init name))
            (Results.add_fetched (List.length validArticles) r0) st1)
  = (e, l2) ->
  author_pushed name r0
    (Results.push_author
       (AuthorResult.mk (AuthorResult.author (authorResult l2))
          (AuthorResult.fetched (authorResult l2))
          (AuthorResult.saved (authorResult l2))
          (AuthorResult.already_exists (authorResult l2))
          (AuthorResult.articles (authorResult l2)) err)
       (results l2))
    (AuthorResult.mk (AuthorResult.author (authorResult l2))
       (AuthorResult.fetched (authorResult l2))
       (AuthorResult.saved (authorResult l2))
       (AuthorResult.already_exists (authorResult l2))
       (AuthorResult.articles (authorResult l2)) err).
Proof.
  intros H. apply saveLoop_inv in H as [Hrel Hcap].
  unfold loop_related in Hrel. simpl in Hrel.
  destruct Hrel as (A1 & A2 & A3 & A4 & A5 & A6 & A7).
  unfold author_pushed. simpl.
  repeat split; try congruence; try lia.
  apply Hcap; simpl; lia.
Qed.

Lemma processAuthor_pushes authorList name r0 st0 :
  exists ar,
    author_pushed name r0 (fst (processAuthor authorList name r0 st0)) ar.
Proof.
  unfold AuthorArticleController.processAuthor.
  destruct (SerpApiService.searchByAuthor typeErrorMessage axios_get name 0 st0)
    as [r st1].
  destruct r as [searchData|e].
  2:{ eexists. apply author_pushed_failed. }
  destruct (get searchData "organic_results") as [organic|e].
  2:{ eexists. apply author_pushed_failed. }
  destruct (negb (truthy organic)
            || AuthorArticleController.is_zero (getprop organic "length")).
  { eexists. apply author_pushed_failed. }
  destruct (ParserService.parseOrganicResults organic) as [parsed|e].
  2:{ eexists. apply author_pushed_failed. }
  destruct (saveLoop name (ParserService.filterValidPublications parsed) 0 _)
    as [[e|] l2] eqn:Hloop.
  - eexists. unfold AuthorArticleController.author_failed, AuthorResult.set_error.
    simpl. eapply author_pushed_after_loop. exact Hloop.
  - pose proof (author_pushed_after_loop _ _ _ _ _ _
                  (AuthorResult.error (authorResult l2)) Hloop) as HP.
    destruct l2 as [[a f s al ar er] rs s2]. simpl in *. eexists. exact HP.
Qed.

Lemma authorLoop_app authorList todo1 todo2 r0 st0 :
  authorLoop authorList (todo1 ++ todo2) r0 st0 =
  authorLoop authorList todo2
    (fst (authorLoop authorList todo1 r0 st0))
    (snd (authorLoop authorList todo1 r0 st0)).
Proof.
  revert r0 st0. induction todo1 as [|a todo1 IH]; intros r0 st0; simpl; auto.
  destruct (processAuthor authorList a r0 st0) as [r1 st1]. apply IH.
Qed.

(** The outer loop pushes one sub-summary per name, in order, each with at
    most three saved, and the run-level counters are the sums. *)
Lemma authorLoop_inv authorList todo :
  forall r0 st0,
  exists ars,
    Results.authors (fst (authorLoop authorList todo r0 st0))
    = Results.authors r0 ++ ars
    /\ List.map AuthorResult.author ars = todo
    /\ Forall (fun ar => AuthorResult.saved ar <= 3) ars
    /\ Results.total_saved (fst (authorLoop authorList todo r0 st0))
       = Results.total_saved r0 + sum_of AuthorResult.saved ars
    /\ Results.total_already_exists (fst (authorLoop authorList todo r0 st0))
       = Results.total_already_exists r0 + sum_of AuthorResult.already_exists ars.
Proof.
  induction todo as [|name rest IH]; intros r0 st0; simpl.
  - exists []. rewrite app_nil_r. unfold sum_of. simpl.
    repeat split; auto.
  - destruct (processAuthor_pushes authorList name r0 st0) as [ar Har].
    destruct (processAuthor authorList name r0 st0) as [r1 st1]. simpl in Har.
    destruct Har as (B1 & B2 & B3 & B4 & B5).
    destruct (IH r1 st1) as [ars (C1 & C2 & C3 & C4 & C5)].
    exists (ar :: ars). rewrite C1, B1, <- app_assoc. simpl.
    unfold sum_of in *. simpl.
    repeat split; auto; try congruence; lia.
Qed.

Local Abbreviation fetchArticlesByAuthors :=
  (AuthorArticleController.fetchArticlesByAuthors typeErrorMessage axios_get
     pool_insert pool_count).

(** A request with exactly three names is answered with the summary the
    outer loop builds. *)
Lemma fetch_three_names (s : jsstring) (w : World) :
  List.length (AuthorArticleController.authorList_of s) = 3 ->
  let authorList := AuthorArticleController.authorList_of s in
  let final := authorLoop authorList authorList Results.init (mkState w []) in
  fetchArticlesByAuthors (VStr s) w
  = (Json 200
       (SuccessBody (js "Processed 3 authors")
          (mkSummary (Results.total_fetched (fst final))
                     (Results.total_saved (fst final))
                     (Results.total_already_exists (fst final)))
          (Results.authors (fst final))
          (Results.articles_saved (fst final))),
     snd final).
Proof.
  intros Hlen authorList final.
  unfold AuthorArticleController.fetchArticlesByAuthors.
  destruct s as [|c s]; [discriminate Hlen|].
  change (negb (truthy (VStr (c :: s)))) with false. cbv iota.
  change (string_receiver (VStr (c :: s)) "split" "authors.split")
    with (@Ok jsstring (c :: s)). cbv iota.
  cbv zeta. fold authorList. fold authorList in Hlen. rewrite Hlen.
  change (negb (3 =? 3)%nat) with false. cbv iota.
  fold final. destruct final as [r1 st1]. reflexivity.
Qed.

(** ** Steps of the inner loop *)

Lemma jsstring_eqb_eq (a b : jsstring) : jsstring_eqb a b = true <-> a = b.
Proof.
  revert b. induction a as [|x a IH]; intros [|y b]; simpl; split;
    try discriminate; try reflexivity.
  - intros H. apply andb_true_iff in H as [H1 H2].
    apply N.eqb_eq in H1. apply IH in H2. congruence.
  - intros H. inversion H; subst. rewrite N.eqb_refl. simpl. now apply IH.
Qed.

Lemma includes_app_r (needle p t : jsstring) :
  includes needle t = true -> includes needle (p ++ t) = true.
Proof.
  intros H. induction p as [|c p IH]; simpl; auto.
  rewrite IH. apply orb_true_r.
Qed.

Lemma duplicate_message_includes (id : value) (m : jsstring) :
  ArticleModel.duplicate_message id = Ok m ->
  includes (js "already exists") m = true.
Proof.
  unfold ArticleModel.duplicate_message. intros H.
  apply bind_Ok_inv in H as [s [_ H]].
  replace m
    with (js "Article with google_scholar_id '" ++ s ++ js "' already exists")
    by (injection H; auto).
  apply includes_app_r, includes_app_r. reflexivity.
Qed.

Lemma dbArticle_of_id (article : publication) (db : DbArticle.t) :
  AuthorArticleController.dbArticle_of article = Ok db ->
  DbArticle.google_scholar_id db = google_scholar_id article.
Proof.
  unfold AuthorArticleController.dbArticle_of. intros H.
  apply bind_Ok_inv in H as [t [_ H]].
  apply bind_Ok_inv in H as [au [_ H]].
  apply bind_Ok_inv in H as [jo [_ H]].
  apply bind_Ok_inv in H as [ab [_ H]].
  apply bind_Ok_inv in H as [pu [_ H]].
  inversion H; subst. reflexivity.
Qed.

(** The existence check answers a positive count: the line logged shows
    the title. *)
Lemma saveLoop_exists_hit name article rest savedCount (l : loop_state) count w1 :
  savedCount < 3 ->
  pool_count (world (lst l)) (google_scholar_id article) = (Ok count, w1) ->
  (0 < count)%Z ->
  saveLoop name (article :: rest) savedCount l
  = match ToString (title article) with
    | Ok _ =>
        saveLoop name rest savedCount
          (AuthorArticleController.count_already_exists l
             (after_check l (google_scholar_id article) w1))
    | Throw e =>
        (Some e, mkLoop (authorResult l) (results l)
                   (after_check l (google_scholar_id article) w1))
    end.
Proof.
  intros Hsc Hcount Hpos. rewrite saveLoop_cons.
  apply Nat.leb_gt in Hsc. rewrite Hsc.
  unfold ArticleModel.existsByGoogleScholarId. rewrite Hcount.
  apply Z.ltb_lt in Hpos. rewrite Hpos. reflexivity.
Qed.

Lemma saveLoop_insert_fails name article rest savedCount (l : loop_state)
    count w1 db err w2 :
  savedCount < 3 ->
  pool_count (world (lst l)) (google_scholar_id article) = (Ok count, w1) ->
  (count <= 0)%Z ->
  AuthorArticleController.dbArticle_of article = Ok db ->
  pool_insert w1 (ArticleModel.insert_values db) = (Throw err, w2) ->
  let st2 := after_insert l (google_scholar_id article) w1 db w2 in
  let counted := saveLoop name rest savedCount
                   (AuthorArticleController.count_already_exists l st2) in
  let skipped := saveLoop name rest savedCount
                   (mkLoop (authorResult l) (results l) st2) in
  (code_of err = Some (js "ER_DUP_ENTRY") ->
   saveLoop name (article :: rest) savedCount l
   = match ToString (google_scholar_id article) with
     | Ok _ => counted
     | Throw te =>
         if includes (js "already exists") (message_of typeErrorMessage te)
         then counted else skipped
     end)
  /\ (code_of err <> Some (js "ER_DUP_ENTRY") ->
      saveLoop name (article :: rest) savedCount l
      = if includes (js "already exists") (message_of typeErrorMessage err)
        then counted else skipped).
Proof.
  intros Hsc Hcount Hnone Hdb Hins st2 counted skipped.
  rewrite saveLoop_cons.
  apply Nat.leb_gt in Hsc. rewrite Hsc.
  unfold ArticleModel.existsByGoogleScholarId. rewrite Hcount.
  assert (Hlt : (0 <? count)%Z = false) by (apply Z.ltb_ge; exact Hnone).
  rewrite Hlt, Hdb.
  unfold ArticleModel.create. simpl world. rewrite Hins.
  split.
  - intros Hcode. rewrite Hcode.
    change (jsstring_eqb (js "ER_DUP_ENTRY") (js "ER_DUP_ENTRY")) with true.
    cbv iota. rewrite (dbArticle_of_id article db Hdb).
    destruct (ArticleModel.duplicate_message (google_scholar_id article))
      as [m|te] eqn:Em.
    + pose proof (duplicate_message_includes _ _ Em) as Hinc.
      unfold ArticleModel.duplicate_message in Em.
      destruct (ToString (google_scholar_id article)) as [s|te];
        [|discriminate Em].
      unfold message_of, newError. simpl message. rewrite Hinc. reflexivity.
    + unfold ArticleModel.duplicate_message in Em.
      destruct (ToString (google_scholar_id article)) as [s|te'];
        [discriminate Em|].
      simpl in Em. inversion Em; subst. reflexivity.
  - intros Hcode. destruct (code_of err) as [c|] eqn:Ec; [|reflexivity].
    destruct (jsstring_eqb c (js "ER_DUP_ENTRY")) eqn:Eq; [|reflexivity].
    apply jsstring_eqb_eq in Eq. congruence.
Qed.

(** ** The run *)

Local Abbreviation searchByAuthor :=
  (SerpApiService.searchByAuthor typeErrorMessage axios_get).

(** C1, amended.  In every run over exactly three author names the
    response is the summary, with one sub-summary per name, and no
    sub-summary has a saved count above 3, whatever the number of valid, new
    candidates.  A candidate that the existence check finds in storage and
    whose title converts to a string increments [already_exists] of the
    author and of the run and leaves the saved counts and the number of save
    slots used as they were, the loop going on with the next candidate.
    When the conversion of the title throws, the loop ends there with that
    exception and no counter has moved. *)
Theorem saved_at_most_three :
  (forall (s : jsstring) (w : World),
      List.length (AuthorArticleController.authorList_of s) = 3 ->
      exists msg summ auths refs st',
        fetchArticlesByAuthors (VStr s) w
        = (Json 200 (SuccessBody msg summ auths refs), st')
        /\ List.map AuthorResult.author auths
           = AuthorArticleController.authorList_of s
        /\ Forall (fun ar => AuthorResult.saved ar <= 3) auths)
  /\ (forall name article rest savedCount (l : loop_state) count w1 shown,
         savedCount < 3 ->
         pool_count (world (lst l)) (google_scholar_id article) = (Ok count, w1) ->
         (0 < count)%Z ->
         ToString (title article) = Ok shown ->
         let l1 := AuthorArticleController.count_already_exists l
                     (after_check l (google_scholar_id article) w1) in
         saveLoop name (article :: rest) savedCount l
         = saveLoop name rest savedCount l1
         /\ AuthorResult.already_exists (authorResult l1)
            = S (AuthorResult.already_exists (authorResult l))
         /\ Results.total_already_exists (results l1)
            = S (Results.total_already_exists (results l))
         /\ AuthorResult.saved (authorResult l1) = AuthorResult.saved (authorResult l)
         /\ Results.total_saved (results l1) = Results.total_saved (results l))
  /\ (forall name article rest savedCount (l : loop_state) count w1 e,
         savedCount < 3 ->
         pool_count (world (lst l)) (google_scholar_id article) = (Ok count, w1) ->
         (0 < count)%Z ->
         ToString (title article) = Throw e ->
         saveLoop name (article :: rest) savedCount l
         = (Some e, mkLoop (authorResult l) (results l)
                      (after_check l (google_scholar_id article) w1))).
Proof.
  split; [|split].
  - intros s w Hlen.
    rewrite (fetch_three_names s w Hlen).
    destruct (authorLoop_inv (AuthorArticleController.authorList_of s)
                (AuthorArticleController.authorList_of s)
                Results.init (mkState w [])) as [ars (H1 & H2 & H3 & _)].
    do 5 eexists. split; [reflexivity|].
    rewrite H1. simpl. split; assumption.
  - intros name article rest savedCount l count w1 shown Hsc Hcount Hpos Hshown l1.
    split.
    + rewrite (saveLoop_exists_hit name article rest savedCount l count w1
                 Hsc Hcount Hpos), Hshown. reflexivity.
    + repeat split; reflexivity.
  - intros name article rest savedCount l count w1 e Hsc Hcount Hpos Hthrow.
    rewrite (saveLoop_exists_hit name article rest savedCount l count w1
               Hsc Hcount Hpos), Hthrow. reflexivity.
Qed.

(** C2. At the end of every run over exactly three names, the run-level
    [total_saved] is the sum of the three per-author [saved] counts and
    [total_already_exists] the sum of the three per-author
    [already_exists] counts. *)
Theorem totals_are_sums (s : jsstring) (w : World) :
  List.length (AuthorArticleController.authorList_of s) = 3 ->
  exists r1 r2 r3 msg summ refs st',
    fetchArticlesByAuthors (VStr s) w
    = (Json 200 (SuccessBody msg summ [r1; r2; r3] refs), st')
    /\ sum_total_saved summ
       = AuthorResult.saved r1 + AuthorResult.saved r2 + AuthorResult.saved r3
    /\ sum_total_already_exists summ
       = AuthorResult.already_exists r1 + AuthorResult.already_exists r2
         + AuthorResult.already_exists r3.
Proof.
  intros Hlen. rewrite (fetch_three_names s w Hlen).
  destruct (authorLoop_inv (AuthorArticleController.authorList_of s)
              (AuthorArticleController.authorList_of s)
              Results.init (mkState w [])) as [ars (H1 & H2 & _ & H4 & H5)].
  assert (Hars : List.length ars = 3).
  { rewrite <- Hlen, <- H2. symmetry. apply length_map. }
  destruct ars as [|r1 [|r2 [|r3 [|r4 ars]]]]; try discriminate Hars.
  exists r1, r2, r3. do 4 eexists.
  rewrite H1. simpl app. split; [reflexivity|].
  simpl. rewrite H4, H5. unfold sum_of. simpl. lia.
Qed.

(** C3. For every author-name string that does not give exactly three
    non-empty names once split on commas, trimmed and filtered, the
    response is the validation error (status 400), no call to the search
    API or to the database has been made, and the world is as it was. *)
Theorem validation_before_io (s : jsstring) (w : World) :
  List.length (AuthorArticleController.authorList_of s) <> 3 ->
  exists msg,
    fetchArticlesByAuthors (VStr s) w
    = (Json 400 (ErrorBody msg), mkState w []).
Proof.
  intros Hlen. unfold AuthorArticleController.fetchArticlesByAuthors.
  destruct s as [|c s]; [eexists; reflexivity|].
  change (negb (truthy (VStr (c :: s)))) with false. cbv iota.
  change (string_receiver (VStr (c :: s)) "split" "authors.split")
    with (@Ok jsstring (c :: s)). cbv iota zeta.
  apply Nat.eqb_neq in Hlen. rewrite Hlen. simpl negb. cbv iota.
  eexists; reflexivity.
Qed.

(** C5, amended.  When the existence check misses and the insert fails:
    with the duplicate-identifier error, for an identifier that converts to
    a string, the candidate is counted as [already_exists] for the author
    and for the run; with the duplicate-identifier error for an identifier
    whose conversion throws, and with any other error, no counter moves
    when the message of the exception does not contain 'already exists';
    in every case the loop goes on with the next candidate, and the run is
    answered with status 200. *)
Theorem insert_failure_handling :
  (forall name article rest savedCount (l : loop_state) count w1 db err w2,
      savedCount < 3 ->
      pool_count (world (lst l)) (google_scholar_id article) = (Ok count, w1) ->
      (count <= 0)%Z ->
      AuthorArticleController.dbArticle_of article = Ok db ->
      pool_insert w1 (ArticleModel.insert_values db) = (Throw err, w2) ->
      let st2 := after_insert l (google_scholar_id article) w1 db w2 in
      (code_of err = Some (js "ER_DUP_ENTRY") ->
       forall shown : jsstring,
       ToString (google_scholar_id article) = Ok shown ->
       saveLoop name (article :: rest) savedCount l
       = saveLoop name rest savedCount
           (mkLoop (AuthorResult.incr_already_exists (authorResult l))
                   (Results.incr_already_exists (results l)) st2))
      /\ (code_of err = Some (js "ER_DUP_ENTRY") ->
          forall te : jserror,
          ToString (google_scholar_id article) = Throw te ->
          includes (js "already exists") (message_of typeErrorMessage te) = false ->
          saveLoop name (article :: rest) savedCount l
          = saveLoop name rest savedCount
              (mkLoop (authorResult l) (results l) st2))
      /\ (code_of err <> Some (js "ER_DUP_ENTRY") ->
          includes (js "already exists") (message_of typeErrorMessage err) = false ->
          saveLoop name (article :: rest) savedCount l
          = saveLoop name rest savedCount
              (mkLoop (authorResult l) (results l) st2)))
  /\ (forall (s : jsstring) (w : World),
         List.length (AuthorArticleController.authorList_of s) = 3 ->
         exists b st', fetchArticlesByAuthors (VStr s) w = (Json 200 b, st')).
Proof.
  split.
  - intros name article rest savedCount l count w1 db err w2
           Hsc Hcount Hnone Hdb Hins st2.
    destruct (saveLoop_insert_fails name article rest savedCount l count w1 db
                err w2 Hsc Hcount Hnone Hdb Hins) as [Hdup Hother].
    split; [|split].
    + intros Hcode shown Hshown. rewrite (Hdup Hcode), Hshown. reflexivity.
    + intros Hcode te Hte Hmsg. rewrite (Hdup Hcode), Hte, Hmsg. reflexivity.
    + intros Hcode Hmsg. rewrite (Hother Hcode), Hmsg. reflexivity.
  - intros s w Hlen. rewrite (fetch_three_names s w Hlen).
    do 2 eexists. reflexivity.
Qed.

(** ** A failing search *)

Lemma processAuthor_search_throws authorList name r0 st0 e st1 :
  searchByAuthor name 0%Z st0 = (Throw e, st1) ->
  processAuthor authorList name r0 st0
  = (Results.push_author
       (failed_author name (message_of typeErrorMessage e)) r0, st1).
Proof.
  intros H. unfold AuthorArticleController.processAuthor. rewrite H. reflexivity.
Qed.

Lemma searchByAuthor_trace name start (st0 : state World) :
  trace (snd (searchByAuthor name start st0))
  = trace st0
    ++ [EvHttpGet (js "author:" ++ [Char.dquote] ++ name ++ [Char.dquote]) start].
Proof.
  unfold SerpApiService.searchByAuthor, SerpApiService.search.
  destruct (axios_get (world st0) _ start) as [r w1].
  destruct (SerpApiService.search_try r); reflexivity.
Qed.

Lemma firstn_S_nth_error {A} (l : list A) (j : nat) (x : A) :
  nth_error l j = Some x -> firstn (S j) l = firstn j l ++ [x].
Proof.
  revert j. induction l as [|a l IH]; intros [|j] H; simpl in *;
    try discriminate.
  - inversion H; subst. now destruct l.
  - f_equal. now apply IH.
Qed.

(** The sub-summaries a pass pushes stay where they are: after the first
    [j] names, the list is a prefix of the final one. *)
Lemma authorLoop_firstn authorList todo (j : nat) r0 st0 :
  Results.authors (fst (authorLoop authorList (firstn j todo) r0 st0))
  = firstn (List.length (Results.authors r0) + Nat.min j (List.length todo))
      (Results.authors (fst (authorLoop authorList todo r0 st0))).
Proof.
  rewrite <- (firstn_skipn j todo) at 3.
  rewrite authorLoop_app.
  destruct (authorLoop_inv authorList (firstn j todo) r0 st0)
    as [ars (H1 & H2 & _)].
  destruct (authorLoop authorList (firstn j todo) r0 st0) as [r1 st1].
  simpl in *.
  destruct (authorLoop_inv authorList (skipn j todo) r1 st1)
    as [ars' (H1' & _)].
  rewrite H1', H1.
  assert (Hl : List.length ars = Nat.min j (List.length todo)).
  { rewrite <- (length_map AuthorResult.author), H2. apply length_firstn. }
  rewrite <- Hl, <- length_app, firstn_app, firstn_all.
  rewrite Nat.sub_diag. simpl. now rewrite app_nil_r.
Qed.

(** ** The per-author procedure *)

Local Abbreviation persists :=
  (persists typeErrorMessage pool_insert pool_count).

Lemma loop_after_stopped name (l : loop_state) :
  loop_after name l (stopped (world (lst l))) = l.
Proof.
  destruct l as [[a f s ae arts er] [au tf ts ta refs] [w tr]].
  unfold loop_after, stopped. simpl. rewrite !app_nil_r, !Nat.add_0_r.
  reflexivity.
Qed.

Lemma loop_after_failed name (l : loop_state) evs w e :
  loop_after name l (failed evs w e)
  = mkLoop (authorResult l) (results l) (mkState w (trace (lst l) ++ evs)).
Proof.
  destruct l as [[a f s ae arts er] [au tf ts ta refs] [w0 tr]].
  unfold loop_after, failed. simpl. rewrite !app_nil_r, !Nat.add_0_r.
  reflexivity.
Qed.

Lemma loop_after_existing name (l : loop_state) id w1 (o : persisted World) :
  loop_after name
    (AuthorArticleController.count_already_exists l (emit (EvSelectCount id) w1 (lst l)))
    o
  = loop_after name l (after_events [EvSelectCount id] (with_existing o)).
Proof.
  unfold loop_after, after_events, with_existing,
    AuthorArticleController.count_already_exists, emit. simpl.
  rewrite <- !app_assoc. simpl. repeat f_equal; lia.
Qed.

Lemma loop_after_checked name (l : loop_state) evs w (o : persisted World) :
  loop_after name (mkLoop (authorResult l) (results l)
                     (mkState w (trace (lst l) ++ evs))) o
  = loop_after name l (after_events evs o).
Proof.
  unfold loop_after, after_events. simpl. now rewrite <- !app_assoc.
Qed.

Lemma loop_after_saved name (l : loop_state) id db st2 (o : persisted World) :
  loop_after name (AuthorArticleController.count_saved name id db l st2) o
  = loop_after name
      (mkLoop (authorResult l) (results l) st2)
      (with_saved
         (mkArticleRef id (DbArticle.google_scholar_id db)
            (DbArticle.paper_title db) (DbArticle.citation_count db)) o).
Proof.
  unfold loop_after, with_saved, AuthorArticleController.count_saved. simpl.
  rewrite <- !app_assoc. simpl. repeat f_equal; lia.
Qed.

Lemma create_accepted (db : DbArticle.t) (st : state World) id w2 :
  pool_insert (world st) (ArticleModel.insert_values db) = (Ok id, w2) ->
  ArticleModel.create pool_insert db st
  = (Ok id, emit (EvInsert (ArticleModel.insert_values db)) w2 st).
Proof. intros H. unfold ArticleModel.create. rewrite H. reflexivity. Qed.

Lemma create_rejected (db : DbArticle.t) (st : state World) err w2 :
  pool_insert (world st) (ArticleModel.insert_values db) = (Throw err, w2) ->
  ArticleModel.create pool_insert db st
  = (Throw (insert_exception (DbArticle.google_scholar_id db) err),
     emit (EvInsert (ArticleModel.insert_values db)) w2 st).
Proof.
  intros H. unfold ArticleModel.create. rewrite H.
  unfold insert_exception, ArticleModel.duplicate_message.
  destruct (code_of err) as [c|]; [|reflexivity].
  destruct (jsstring_eqb c (js "ER_DUP_ENTRY")); [|reflexivity].
  destruct (ToString (DbArticle.google_scholar_id db)); reflexivity.
Qed.

(** The inner loop carries out the persistence step. *)
Lemma saveLoop_persists name validArticles :
  forall savedCount (l : loop_state),
  exists o : persisted World,
    persists (world (lst l)) validArticles savedCount o
    /\ saveLoop name validArticles savedCount l = (failure o, loop_after name l o).
Proof.
  induction validArticles as [|article rest IH]; intros savedCount l.
  - exists (stopped (world (lst l))). split; [constructor|].
    now rewrite loop_after_stopped.
  - rewrite saveLoop_cons.
    destruct (3 <=? savedCount)%nat eqn:Ecap.
    { apply Nat.leb_le in Ecap.
      exists (stopped (world (lst l))). split; [now constructor|].
      now rewrite loop_after_stopped. }
    apply Nat.leb_gt in Ecap.
    unfold ArticleModel.existsByGoogleScholarId.
    destruct (pool_count (world (lst l)) (google_scholar_id article))
      as [[count|e] w1] eqn:Ecount.
    2:{ exists (failed [EvSelectCount (google_scholar_id article)] w1 e).
        split; [eapply persists_check_fails; eauto|].
        now rewrite loop_after_failed. }
    destruct (Z.ltb_spec 0 count) as [Hpos|Hnone].
    + destruct (ToString (title article)) as [shown|e] eqn:Eshown.
      * destruct (IH savedCount
                    (AuthorArticleController.count_already_exists l
                       (emit (EvSelectCount (google_scholar_id article)) w1 (lst l))))
          as (o & Ho & Hrun).
        exists (after_events [EvSelectCount (google_scholar_id article)]
                  (with_existing o)).
        split; [eapply persists_exists; eauto|].
        rewrite Hrun, loop_after_existing. reflexivity.
      * exists (failed [EvSelectCount (google_scholar_id article)] w1 e).
        split; [eapply persists_exists_unshown; eauto|].
        now rewrite loop_after_failed.
    + destruct (AuthorArticleController.dbArticle_of article) as [db|e] eqn:Edb.
      2:{ exists (failed [EvSelectCount (google_scholar_id article)] w1 e).
          split; [eapply persists_sanitize_fails; eauto|].
          now rewrite loop_after_failed. }
      set (st1 := emit (EvSelectCount (google_scholar_id article)) w1 (lst l)).
      destruct (pool_insert w1 (ArticleModel.insert_values db))
        as [[id|err] w2] eqn:Eins.
      * rewrite (create_accepted db st1 id w2 Eins).
        destruct (IH (S savedCount)
                    (AuthorArticleController.count_saved name id db l
                       (emit (EvInsert (ArticleModel.insert_values db)) w2 st1)))
          as (o & Ho & Hrun).
        eexists. split; [eapply persists_saved; eauto|].
        rewrite Hrun, loop_after_saved.
        unfold st1, emit. cbn [trace]. rewrite <- app_assoc.
        rewrite (loop_after_checked name l
                   ([EvSelectCount (google_scholar_id article)]
                    ++ [EvInsert (ArticleModel.insert_values db)]) w2).
        reflexivity.
      * rewrite (create_rejected db st1 err w2 Eins).
        destruct (includes (js "already exists")
                    (message_of typeErrorMessage
                       (insert_exception (DbArticle.google_scholar_id db) err)))
          eqn:Einc.
        -- destruct (IH savedCount
                       (AuthorArticleController.count_already_exists l
                          (emit (EvInsert (ArticleModel.insert_values db)) w2 st1)))
             as (o & Ho & Hrun).
           eexists. split.
           { eapply persists_rejected; eauto. }
           rewrite Einc, Hrun.
           unfold loop_after, after_events, with_existing,
             AuthorArticleController.count_already_exists, st1, emit. simpl.
           rewrite <- !app_assoc. simpl. repeat f_equal; lia.
        -- destruct (IH savedCount
                       (mkLoop (authorResult l) (results l)
                          (emit (EvInsert (ArticleModel.insert_values db)) w2 st1)))
             as (o & Ho & Hrun).
           eexists. split.
           { eapply persists_rejected; eauto. }
           rewrite Einc, Hrun.
           unfold loop_after, after_events, st1, emit. simpl.
           rewrite <- !app_assoc. reflexivity.
Qed.

(** The procedure leaves no choice: what the storage answers decides the
    outcome of the persistence step. *)
Lemma persists_functional (w : World) (cands : list publication) (n : nat)
    (o o' : persisted World) :
  persists w cands n o -> persists w cands n o' -> o = o'.
Proof.
  intros H. revert o'.
  induction H; intros o' H'; inversion H'; subst; try reflexivity; try lia;
    repeat match goal with
           | H1 : ?x = _, H2 : ?x = _ |- _ =>
               rewrite H1 in H2; inversion H2; subst; clear H2
           end;
    try lia; try reflexivity;
    try (match goal with
         | IH : forall o', persists ?w ?c ?n o' -> _ = o',
           H : persists ?w ?c ?n _ |- _ => rewrite (IH _ H)
         end; reflexivity).
Qed.

Lemma searchByAuthor_Ok_nonnull name start (st0 st1 : state World) data :
  searchByAuthor name start st0 = (Ok data, st1) -> nullish data = false.
Proof.
  unfold SerpApiService.searchByAuthor, SerpApiService.search.
  destruct (axios_get (world st0) _ start) as [r w1].
  unfold SerpApiService.search_try, get.
  destruct r as [d|err]; simpl bind; [|discriminate].
  destruct (nullish d) eqn:En; simpl bind; [discriminate|].
  destruct (truthy (getprop d "error")).
  - destruct (ToString (getprop d "error")); discriminate.
  - intros H. inversion H; subst. exact En.
Qed.

(** A pass whose search returns results: the records parsed from them that
    have a title and an identifier go through the persistence step, from
    the world the search left. *)
Lemma processAuthor_normal authorList name r0 st0 data st1 items ps :
  searchByAuthor name 0%Z st0 = (Ok data, st1) ->
  getprop data "organic_results" = VArr items ->
  items <> [] ->
  ParserService.parseOrganicResults (VArr items) = Ok ps ->
  exists o : persisted World,
    persists (world st1) (valid_records ps) 0 o
    /\ processAuthor authorList name r0 st0
       = (results_plus r0
            [sub_summary typeErrorMessage name
               (List.length (valid_records ps)) o],
          mkState (world_after o)
            (trace st1 ++ storage_events o ++ pause_after authorList name o)).
Proof.
  intros Hsearch Horg Hitems Hparse.
  pose proof (searchByAuthor_Ok_nonnull name 0%Z st0 st1 data Hsearch) as Hnn.
  unfold AuthorArticleController.processAuthor. rewrite Hsearch.
  unfold get. rewrite Hnn, Horg.
  assert (Hlen : AuthorArticleController.is_zero (getprop (VArr items) "length")
                 = false).
  { destruct items as [|x items]; [now elim Hitems|reflexivity]. }
  rewrite Hlen. change (negb (truthy (VArr items)) || false) with false.
  cbv iota. rewrite Hparse. cbv zeta.
  change (ParserService.filterValidPublications ps) with (valid_records ps).
  destruct (saveLoop_persists name (valid_records ps) 0
              (mkLoop (AuthorResult.set_fetched (List.length (valid_records ps))
                         (AuthorResult.init name))
                      (Results.add_fetched (List.length (valid_records ps)) r0)
                      st1))
    as (o & Ho & Hrun).
  exists o. split; [exact Ho|].
  rewrite Hrun.
  unfold pause_after, sub_summary, results_plus, sum_of, tagged_articles.
  destruct (failure o) as [e|].
  - unfold AuthorArticleController.author_failed, loop_after,
      Results.push_author, AuthorResult.set_error. simpl.
    rewrite !app_nil_r. f_equal. f_equal; lia.
  - unfold loop_after, Results.push_author.
    cbn [AuthorArticleController.authorResult
      AuthorArticleController.results AuthorArticleController.st].
    destruct (AuthorArticleController.indexOf authorList name
              <? Z.of_nat (List.length authorList) - 1)%Z.
    + unfold emit. simpl. rewrite !app_nil_r, <- app_assoc.
      f_equal. f_equal; lia.
    + simpl. rewrite !app_nil_r. f_equal. f_equal; lia.
Qed.

Lemma nth_error_firstn_snoc {A} (l : list A) (j : nat) (x : A) :
  firstn (S j) l = firstn j l ++ [x] -> j < List.length l ->
  nth_error l j = Some x.
Proof.
  revert j. induction l as [|a l IH]; intros [|j] H Hj; simpl in *; try lia.
  - inversion H; subst. reflexivity.
  - inversion H. apply IH; [assumption|lia].
Qed.


End ControllerLoop.

(* ================================================================== *)
(** * The run on concrete worlds *)
(* ================================================================== *)

(** The first author has five valid candidates, four of them new: three are
    saved. *)
Example demo_counts :
  let r := fst (Scenario.fetchArticlesByAuthors (VStr Scenario.demo_request)
                  Scenario.demo_world) in
  response_summary r = Some (mkSummary 8 5 2)
  /\ List.map AuthorResult.fetched (response_authors r) = [5; 0; 3]
  /\ List.map AuthorResult.saved (response_authors r) = [3; 0; 2]
  /\ List.map AuthorResult.already_exists (response_authors r) = [1; 0; 1].
Proof. vm_compute. repeat split; reflexivity. Qed.

Lemma saved_at_most_three_witness :
  (exists msg summ auths refs st',
      Scenario.fetchArticlesByAuthors (VStr Scenario.demo_request)
        Scenario.demo_world
      = (Json 200 (SuccessBody msg summ auths refs), st')
      /\ List.map AuthorResult.author auths
         = AuthorArticleController.authorList_of Scenario.demo_request
      /\ Forall (fun ar => AuthorResult.saved ar <= 3) auths)
  /\ (let l := Scenario.loop_start Scenario.demo_world in
      let l1 := AuthorArticleController.count_already_exists l
                  (after_check l (VStr (js "a2")) Scenario.demo_world) in
      Scenario.saveLoop (js "Ann") [Scenario.pub "a2" "T2"; Scenario.pub "a3" "T3"] 1 l
      = Scenario.saveLoop (js "Ann") [Scenario.pub "a3" "T3"] 1 l1
      /\ AuthorResult.already_exists (AuthorArticleController.authorResult l1)
         = S (AuthorResult.already_exists (AuthorArticleController.authorResult l))
      /\ Results.total_already_exists (AuthorArticleController.results l1)
         = S (Results.total_already_exists (AuthorArticleController.results l))
      /\ AuthorResult.saved (AuthorArticleController.authorResult l1)
         = AuthorResult.saved (AuthorArticleController.authorResult l)
      /\ Results.total_saved (AuthorArticleController.results l1)
         = Results.total_saved (AuthorArticleController.results l))
  /\ (let l := Scenario.loop_start unprintable_title_world in
      Scenario.saveLoop (js "Ann") [unprintable_pub; Scenario.pub "a3" "T3"] 0 l
      = (Some (TypeError NotPrimitive),
         AuthorArticleController.mkLoop
           (AuthorArticleController.authorResult l)
           (AuthorArticleController.results l)
           (after_check l (VStr (js "a2")) unprintable_title_world))).
Proof.
  split; [|split].
  - apply (proj1 (saved_at_most_three v8_message Scenario.World Scenario.axios_get
                    Scenario.pool_insert Scenario.pool_count)).
    vm_compute; reflexivity.
  - apply (proj1 (proj2 (saved_at_most_three v8_message Scenario.World
                           Scenario.axios_get Scenario.pool_insert
                           Scenario.pool_count))
             (js "Ann") (Scenario.pub "a2" "T2") [Scenario.pub "a3" "T3"] 1
             (Scenario.loop_start Scenario.demo_world) 1%Z Scenario.demo_world
             (js "T2")).
    + lia.
    + vm_compute; reflexivity.
    + lia.
    + reflexivity.
  - apply (proj2 (proj2 (saved_at_most_three v8_message Scenario.World
                           Scenario.axios_get Scenario.pool_insert
                           Scenario.pool_count))
             (js "Ann") unprintable_pub [Scenario.pub "a3" "T3"] 0
             (Scenario.loop_start unprintable_title_world) 1%Z
             unprintable_title_world (TypeError NotPrimitive)).
    + lia.
    + vm_compute; reflexivity.
    + lia.
    + reflexivity.
Defined.

(** C1 as stated fails: the first candidate of the first author is in
    storage, the existence check finds it, and the line logged for it
    converts its title, an object with an own [toString] that is not
    callable: the conversion throws, the author's pass ends with that error,
    [already_exists] has not moved, for the author or for the run, and the
    second candidate is never examined. *)
Lemma existing_candidate_not_counted :
  let w := unprintable_title_world in
  let run := Scenario.fetchArticlesByAuthors (VStr Scenario.demo_request) w in
  fst (Scenario.pool_count w (VStr (js "a2"))) = Ok 1%Z
  /\ ParserService.parseOrganicResults
       (VArr [unprintable_item; Scenario.item "a3" "T3"])
     = Ok [unprintable_pub; Scenario.pub "a3" "T3"]
  /\ List.map AuthorResult.fetched (response_authors (fst run)) = [2; 0; 0]
  /\ List.map AuthorResult.already_exists (response_authors (fst run)) = [0; 0; 0]
  /\ List.map AuthorResult.saved (response_authors (fst run)) = [0; 0; 0]
  /\ response_summary (fst run) = Some (mkSummary 2 0 0)
  /\ List.map AuthorResult.error (firstn 1 (response_authors (fst run)))
     = [Some (js "Cannot convert object to primitive value")]
  /\ List.filter (fun e => negb (is_http e)) (trace (snd run))
     = [EvSelectCount (VStr (js "a2"))].
Proof. vm_compute. repeat split; reflexivity. Qed.

Lemma totals_are_sums_witness :
  exists r1 r2 r3 msg summ refs st',
    Scenario.fetchArticlesByAuthors (VStr Scenario.demo_request) Scenario.demo_world
    = (Json 200 (SuccessBody msg summ [r1; r2; r3] refs), st')
    /\ sum_total_saved summ
       = AuthorResult.saved r1 + AuthorResult.saved r2 + AuthorResult.saved r3
    /\ sum_total_already_exists summ
       = AuthorResult.already_exists r1 + AuthorResult.already_exists r2
         + AuthorResult.already_exists r3.
Proof.
  apply (totals_are_sums v8_message Scenario.World Scenario.axios_get Scenario.pool_insert
           Scenario.pool_count Scenario.demo_request Scenario.demo_world).
  vm_compute; reflexivity.
Defined.

(** Two names, and four. *)
Lemma validation_before_io_witness :
  (exists msg,
      Scenario.fetchArticlesByAuthors (VStr (js "Ann, Bob,, ")) Scenario.demo_world
      = (Json 400 (ErrorBody msg), mkState Scenario.demo_world []))
  /\ (exists msg,
         Scenario.fetchArticlesByAuthors (VStr (js "Ann,Bob,Cy,Dee"))
           Scenario.demo_world
         = (Json 400 (ErrorBody msg), mkState Scenario.demo_world [])).
Proof.
  split.
  - apply (validation_before_io v8_message Scenario.World Scenario.axios_get Scenario.pool_insert
             Scenario.pool_count (js "Ann, Bob,, ") Scenario.demo_world).
    intros H. vm_compute in H. discriminate H.
  - apply (validation_before_io v8_message Scenario.World Scenario.axios_get Scenario.pool_insert
             Scenario.pool_count (js "Ann,Bob,Cy,Dee") Scenario.demo_world).
    intros H. vm_compute in H. discriminate H.
Defined.


(** What the persistence step makes of the five candidates of the first
    author: the second is stored already, and the step stops once the first,
    the third and the fourth are saved. *)
Example demo_persists :
  let ps := [Scenario.pub "a1" "T1"; Scenario.pub "a2" "T2";
             Scenario.pub "a3" "T3"; Scenario.pub "a4" "T4";
             Scenario.pub "a5" "T5"] in
  exists o : persisted Scenario.World,
    persists v8_message Scenario.pool_insert Scenario.pool_count
      Scenario.demo_world ps 0 o
    /\ List.map ref_google_scholar_id (saved_refs o)
       = [VStr (js "a1"); VStr (js "a3"); VStr (js "a4")]
    /\ existing o = 1
    /\ failure o = None
    /\ Scenario.stored (world_after o) = [js "a2"; js "a1"; js "a3"; js "a4"].
Proof.
  intros ps. eexists. split.
  - eapply persists_saved; [lia|vm_compute; reflexivity|lia|reflexivity
                           |vm_compute; reflexivity|].
    eapply persists_exists; [lia|vm_compute; reflexivity|lia|reflexivity|].
    eapply persists_saved; [lia|vm_compute; reflexivity|lia|reflexivity
                           |vm_compute; reflexivity|].
    eapply persists_saved; [lia|vm_compute; reflexivity|lia|reflexivity
                           |vm_compute; reflexivity|].
    apply persists_cap. lia.
  - vm_compute. repeat split; reflexivity.
Qed.

Example demo_failed_author :
  nth_error
    (response_authors
       (fst (Scenario.fetchArticlesByAuthors (VStr Scenario.demo_request)
               Scenario.demo_world))) 1
  = Some (failed_author (js "Bob") (js "Network Error: Invalid API key.")).
Proof. vm_compute. reflexivity. Qed.

(** C5 as stated fails: an insert rejected by a trigger, with an error that
    is not the duplicate entry but whose message contains 'already exists',
    is counted as [already_exists] for the author and for the run, the table
    being empty. *)
Lemma other_error_counted_as_existing :
  let w := Scenario.faulty_world Scenario.trigger_error in
  let r := fst (Scenario.fetchArticlesByAuthors (VStr Scenario.demo_request) w) in
  Scenario.stored w = []
  /\ fst (Scenario.pool_insert w
            (ArticleModel.insert_values
               (DbArticle.mk (VStr (js "a1")) (VStr (js "T1")) VNull VNull VNull
                  VNull VNull (VNum 0) VNull VNull VNull)))
     = Throw (ErrObj Scenario.trigger_error)
  /\ code Scenario.trigger_error = Some (js "ER_SIGNAL_EXCEPTION")
  /\ response_summary r = Some (mkSummary 2 1 1)
  /\ List.map AuthorResult.already_exists (response_authors r) = [1; 0; 0]
  /\ List.map AuthorResult.saved (response_authors r) = [1; 0; 0].
Proof. vm_compute. repeat split; reflexivity. Qed.

(** The insert of the first candidate fails: with the duplicate entry of a
    row inserted since the check, with a deadlock. *)
Lemma insert_failure_handling_witness :
  (let l := Scenario.loop_start (Scenario.faulty_world Scenario.race_error) in
   fst (Scenario.saveLoop (js "Ann") [Scenario.pub "a1" "T1"] 0 l) = None
   /\ AuthorResult.already_exists
        (AuthorArticleController.authorResult
           (snd (Scenario.saveLoop (js "Ann") [Scenario.pub "a1" "T1"] 0 l))) = 1
   /\ Results.total_already_exists
        (AuthorArticleController.results
           (snd (Scenario.saveLoop (js "Ann") [Scenario.pub "a1" "T1"] 0 l))) = 1)
  /\ (let w := Scenario.timeout_world in
      let l := Scenario.loop_start w in
      let db := DbArticle.mk unprintable (VStr (js "T1")) VNull VNull VNull
                  VNull VNull (VNum 0) VNull VNull VNull in
      AuthorArticleController.saveLoop v8_message rejecting_insert
        Scenario.pool_count (js "Ann")
        [unprintable_id_pub; Scenario.pub "a9" "T9"] 0 l
      = AuthorArticleController.saveLoop v8_message rejecting_insert
          Scenario.pool_count (js "Ann") [Scenario.pub "a9" "T9"] 0
          (AuthorArticleController.mkLoop
             (AuthorArticleController.authorResult l)
             (AuthorArticleController.results l)
             (after_insert l unprintable w db w)))
  /\ (let l := Scenario.loop_start (Scenario.faulty_world Scenario.deadlock_error) in
      let w := Scenario.faulty_world Scenario.deadlock_error in
      Scenario.saveLoop (js "Ann") [Scenario.pub "a1" "T1"; Scenario.pub "a9" "T9"] 0 l
      = Scenario.saveLoop (js "Ann") [Scenario.pub "a9" "T9"] 0
          (AuthorArticleController.mkLoop
             (AuthorArticleController.authorResult l)
             (AuthorArticleController.results l)
             (after_insert l (VStr (js "a1")) w
                (DbArticle.mk (VStr (js "a1")) (VStr (js "T1")) VNull VNull VNull
                   VNull VNull (VNum 0) VNull VNull VNull) w)))
  /\ (exists b st',
         Scenario.fetchArticlesByAuthors (VStr Scenario.demo_request)
           (Scenario.faulty_world Scenario.deadlock_error)
         = (Json 200 b, st')).
Proof.
  split; [|split; [|split]].
  - intros l.
    destruct (proj1 (insert_failure_handling v8_message Scenario.World Scenario.axios_get
                       Scenario.pool_insert Scenario.pool_count)
                (js "Ann") (Scenario.pub "a1" "T1") [] 0 l 0%Z
                (Scenario.faulty_world Scenario.race_error)
                (DbArticle.mk (VStr (js "a1")) (VStr (js "T1")) VNull VNull VNull
                   VNull VNull (VNum 0) VNull VNull VNull)
                (ErrObj Scenario.race_error)
                (Scenario.faulty_world Scenario.race_error)
                ltac:(lia) ltac:(vm_compute; reflexivity) ltac:(lia)
                ltac:(vm_compute; reflexivity) ltac:(vm_compute; reflexivity))
      as [Hdup _].
    rewrite (Hdup ltac:(vm_compute; reflexivity) (js "a1") ltac:(reflexivity)).
    vm_compute. repeat split; reflexivity.
  - intros w l db.
    apply (proj1 (proj2 (proj1 (insert_failure_handling v8_message Scenario.World
                                  Scenario.axios_get rejecting_insert
                                  Scenario.pool_count)
                           (js "Ann") unprintable_id_pub [Scenario.pub "a9" "T9"]
                           0 l 0%Z w db duplicate_object_error w
                           ltac:(lia) ltac:(vm_compute; reflexivity) ltac:(lia)
                           ltac:(vm_compute; reflexivity)
                           ltac:(vm_compute; reflexivity)))
             ltac:(vm_compute; reflexivity) (TypeError NotPrimitive)).
    + reflexivity.
    + vm_compute; reflexivity.
  - intros l w.
    apply (proj2 (proj2 (proj1 (insert_failure_handling v8_message Scenario.World
                                  Scenario.axios_get Scenario.pool_insert
                                  Scenario.pool_count)
             (js "Ann") (Scenario.pub "a1" "T1") [Scenario.pub "a9" "T9"] 0 l 0%Z
             w
             (DbArticle.mk (VStr (js "a1")) (VStr (js "T1")) VNull VNull VNull
                VNull VNull (VNum 0) VNull VNull VNull)
             (ErrObj Scenario.deadlock_error) w
             ltac:(lia) ltac:(vm_compute; reflexivity) ltac:(lia)
             ltac:(vm_compute; reflexivity) ltac:(vm_compute; reflexivity)))).
    + vm_compute. discriminate.
    + vm_compute; reflexivity.
  - apply (proj2 (insert_failure_handling v8_message Scenario.World Scenario.axios_get
                    Scenario.pool_insert Scenario.pool_count)).
    vm_compute; reflexivity.
Defined.

(* ================================================================== *)
(** * The search client *)
(* ================================================================== *)

Section SearchClient.
Variable typeErrorMessage : type_error -> jsstring.
Variable World : Type.
Variable axios_get : World -> jsstring -> Z -> res value * World.

Local Abbreviation search := (SerpApiService.search typeErrorMessage axios_get).

(** An error field in the body of a successful response is thrown inside
    the [try] block and caught by the [catch] block of [search], which
    finds no [response] on it. *)
Lemma search_embedded_error (q : jsstring) (start : Z) (st : state World)
    (data : value) (msg : jsstring) (w1 : World) :
  axios_get (world st) q start = (Ok data, w1) ->
  nullish data = false ->
  getprop data "error" = VStr msg ->
  msg <> [] ->
  fst (search q start st) = Throw (newError (js "Network Error: " ++ msg)).
Proof.
  intros Hget Hn Herr Hmsg. unfold SerpApiService.search. rewrite Hget.
  unfold SerpApiService.search_try, get. simpl bind. rewrite Hn. simpl bind.
  rewrite Herr. destruct msg as [|c msg]; [congruence|]. reflexivity.
Qed.

(** A rejection without a response: a time-out, a connection failure. *)
Lemma search_transport_failure (q : jsstring) (start : Z) (st : state World)
    (msg : jsstring) (c : option jsstring) (stt : option Z) (w1 : World) :
  axios_get (world st) q start = (Throw (ErrObj (mkError msg c None stt)), w1) ->
  fst (search q start st) = Throw (newError (js "Network Error: " ++ msg)).
Proof.
  intros Hget. unfold SerpApiService.search. rewrite Hget. reflexivity.
Qed.

(** A rejection with a response whose body names the error. *)
Lemma search_http_error (q : jsstring) (start : Z) (st : state World)
    (m : jsstring) (c : option jsstring) (stt : option Z) (data : value)
    (msg : jsstring) (w1 : World) :
  axios_get (world st) q start
  = (Throw (ErrObj (mkError m c (Some data) stt)), w1) ->
  nullish data = false ->
  getprop data "error" = VStr msg ->
  msg <> [] ->
  fst (search q start st) = Throw (newError (js "SerpAPI Error: " ++ msg)).
Proof.
  intros Hget Hn Herr Hmsg. unfold SerpApiService.search. rewrite Hget.
  simpl. unfold SerpApiService.search_catch. simpl response_of.
  unfold get. rewrite Hn, Herr.
  destruct msg as [|ch msg]; [congruence|]. reflexivity.
Qed.
End SearchClient.

(** C7, what the code does.  The error that a successful response carries
    in its body reaches the caller as a "Network Error", the category of a
    time-out, and the error handler answers both with status 503; only the
    same body under an error status is reported as a "SerpAPI Error"
    (status 502). *)
Theorem embedded_error_reported_as_network_error :
  let search w :=
    fst (SerpApiService.search v8_message Scenario.axios_get
           (Scenario.author_query "Ann") 0%Z (mkState w [])) in
  search Scenario.embedded_error_world
  = Throw (newError (js "Network Error: Invalid API key."))
  /\ search Scenario.timeout_world
     = Throw (newError (js "Network Error: timeout of 30000ms exceeded"))
  /\ search Scenario.http_error_world
     = Throw (newError (js "SerpAPI Error: Invalid API key."))
  /\ fst (ErrorHandler.errorHandler v8_message
            (newError (js "Network Error: Invalid API key."))) = 503%Z
  /\ fst (ErrorHandler.errorHandler v8_message
            (newError (js "Network Error: timeout of 30000ms exceeded"))) = 503%Z
  /\ fst (ErrorHandler.errorHandler v8_message
            (newError (js "SerpAPI Error: Invalid API key."))) = 502%Z.
Proof. vm_compute. repeat split; reflexivity. Qed.

(* ================================================================== *)
(** * The year pattern and the strip pattern *)
(* ================================================================== *)

Lemma year4_head c1 c2 c3 c4 :
  year4 c1 c2 c3 c4 = true -> (c1 = 49 \/ c1 = 50)%N.
Proof.
  unfold year4. intros H.
  apply andb_true_iff in H as [H _]. apply andb_true_iff in H as [H _].
  apply orb_true_iff in H as [H|H]; apply andb_true_iff in H as [H _];
    apply N.eqb_eq in H; auto.
Qed.

Lemma year4_digits c1 c2 c3 c4 :
  year4 c1 c2 c3 c4 = true ->
  Char.is_digit c1 = true /\ Char.is_digit c2 = true
  /\ Char.is_digit c3 = true /\ Char.is_digit c4 = true.
Proof.
  unfold year4. intros H.
  apply andb_true_iff in H as [H H4]. apply andb_true_iff in H as [H H3].
  repeat split; auto;
    apply orb_true_iff in H as [H|H]; apply andb_true_iff in H as [Ha Hb];
    apply N.eqb_eq in Ha; apply N.eqb_eq in Hb; subst; reflexivity.
Qed.

Lemma year_prefix_token y post :
  is_year_text y = true -> year_prefix (y ++ post) = Some (y, post).
Proof.
  destruct y as [|c1 [|c2 [|c3 [|c4 [|c5 y]]]]]; simpl; try discriminate.
  intros H. now rewrite H.
Qed.

Lemma year_prefix_not_ws c s :
  Char.is_ws c = true -> year_prefix (c :: s) = None.
Proof.
  intros Hc. destruct s as [|c2 [|c3 [|c4 r]]]; simpl; auto.
  destruct (year4 c c2 c3 c4) eqn:E; auto.
  apply year4_head in E as [E|E]; subst; discriminate.
Qed.

Lemma year_prefix_not_comma s : year_prefix (Char.comma :: s) = None.
Proof. destruct s as [|c2 [|c3 [|c4 r]]]; reflexivity. Qed.

Lemma last_or_app prev a b : last_or prev (a ++ b) = last_or (last_or prev a) b.
Proof. unfold last_or. apply fold_left_app. Qed.

Lemma last_or_snoc prev a c : last_or prev (a ++ [c]) = Some c.
Proof. rewrite last_or_app. reflexivity. Qed.

Lemma last_or_cons prev c a : last_or prev (c :: a) = last_or (Some c) a.
Proof. reflexivity. Qed.

Lemma last_opt_year y : is_year_text y = true -> exists c1 c4,
    hd_error y = Some c1 /\ last_opt y = Some c4 /\ last y c1 = c4
    /\ Char.is_ws c1 = false /\ (c1 =? Char.comma)%N = false.
Proof.
  destruct y as [|c1 [|c2 [|c3 [|c4 [|c5 y]]]]]; simpl; try discriminate.
  intros H. exists c1, c4. repeat split; auto;
    apply year4_head in H as [H|H]; subst; reflexivity.
Qed.

Lemma no_year_start_cons n c s :
  no_year_start (S n) (c :: s) = true ->
  year_prefix (c :: s) = None /\ no_year_start n s = true.
Proof.
  intros H. change (no_year_start (S n) (c :: s))
    with (match year_prefix (c :: s) with
          | Some _ => false
          | None => no_year_start n s
          end) in H.
  destruct (year_prefix (c :: s)); [discriminate|]. auto.
Qed.

Lemma match_year_from_cons prev c s :
  match_year_from prev (c :: s) =
  match year_prefix (c :: s) with
  | Some (m, r) =>
      if boundary prev (Some c) && boundary (Some (last m c)) (hd_error r)
      then Some m
      else match_year_from (Some c) s
  | None => match_year_from (Some c) s
  end.
Proof. reflexivity. Qed.

Lemma ws_then_year_cons c s :
  ws_then_year (c :: s) =
  if Char.is_ws c
  then match ws_then_year s with
       | Some r => Some r
       | None => option_map snd (year_prefix (c :: s))
       end
  else option_map snd (year_prefix (c :: s)).
Proof. reflexivity. Qed.

(** The scan for the year passes over a prefix in which no 19dd/20dd
    starts. *)
Lemma match_year_from_skip a : forall prev b,
  no_year_start (List.length a) (a ++ b) = true ->
  match_year_from prev (a ++ b) = match_year_from (last_or prev a) b.
Proof.
  induction a as [|c a IH]; intros prev b H; [reflexivity|].
  change ((c :: a) ++ b) with (c :: (a ++ b)) in *.
  apply no_year_start_cons in H as [E H].
  rewrite match_year_from_cons, E, last_or_cons. now apply IH.
Qed.

Lemma match_year_from_token prev y post :
  is_year_text y = true ->
  token_delimited prev y (hd_error post) = true ->
  match_year_from prev (y ++ post) = Some y.
Proof.
  intros Hy Hd. unfold token_delimited in Hd.
  destruct (last_opt_year y Hy) as (c1 & c4 & H1 & H4 & Hl & _).
  rewrite H1, H4 in Hd.
  destruct y as [|d y]; [discriminate|]. simpl in H1. inversion H1; subst d.
  change ((c1 :: y) ++ post) with (c1 :: (y ++ post)).
  rewrite match_year_from_cons.
  change (c1 :: (y ++ post)) with ((c1 :: y) ++ post).
  rewrite (year_prefix_token _ post Hy). rewrite Hl, Hd. reflexivity.
Qed.

(** The leftmost year token. *)
Lemma match_year_first a y post :
  is_year_text y = true ->
  no_year_start (List.length a) (a ++ y ++ post) = true ->
  token_delimited (last_opt a) y (hd_error post) = true ->
  match_year (a ++ y ++ post) = Some y.
Proof.
  intros Hy Hn Hd. unfold match_year.
  rewrite match_year_from_skip by exact Hn.
  now apply match_year_from_token.
Qed.

(** No token, no match. *)
Lemma match_year_from_none s : forall prev,
  (forall a y post, s = a ++ y ++ post -> is_year_text y = true ->
                    token_delimited (last_or prev a) y (hd_error post) = false) ->
  match_year_from prev s = None.
Proof.
  induction s as [|c s IH]; intros prev H; [reflexivity|].
  rewrite match_year_from_cons.
  assert (Hrec : match_year_from (Some c) s = None).
  { apply IH. intros a y post Hs Hy.
    specialize (H (c :: a) y post). rewrite last_or_cons in H.
    apply H; [simpl; now rewrite Hs|exact Hy]. }
  destruct (year_prefix (c :: s)) as [[m r]|] eqn:E; [|exact Hrec].
  assert (Hm : c :: s = m ++ r /\ is_year_text m = true).
  { destruct s as [|c2 [|c3 [|c4 r']]]; simpl in E; try discriminate.
    destruct (year4 c c2 c3 c4) eqn:E4; [|discriminate].
    inversion E; subst. split; [reflexivity|exact E4]. }
  destruct Hm as [Hs Hy].
  specialize (H [] m r Hs Hy). unfold token_delimited in H. simpl in H.
  destruct (last_opt_year m Hy) as (c1 & c4 & H1 & H4 & Hl & _).
  destruct m as [|d m]; [discriminate|]. simpl in Hs. inversion Hs; subst d.
  simpl in H1. inversion H1; subst c1.
  rewrite H4 in H. rewrite Hl.
  simpl hd_error in H. rewrite H. rewrite <- H3. exact Hrec.
Qed.

(** ** The strip pattern *)

Lemma ws_then_year_some l y post :
  forallb Char.is_ws l = true -> is_year_text y = true ->
  ws_then_year (l ++ y ++ post) = Some post.
Proof.
  intros Hl Hy. induction l as [|c l IH].
  - simpl app. destruct (last_opt_year y Hy) as (c1 & c4 & H1 & _ & _ & Hws & _).
    pose proof (year_prefix_token y post Hy) as HP.
    destruct y as [|d y]; [discriminate|]. simpl in H1. inversion H1; subst d.
    change ((c1 :: y) ++ post) with (c1 :: (y ++ post)) in *.
    rewrite ws_then_year_cons, Hws, HP. reflexivity.
  - simpl in Hl. apply andb_true_iff in Hl as [Hc Hl].
    change ((c :: l) ++ y ++ post) with (c :: (l ++ y ++ post)).
    rewrite ws_then_year_cons, Hc, (IH Hl). reflexivity.
Qed.

Lemma ws_then_year_none a : forall b,
  no_year_start (List.length a) (a ++ b) = true ->
  forallb Char.is_ws a = false ->
  ws_then_year (a ++ b) = None.
Proof.
  induction a as [|c a IH]; intros b Hn Hw; [discriminate|].
  change ((c :: a) ++ b) with (c :: (a ++ b)) in *.
  apply no_year_start_cons in Hn as [E Hn].
  rewrite ws_then_year_cons, E. simpl in Hw. destruct (Char.is_ws c); [|reflexivity].
  simpl in Hw. now rewrite (IH b Hn Hw).
Qed.

Lemma strip_here_lead lead y post :
  is_lead lead = true -> is_year_text y = true ->
  strip_here (lead ++ y ++ post) = Some post.
Proof.
  intros Hl Hy. destruct lead as [|c lead].
  - simpl app.
    destruct (last_opt_year y Hy) as (c1 & c4 & H1 & _ & _ & _ & Hc).
    pose proof (ws_then_year_some [] y post eq_refl Hy) as HW. simpl in HW.
    destruct y as [|d y]; [discriminate|]. simpl in H1. inversion H1; subst d.
    simpl app in *. unfold strip_here. rewrite Hc. exact HW.
  - simpl in Hl. apply andb_true_iff in Hl as [Hc Hl].
    change ((c :: lead) ++ y ++ post) with (c :: (lead ++ y ++ post)).
    unfold strip_here. destruct (c =? Char.comma)%N eqn:Ec.
    + now rewrite (ws_then_year_some lead y post Hl Hy).
    + simpl in Hc.
      apply (ws_then_year_some (c :: lead) y post); [|exact Hy].
      simpl. now rewrite Hc, Hl.
Qed.

Lemma last_opt_all_ws a :
  a <> [] -> forallb Char.is_ws a = true ->
  exists c, last_opt a = Some c /\ Char.is_ws c = true.
Proof.
  induction a as [|x a IH]; [congruence|]. intros _ H.
  simpl in H. apply andb_true_iff in H as [Hx Ha].
  destruct a as [|y a].
  - exists x. auto.
  - destruct (IH ltac:(discriminate) Ha) as [c [Hc1 Hc2]].
    exists c. split; [|exact Hc2].
    unfold last_opt in *. rewrite last_or_cons.
    rewrite last_or_cons in Hc1. rewrite last_or_cons. exact Hc1.
Qed.

Lemma lead_maximal_not_ws pre lead :
  pre <> [] -> lead_maximal pre lead = true ->
  forallb Char.is_ws (pre ++ lead) = false.
Proof.
  intros Hne Hmax.
  destruct (forallb Char.is_ws (pre ++ lead)) eqn:E; [|reflexivity].
  rewrite forallb_app in E. apply andb_true_iff in E as [Hp Hl].
  destruct (last_opt_all_ws pre Hne Hp) as [c [Hc1 Hc2]].
  unfold lead_maximal in Hmax. rewrite Hc1 in Hmax.
  simpl in Hmax. rewrite Hc2, Hl in Hmax. rewrite orb_true_r in Hmax.
  discriminate.
Qed.

Lemma lead_maximal_tail c pre lead :
  pre <> [] -> lead_maximal (c :: pre) lead = lead_maximal pre lead.
Proof.
  intros Hne. unfold lead_maximal, last_opt.
  destruct pre as [|x pre]; [congruence|]. reflexivity.
Qed.

(** The strip pattern does not match where [pre] starts. *)
Lemma strip_here_none pre lead rest :
  pre <> [] ->
  no_year_start (List.length (pre ++ lead)) ((pre ++ lead) ++ rest) = true ->
  lead_maximal pre lead = true ->
  strip_here ((pre ++ lead) ++ rest) = None.
Proof.
  intros Hne Hn Hmax.
  pose proof (lead_maximal_not_ws pre lead Hne Hmax) as Hws.
  pose proof (ws_then_year_none (pre ++ lead) rest Hn Hws) as HW.
  destruct pre as [|c pre]; [congruence|].
  change (((c :: pre) ++ lead) ++ rest) with (c :: ((pre ++ lead) ++ rest)) in *.
  unfold strip_here. destruct (c =? Char.comma)%N eqn:Ec; [|exact HW].
  rewrite HW.
  assert (Hn' : no_year_start (List.length (pre ++ lead)) ((pre ++ lead) ++ rest) = true).
  { apply (no_year_start_cons _ c). exact Hn. }
  rewrite ws_then_year_none; [reflexivity|exact Hn'|].
  destruct pre as [|x pre].
  - simpl. unfold lead_maximal in Hmax. simpl in Hmax.
    rewrite Ec in Hmax. simpl in Hmax. now apply negb_true_iff in Hmax.
  - apply lead_maximal_not_ws; [discriminate|].
    rewrite lead_maximal_tail in Hmax by discriminate. exact Hmax.
Qed.

Lemma replace_year_unfold s :
  replace_year s =
  match strip_here s with
  | Some r => r
  | None => match s with [] => [] | c :: s' => c :: replace_year s' end
  end.
Proof. destruct s; reflexivity. Qed.

(** The strip pattern removes the token and its lead, and nothing else. *)
Lemma replace_year_token pre : forall lead y post,
  is_lead lead = true -> is_year_text y = true ->
  no_year_start (List.length (pre ++ lead)) ((pre ++ lead) ++ y ++ post) = true ->
  lead_maximal pre lead = true ->
  replace_year ((pre ++ lead) ++ y ++ post) = pre ++ post.
Proof.
  induction pre as [|c pre IH]; intros lead y post Hl Hy Hn Hmax.
  - simpl app. rewrite replace_year_unfold.
    now rewrite (strip_here_lead lead y post Hl Hy).
  - rewrite replace_year_unfold.
    rewrite (strip_here_none (c :: pre) lead (y ++ post) ltac:(discriminate) Hn Hmax).
    change (((c :: pre) ++ lead) ++ y ++ post)
      with (c :: ((pre ++ lead) ++ y ++ post)) in *.
    cbv iota. change ((c :: pre) ++ post) with (c :: (pre ++ post)).
    f_equal. apply IH; auto.
    + apply (no_year_start_cons _ c). exact Hn.
    + destruct pre as [|x pre]; [reflexivity|].
      rewrite lead_maximal_tail in Hmax by discriminate. exact Hmax.
Qed.

(* ================================================================== *)
(** * parsePublicationInfo *)
(* ================================================================== *)

Lemma year_prefix_nondigit c s : Char.is_digit c = false -> year_prefix (c :: s) = None.
Proof.
  intros Hc. destruct s as [|c2 [|c3 [|c4 r]]]; simpl; auto.
  destruct (year4 c c2 c3 c4) eqn:E; auto.
  apply year4_digits in E as [E _]. congruence.
Qed.

Lemma no_year_start_suffix a : forall b,
  no_year_start (List.length a + List.length b) (a ++ b) = true ->
  no_year_start (List.length b) b = true.
Proof.
  induction a as [|c a IH]; intros b H; [exact H|].
  apply IH. apply (no_year_start_cons _ c). exact H.
Qed.

(** A string without a 19dd/20dd in it has no year token. *)
Lemma no_year_inside_no_token s a y post :
  no_year_inside s = true -> s = a ++ y ++ post -> is_year_text y = true -> False.
Proof.
  unfold no_year_inside. intros H Hs Hy. subst s.
  rewrite length_app in H. apply no_year_start_suffix in H.
  pose proof (year_prefix_token y post Hy) as HP.
  destruct y as [|c y]; [discriminate|].
  change ((c :: y) ++ post) with (c :: (y ++ post)) in *.
  simpl List.length in H. apply no_year_start_cons in H as [H _]. congruence.
Qed.

Lemma no_year_start_intro n c s :
  year_prefix (c :: s) = None -> no_year_start n s = true ->
  no_year_start (S n) (c :: s) = true.
Proof.
  intros H1 H2.
  change (no_year_start (S n) (c :: s))
    with (match year_prefix (c :: s) with
          | Some _ => false
          | None => no_year_start n s
          end).
  now rewrite H1.
Qed.

(** Two code units that are not digits, after a string without a
    19dd/20dd: none starts before what follows them. *)
Lemma no_year_start_extend b c1 c2 rest :
  no_year_inside b = true ->
  Char.is_digit c1 = false -> Char.is_digit c2 = false ->
  no_year_start (List.length (b ++ [c1; c2])) ((b ++ [c1; c2]) ++ rest) = true.
Proof.
  unfold no_year_inside. intros Hb H1 H2.
  induction b as [|x b IH].
  - change (no_year_start 2 (c1 :: c2 :: rest) = true).
    apply no_year_start_intro; [now apply year_prefix_nondigit|].
    apply no_year_start_intro; [now apply year_prefix_nondigit|reflexivity].
  - apply no_year_start_cons in Hb as [Hx Hb]. specialize (IH Hb).
    change (no_year_start (S (List.length (b ++ [c1; c2])))
              (x :: ((b ++ [c1; c2]) ++ rest)) = true).
    apply no_year_start_intro; [|exact IH].
    destruct b as [|y1 [|y2 [|y3 b']]]; simpl.
    + destruct rest as [|c3 rest]; auto.
      destruct (year4 x c1 c2 c3) eqn:E; auto.
      apply year4_digits in E as (_ & E & _). congruence.
    + destruct (year4 x y1 c1 c2) eqn:E; auto.
      apply year4_digits in E as (_ & _ & E & _). congruence.
    + destruct (year4 x y1 y2 c1) eqn:E; auto.
      apply year4_digits in E as (_ & _ & _ & E). congruence.
    + simpl in Hx. destruct (year4 x y1 y2 y3); [discriminate|reflexivity].
Qed.

Lemma trimStart_app a b :
  trimStart (a ++ b) = match trimStart a with
                       | [] => trimStart b
                       | t => t ++ b
                       end.
Proof.
  destruct (trimStart_split a) as [l [H1 H2]].
  destruct (trimStart a) as [|x t] eqn:E.
  - rewrite app_nil_r in H1. subst a. now apply trimStart_app_ws.
  - pose proof (trimStart_clean a) as Hc. rewrite E in Hc. simpl in Hc.
    apply negb_true_iff in Hc.
    rewrite H1 at 1. rewrite <- app_assoc, trimStart_app_ws by exact H2.
    simpl. now rewrite Hc.
Qed.

Lemma trimStart_idem s : trimStart (trimStart s) = trimStart s.
Proof. apply trimStart_id, trimStart_clean. Qed.

Lemma trim_trimStart s : trim (trimStart s) = trim s.
Proof. unfold trim. now rewrite trimStart_idem. Qed.

Lemma no_year_inside_trimStart s :
  no_year_inside s = true -> no_year_inside (trimStart s) = true.
Proof.
  unfold no_year_inside. intros H.
  destruct (trimStart_split s) as [l [H1 _]].
  rewrite H1, length_app in H. now apply no_year_start_suffix in H.
Qed.

(** The segment ["B, 1999"], trimmed. *)
Lemma trim_segment_1999 B :
  trim (B ++ js ", 1999") = (trimStart B ++ [Char.comma; Char.space]) ++ js "1999" ++ [].
Proof.
  unfold trim. rewrite trimStart_app.
  assert (H : forall t, trimEnd (t ++ js ", 1999") = t ++ js ", 1999").
  { intros t. apply trimEnd_id. unfold ends_clean.
    rewrite rev_app_distr. reflexivity. }
  destruct (trimStart B) as [|x t] eqn:E.
  - reflexivity.
  - rewrite H, <- app_assoc. reflexivity.
Qed.

Lemma split_nil sep : split sep [] = [[]].
Proof. reflexivity. Qed.

Lemma parsePublicationInfo_parts (s : jsstring) :
  s <> [] ->
  let parts := split ParserService.sep_dash s in
  ParserService.parsePublicationInfo (VStr s)
  = Ok (PubInfo.mk (ParserService.trimmed_part parts 0)
          (fst (ParserService.journal_year parts))
          (snd (ParserService.journal_year parts))
          (ParserService.trimmed_part parts 2)).
Proof.
  intros Hs parts. unfold ParserService.parsePublicationInfo.
  destruct s as [|c s]; [congruence|].
  change (negb (truthy (VStr (c :: s)))) with false. cbv iota.
  change (string_receiver (VStr (c :: s)) "split" "summary.split")
    with (@Ok jsstring (c :: s)).
  unfold bind. fold parts. destruct (ParserService.journal_year parts).
  reflexivity.
Qed.

Lemma journal_year_second (p0 p1 : jsstring) (rest : list jsstring) :
  p1 <> [] ->
  ParserService.journal_year (p0 :: p1 :: rest)
  = match match_year (trim p1) with
    | Some m => (VStr (trim (replace_year (trim p1))), VNum (parseInt m))
    | None => (VStr (trim p1), VNull)
    end.
Proof. intros H. destruct p1; [congruence|reflexivity]. Qed.

Lemma trimmed_part_nonblank (parts : list jsstring) (i : nat) (p : jsstring) :
  nth_error parts i = Some p -> trim p <> [] ->
  ParserService.trimmed_part parts i = VStr (trim p).
Proof.
  intros H Hp. unfold ParserService.trimmed_part. rewrite H.
  unfold or_else. simpl. destruct (trim p); [congruence|reflexivity].
Qed.

Lemma last_opt_snoc_two a c d : last_opt (a ++ [c; d]) = Some d.
Proof. unfold last_opt. rewrite last_or_app. reflexivity. Qed.

(** C6 as stated fails: with a year token in the journal text the first
    token is the year, and it is that token that is cut out of the journal. *)
Lemma parsePublicationInfo_first_token :
  ParserService.parsePublicationInfo
    (VStr (js "A Smith - Census 2001 report, 1999 - Wiley"))
  = Ok (PubInfo.mk (VStr (js "A Smith")) (VStr (js "Census report, 1999"))
          (VNum 2001) (VStr (js "Wiley")))
  /\ ParserService.parsePublicationInfo
       (VStr (js "A Smith - Census 2001 report, 1999 - Wiley"))
     <> Ok (PubInfo.mk (VStr (js "A Smith")) (VStr (js "Census 2001 report"))
              (VNum 1999) (VStr (js "Wiley"))).
Proof.
  split; [vm_compute; reflexivity|].
  vm_compute. intros H. discriminate H.
Qed.

(** The strip pattern has no word boundary: it can cut digits out of a
    longer number that comes before the year. *)
Example parsePublicationInfo_strips_inside_number :
  ParserService.parsePublicationInfo
    (VStr (js "A Smith - Report 12001, 1999 - Wiley"))
  = Ok (PubInfo.mk (VStr (js "A Smith")) (VStr (js "Report 1, 1999"))
          (VNum 1999) (VStr (js "Wiley"))).
Proof. vm_compute. reflexivity. Qed.

(** An empty second segment gives no journal. *)
Example parsePublicationInfo_empty_segment :
  ParserService.parsePublicationInfo (VStr (js "A Smith -  - Wiley"))
  = Ok (PubInfo.mk (VStr (js "A Smith")) VNull VNull (VStr (js "Wiley"))).
Proof. vm_compute. reflexivity. Qed.

Lemma split_nonempty (summary p0 p1 : jsstring) (rest : list jsstring) :
  split ParserService.sep_dash summary = p0 :: p1 :: rest -> summary <> [].
Proof. intros H Hs. subst summary. discriminate H. Qed.

(** The summaries whose segments are A, "B, 1999" and C. *)
Lemma parsePublicationInfo_1999 (summary A B C : jsstring) :
  split ParserService.sep_dash summary = [A; B ++ js ", 1999"; C] ->
  trim A <> [] -> trim C <> [] ->
  no_year_inside B = true ->
  ParserService.parsePublicationInfo (VStr summary)
  = Ok (PubInfo.mk (VStr (trim A)) (VStr (trim B)) (VNum 1999) (VStr (trim C))).
Proof.
  intros Hsplit HA HC HB.
  rewrite (parsePublicationInfo_parts summary (split_nonempty _ _ _ _ Hsplit)).
  cbv zeta. rewrite Hsplit.
  rewrite (trimmed_part_nonblank [A; B ++ js ", 1999"; C] 0 A eq_refl HA).
  rewrite (trimmed_part_nonblank [A; B ++ js ", 1999"; C] 2 C eq_refl HC).
  rewrite journal_year_second by (destruct B; discriminate).
  rewrite trim_segment_1999.
  pose proof (no_year_start_extend (trimStart B) Char.comma Char.space
                (js "1999" ++ []) (no_year_inside_trimStart B HB)
                eq_refl eq_refl) as Hn.
  rewrite (match_year_first (trimStart B ++ [Char.comma; Char.space])
             (js "1999") [] eq_refl Hn).
  2:{ unfold token_delimited. rewrite last_opt_snoc_two. reflexivity. }
  rewrite (replace_year_token (trimStart B) [Char.comma; Char.space]
             (js "1999") [] eq_refl eq_refl Hn).
  2:{ unfold lead_maximal. destruct (last_opt (trimStart B)); [|reflexivity].
      simpl. now rewrite andb_false_r. }
  rewrite app_nil_r, trim_trimStart. reflexivity.
Qed.

(** C6, amended.  (1) For every summary whose segments, split on " - ", are
    A, "B, 1999" and C, with A and C not blank and no 19dd/20dd digit
    sequence in B, parsing yields authors = A, journal = B, year = 1999 and
    publisher = C, each trimmed.  (2) When the first 19dd/20dd digit
    sequence of the trimmed, non-empty second segment is a token delimited
    by word boundaries, that token is the publication year, and the journal
    is the segment without the token and its lead (an optional comma
    followed by white space), trimmed.  (3) When the non-empty second
    segment has no such token, the publication year is null and the journal
    is the whole trimmed segment. *)
Theorem parsePublicationInfo_spec :
  (forall summary A B C : jsstring,
      split ParserService.sep_dash summary = [A; B ++ js ", 1999"; C] ->
      trim A <> [] -> trim C <> [] ->
      no_year_inside B = true ->
      ParserService.parsePublicationInfo (VStr summary)
      = Ok (PubInfo.mk (VStr (trim A)) (VStr (trim B)) (VNum 1999)
              (VStr (trim C))))
  /\ (forall (summary p0 p1 : jsstring) (rest : list jsstring)
             (pre lead y post : jsstring),
         split ParserService.sep_dash summary = p0 :: p1 :: rest ->
         trim p1 = (pre ++ lead) ++ y ++ post ->
         is_year_text y = true ->
         token_delimited (last_opt (pre ++ lead)) y (hd_error post) = true ->
         no_year_start (List.length (pre ++ lead)) (trim p1) = true ->
         is_lead lead = true ->
         lead_maximal pre lead = true ->
         exists pi,
           ParserService.parsePublicationInfo (VStr summary) = Ok pi
           /\ PubInfo.year pi = VNum (parseInt y)
           /\ PubInfo.journal pi = VStr (trim (pre ++ post)))
  /\ (forall (summary p0 p1 : jsstring) (rest : list jsstring),
         split ParserService.sep_dash summary = p0 :: p1 :: rest ->
         p1 <> [] ->
         (forall a y post, trim p1 = a ++ y ++ post -> is_year_text y = true ->
                           token_delimited (last_opt a) y (hd_error post) = false) ->
         exists pi,
           ParserService.parsePublicationInfo (VStr summary) = Ok pi
           /\ PubInfo.year pi = VNull
           /\ PubInfo.journal pi = VStr (trim p1)).
Proof.
  split; [|split].
  - intros summary A B C. apply parsePublicationInfo_1999.
  - intros summary p0 p1 rest pre lead y post Hsplit Hseg Hy Hd Hn Hl Hmax.
    rewrite (parsePublicationInfo_parts summary (split_nonempty _ _ _ _ Hsplit)).
    cbv zeta. rewrite Hsplit. eexists. split; [reflexivity|].
    assert (Hp1 : p1 <> []).
    { intros E. subst p1. destruct y as [|c y]; [discriminate|].
      destruct (pre ++ lead); discriminate Hseg. }
    cbn [PubInfo.year PubInfo.journal].
    rewrite (journal_year_second p0 p1 rest Hp1).
    rewrite Hseg in *.
    rewrite (match_year_first (pre ++ lead) y post Hy Hn Hd).
    rewrite (replace_year_token pre lead y post Hl Hy Hn Hmax).
    split; reflexivity.
  - intros summary p0 p1 rest Hsplit Hp1 Hnone.
    rewrite (parsePublicationInfo_parts summary (split_nonempty _ _ _ _ Hsplit)).
    cbv zeta. rewrite Hsplit. eexists. split; [reflexivity|].
    cbn [PubInfo.year PubInfo.journal].
    rewrite (journal_year_second p0 p1 rest Hp1).
    unfold match_year. rewrite (match_year_from_none (trim p1) None Hnone).
    split; reflexivity.
Qed.

Lemma parsePublicationInfo_spec_witness :
  ParserService.parsePublicationInfo
    (VStr (js "JL Harper - Population biology of plants., 1999 - cabdirect.org"))
  = Ok (PubInfo.mk (VStr (trim (js "JL Harper")))
          (VStr (trim (js "Population biology of plants.")))
          (VNum 1999) (VStr (trim (js "cabdirect.org"))))
  /\ (exists pi,
         ParserService.parsePublicationInfo
           (VStr (js "A Smith - Census 2001 report, 1999 - Wiley")) = Ok pi
         /\ PubInfo.year pi = VNum (parseInt (js "2001"))
         /\ PubInfo.journal pi = VStr (trim (js "Census" ++ js " report, 1999")))
  /\ (exists pi,
         ParserService.parsePublicationInfo
           (VStr (js "A Smith - Nature - Springer")) = Ok pi
         /\ PubInfo.year pi = VNull
         /\ PubInfo.journal pi = VStr (trim (js "Nature"))).
Proof.
  split; [|split].
  - apply (proj1 parsePublicationInfo_spec
             (js "JL Harper - Population biology of plants., 1999 - cabdirect.org")
             (js "JL Harper") (js "Population biology of plants.")
             (js "cabdirect.org")).
    + vm_compute; reflexivity.
    + vm_compute; discriminate.
    + vm_compute; discriminate.
    + vm_compute; reflexivity.
  - apply (proj1 (proj2 parsePublicationInfo_spec)
             (js "A Smith - Census 2001 report, 1999 - Wiley")
             (js "A Smith") (js "Census 2001 report, 1999") [js "Wiley"]
             (js "Census") (js " ") (js "2001") (js " report, 1999"));
      vm_compute; reflexivity.
  - apply (proj2 (proj2 parsePublicationInfo_spec)
             (js "A Smith - Nature - Springer")
             (js "A Smith") (js "Nature") [js "Springer"]).
    + vm_compute; reflexivity.
    + vm_compute; discriminate.
    + intros a y post H Hy. exfalso.
      apply (no_year_inside_no_token (trim (js "Nature")) a y post);
        [vm_compute; reflexivity|exact H|exact Hy].
Defined.

Example parsePublicationInfo_harper :
  ParserService.parsePublicationInfo
    (VStr (js "JL Harper - Population biology of plants., 1977 - cabdirect.org"))
  = Ok (PubInfo.mk (VStr (js "JL Harper"))
          (VStr (js "Population biology of plants."))
          (VNum 1977) (VStr (js "cabdirect.org"))).
Proof. vm_compute. reflexivity. Qed.

(** ** Summaries written with the separator *)

Lemma starts_with_sep_dash x s :
  starts_with ParserService.sep_dash (x :: s) = true -> hd_error s = Some 45%N.
Proof.
  change ParserService.sep_dash with [32; 45; 32]%N.
  destruct s as [|y s]; cbn [starts_with hd_error].
  - rewrite andb_false_r. discriminate.
  - intros H. apply andb_true_iff in H as [_ H].
    apply andb_true_iff in H as [H _]. apply N.eqb_eq in H. now subst.
Qed.

Lemma starts_with_no_dash x a rest :
  no_dash a = true ->
  starts_with ParserService.sep_dash (x :: a ++ ParserService.sep_dash ++ rest) = false.
Proof.
  intros Ha.
  destruct (starts_with ParserService.sep_dash
              (x :: a ++ ParserService.sep_dash ++ rest)) eqn:E; [|reflexivity].
  apply starts_with_sep_dash in E.
  destruct a as [|y a]; [discriminate E|].
  simpl in E. inversion E; subst. discriminate Ha.
Qed.

Lemma starts_with_no_dash_last x a :
  no_dash a = true -> starts_with ParserService.sep_dash (x :: a) = false.
Proof.
  intros Ha.
  destruct (starts_with ParserService.sep_dash (x :: a)) eqn:E; [|reflexivity].
  apply starts_with_sep_dash in E.
  destruct a as [|y a]; [discriminate E|].
  simpl in E. inversion E; subst. discriminate Ha.
Qed.

Lemma split_go_segment a : forall cur rest,
  no_dash a = true ->
  split_go ParserService.sep_dash (a ++ ParserService.sep_dash ++ rest) 0 cur
  = (rev cur ++ a) :: split_go ParserService.sep_dash rest 0 [].
Proof.
  induction a as [|x a IH]; intros cur rest Ha.
  - rewrite app_nil_r. destruct rest; reflexivity.
  - simpl in Ha. apply andb_true_iff in Ha as [Hx Ha].
    change ((x :: a) ++ ParserService.sep_dash ++ rest)
      with (x :: (a ++ ParserService.sep_dash ++ rest)).
    pose proof (starts_with_no_dash x a rest Ha) as Hs.
    change (split_go ParserService.sep_dash
              (x :: (a ++ ParserService.sep_dash ++ rest)) 0 cur)
      with (if starts_with ParserService.sep_dash
                 (x :: (a ++ ParserService.sep_dash ++ rest))
            then rev cur :: split_go ParserService.sep_dash
                              (a ++ ParserService.sep_dash ++ rest)
                              (List.length ParserService.sep_dash - 1) []
            else split_go ParserService.sep_dash
                   (a ++ ParserService.sep_dash ++ rest) 0 (x :: cur)).
    rewrite Hs, (IH (x :: cur) rest Ha). simpl rev.
    now rewrite <- app_assoc.
Qed.

Lemma split_go_last a : forall cur,
  no_dash a = true ->
  split_go ParserService.sep_dash a 0 cur = [rev cur ++ a].
Proof.
  induction a as [|x a IH]; intros cur Ha.
  - simpl. now rewrite app_nil_r.
  - simpl in Ha. apply andb_true_iff in Ha as [Hx Ha].
    pose proof (starts_with_no_dash_last x a Ha) as Hs.
    change (split_go ParserService.sep_dash (x :: a) 0 cur)
      with (if starts_with ParserService.sep_dash (x :: a)
            then rev cur :: split_go ParserService.sep_dash a
                              (List.length ParserService.sep_dash - 1) []
            else split_go ParserService.sep_dash a 0 (x :: cur)).
    rewrite Hs, (IH (x :: cur) Ha). simpl rev. now rewrite <- app_assoc.
Qed.

(** Three texts without a hyphen, written with the separator between them,
    are the three segments of the summary. *)
Lemma split_three_segments (A B C : jsstring) :
  no_dash A = true -> no_dash B = true -> no_dash C = true ->
  split ParserService.sep_dash
    (A ++ ParserService.sep_dash ++ B ++ ParserService.sep_dash ++ C)
  = [A; B; C].
Proof.
  intros HA HB HC. unfold split.
  rewrite (split_go_segment A [] _ HA), (split_go_segment B [] _ HB).
  now rewrite (split_go_last C [] HC).
Qed.

(** The summaries "A - B, 1999 - C" written out, for texts without
    hyphens. *)
Corollary parsePublicationInfo_plain (A B C : jsstring) :
  no_dash A = true -> no_dash B = true -> no_dash C = true ->
  trim A <> [] -> trim C <> [] -> no_year_inside B = true ->
  ParserService.parsePublicationInfo
    (VStr (A ++ js " - " ++ (B ++ js ", 1999") ++ js " - " ++ C))
  = Ok (PubInfo.mk (VStr (trim A)) (VStr (trim B)) (VNum 1999) (VStr (trim C))).
Proof.
  intros HA HB HC HtA HtC Hy.
  apply parsePublicationInfo_1999; auto.
  change (js " - ") with ParserService.sep_dash.
  apply split_three_segments; auto.
  unfold no_dash in *. rewrite forallb_app, HB. reflexivity.
Qed.

(* ================================================================== *)
(** * Further properties of the parser *)
(* ================================================================== *)

Lemma toUpper_is (c k : N) :
  (65 <= k <= 90)%N ->
  (Char.toUpper c =? k)%N = ((c =? k) || (c =? k + 32))%N.
Proof.
  intros Hk. unfold Char.toUpper.
  destruct ((97 <=? c)%N && (c <=? 122)%N) eqn:E.
  - apply andb_true_iff in E as [E1 E2].
    apply N.leb_le in E1. apply N.leb_le in E2.
    destruct (N.eqb_spec (c - 32) k), (N.eqb_spec c k), (N.eqb_spec c (k + 32));
      simpl; try reflexivity; lia.
  - apply andb_false_iff in E.
    destruct (N.eqb_spec c k), (N.eqb_spec c (k + 32)); simpl; try reflexivity.
    destruct E as [E|E]; [apply N.leb_gt in E|apply N.leb_gt in E]; lia.
Qed.

Lemma toUpperCase_pdf (s : jsstring) :
  jsstring_eqb (toUpperCase s) (js "PDF") = is_pdf_format s.
Proof.
  change (js "PDF") with [80; 68; 70]%N.
  destruct s as [|p [|d [|f [|x s]]]]; [reflexivity| | | |].
  - cbn [toUpperCase List.map jsstring_eqb is_pdf_format]. now rewrite andb_false_r.
  - cbn [toUpperCase List.map jsstring_eqb is_pdf_format]. now rewrite !andb_false_r.
  - cbn [toUpperCase List.map jsstring_eqb is_pdf_format].
    rewrite (toUpper_is p 80), (toUpper_is d 68), (toUpper_is f 70) by lia.
    rewrite andb_true_r, andb_assoc. reflexivity.
  - cbn [toUpperCase List.map jsstring_eqb is_pdf_format].
    now rewrite !andb_false_r.
Qed.

Lemma is_pdf_resource_non_pdf (r : value) :
  non_pdf_resource r = true -> ParserService.is_pdf_resource r = Ok false.
Proof.
  unfold non_pdf_resource, resource_ok. intros H.
  apply andb_true_iff in H as [H Hn]. apply andb_true_iff in H as [Hr Hf].
  apply negb_true_iff in Hr, Hn.
  unfold ParserService.is_pdf_resource, get. rewrite Hr. simpl bind.
  destruct (getprop r "file_format") as [| |b|n|s|l|f|g]; try discriminate;
    try reflexivity.
  simpl. now rewrite toUpperCase_pdf, Hn.
Qed.

Lemma is_pdf_resource_pdf (r : value) (ff : jsstring) :
  nullish r = false -> getprop r "file_format" = VStr ff ->
  is_pdf_format ff = true ->
  ParserService.is_pdf_resource r = Ok true.
Proof.
  intros Hr Hf Hp. unfold ParserService.is_pdf_resource, get.
  rewrite Hr. simpl bind. rewrite Hf. simpl. now rewrite toUpperCase_pdf, Hp.
Qed.

Lemma find_skips_non_pdf (pre rest : list value) :
  forallb non_pdf_resource pre = true ->
  ParserService.find (pre ++ rest) = ParserService.find rest.
Proof.
  induction pre as [|x pre IH]; intros H; [reflexivity|].
  simpl in H. apply andb_true_iff in H as [Hx H].
  simpl. rewrite (is_pdf_resource_non_pdf x Hx). simpl. now apply IH.
Qed.

(** X1.  [extractPdfUrl] visits the entries of [resources] in order.  It
    passes over every entry that is not null and whose [file_format] is
    absent, null or a string other than PDF; it returns the link (null when
    there is none) of the first entry whose format is PDF in any letter
    case, whatever follows it; it throws at the first entry that is null or
    undefined, or whose [file_format] is there and is not a string,
    whatever follows it; it returns null when every entry is passed over,
    and when [resources] is not an array.  Every entry is of one of these
    four kinds. *)
Theorem extractPdfUrl_first_pdf :
  (forall (pre post : list value) (r : value) (ff : jsstring),
      forallb non_pdf_resource pre = true ->
      nullish r = false ->
      getprop r "file_format" = VStr ff ->
      is_pdf_format ff = true ->
      ParserService.extractPdfUrl (VArr (pre ++ r :: post))
      = Ok (or_else (getprop r "link") VNull))
  /\ (forall (pre post : list value) (r : value),
         forallb non_pdf_resource pre = true ->
         nullish r = true ->
         ParserService.extractPdfUrl (VArr (pre ++ r :: post))
         = Throw (TypeError (ReadOfNullish r "file_format")))
  /\ (forall (pre post : list value) (r : value),
         forallb non_pdf_resource pre = true ->
         nullish r = false ->
         format_not_string (getprop r "file_format") = true ->
         ParserService.extractPdfUrl (VArr (pre ++ r :: post))
         = Throw (TypeError (NotAFunction "resource.file_format?.toUpperCase")))
  /\ (forall items : list value,
         forallb non_pdf_resource items = true ->
         ParserService.extractPdfUrl (VArr items) = Ok VNull)
  /\ (forall resources : value,
         (forall items, resources <> VArr items) ->
         ParserService.extractPdfUrl resources = Ok VNull)
  /\ (forall r : value,
         non_pdf_resource r = true
         \/ nullish r = true
         \/ (nullish r = false
             /\ format_not_string (getprop r "file_format") = true)
         \/ (nullish r = false
             /\ exists ff : jsstring,
                  getprop r "file_format" = VStr ff /\ is_pdf_format ff = true)).
Proof.
  split; [|split; [|split; [|split; [|split]]]].
  - intros pre post r ff Hpre Hr Hf Hp.
    unfold ParserService.extractPdfUrl.
    rewrite (find_skips_non_pdf pre (r :: post) Hpre).
    simpl ParserService.find. rewrite (is_pdf_resource_pdf r ff Hr Hf Hp).
    simpl. unfold opt_get. now rewrite Hr.
  - intros pre post r Hpre Hr.
    unfold ParserService.extractPdfUrl.
    rewrite (find_skips_non_pdf pre (r :: post) Hpre).
    simpl ParserService.find. unfold ParserService.is_pdf_resource, get.
    rewrite Hr. reflexivity.
  - intros pre post r Hpre Hr Hf.
    unfold ParserService.extractPdfUrl.
    rewrite (find_skips_non_pdf pre (r :: post) Hpre).
    simpl ParserService.find. unfold ParserService.is_pdf_resource, get.
    rewrite Hr. simpl bind.
    destruct (getprop r "file_format"); try discriminate Hf; reflexivity.
  - intros items H. unfold ParserService.extractPdfUrl.
    rewrite <- (app_nil_r items), (find_skips_non_pdf items [] H). reflexivity.
  - intros resources H. destruct resources; try reflexivity.
    exfalso. now apply (H items).
  - intros r. unfold non_pdf_resource, resource_ok.
    destruct (nullish r) eqn:Hr; [now right; left|].
    destruct (getprop r "file_format") as [| |b|n|s|l|f|g] eqn:Hf;
      try (now left); try (right; right; left; split; reflexivity).
    destruct (is_pdf_format s) eqn:Hp.
    + right. right. right. split; [reflexivity|]. exists s. split; reflexivity || exact Hp.
    + now left.
Qed.

Lemma extractPdfUrl_first_pdf_witness :
  ParserService.extractPdfUrl
    (VArr ([VObj [("title", VStr (js "psu.edu")); ("file_format", VStr (js "HTML"));
                  ("link", VStr (js "http://a/b.html"))];
            VObj [("title", VStr (js "no format"))]]
           ++ VObj [("file_format", VStr (js "Pdf")); ("link", VStr (js "http://a/b.pdf"))]
           :: [VNull; VObj [("file_format", VStr (js "PDF"));
                            ("link", VStr (js "http://z/z.pdf"))]]))
  = Ok (or_else
          (getprop (VObj [("file_format", VStr (js "Pdf"));
                          ("link", VStr (js "http://a/b.pdf"))]) "link") VNull)
  /\ ParserService.extractPdfUrl
       (VArr ([VObj [("file_format", VStr (js "HTML"))]]
              ++ VNull
              :: [VObj [("file_format", VStr (js "PDF"));
                        ("link", VStr (js "http://z/z.pdf"))]]))
     = Throw (TypeError (ReadOfNullish VNull "file_format"))
  /\ ParserService.extractPdfUrl
       (VArr ([VObj [("file_format", VStr (js "HTML"))]]
              ++ VObj [("file_format", VNum 5)]
              :: [VObj [("file_format", VStr (js "PDF"));
                        ("link", VStr (js "http://z/z.pdf"))]]))
     = Throw (TypeError (NotAFunction "resource.file_format?.toUpperCase"))
  /\ ParserService.extractPdfUrl
       (VArr [VObj [("file_format", VStr (js "HTML"))]]) = Ok VNull
  /\ ParserService.extractPdfUrl VUndefined = Ok VNull.
Proof.
  split; [|split; [|split; [|split]]].
  - apply (proj1 extractPdfUrl_first_pdf _ _ _ (js "Pdf")); reflexivity.
  - apply (proj1 (proj2 extractPdfUrl_first_pdf)); reflexivity.
  - apply (proj1 (proj2 (proj2 extractPdfUrl_first_pdf))); reflexivity.
  - apply (proj1 (proj2 (proj2 (proj2 extractPdfUrl_first_pdf)))). reflexivity.
  - apply (proj1 (proj2 (proj2 (proj2 (proj2 extractPdfUrl_first_pdf))))).
    intros items H. discriminate H.
Defined.

(** ** Parsing a page of results *)

Lemma truthy_or_else_null (v : value) : truthy (or_else v VNull) = truthy v.
Proof. unfold or_else. destruct (truthy v) eqn:E; [exact E|reflexivity]. Qed.

(** A parsed record is valid exactly when the raw item has a title and an
    identifier. *)
Lemma isValidPublication_raw (item : value) (p : publication) :
  ParserService.parseOrganicResult item = Ok p ->
  ParserService.isValidPublication p = raw_valid item.
Proof.
  intros H. apply parseOrganicResult_inv in H as [_ [pi [_ H]]].
  destruct H as (_ & _ & _ & _ & _ & Ht & Hi).
  unfold ParserService.isValidPublication, raw_valid.
  now rewrite Ht, Hi, !truthy_or_else_null.
Qed.

Lemma mapM_cons_inv {A B} (f : A -> res B) (a : A) (l : list A) (bs : list B) :
  mapM f (a :: l) = Ok bs ->
  exists b bs', bs = b :: bs' /\ f a = Ok b /\ mapM f l = Ok bs'.
Proof.
  simpl. intros H. apply bind_Ok_inv in H as [b [Hb H]].
  apply bind_Ok_inv in H as [bs' [Hbs H]]. inversion H; subst. eauto.
Qed.

(** X2.  When a page of raw items parses, there is one record per item, in
    the order of the items, and the valid records are exactly the records of
    the items that have a title and an identifier: filtering the records is
    parsing the filtered items; so [fetched] is at most the number of
    items. *)
Theorem parse_filter_commute (items : list value) (ps : list publication) :
  ParserService.parseOrganicResults (VArr items) = Ok ps ->
  Forall2 (fun item p => ParserService.parseOrganicResult item = Ok p) items ps
  /\ ParserService.parseOrganicResults (VArr (List.filter raw_valid items))
     = Ok (ParserService.filterValidPublications ps)
  /\ List.length (ParserService.filterValidPublications ps) <= List.length items.
Proof.
  unfold ParserService.parseOrganicResults, ParserService.filterValidPublications.
  revert ps. induction items as [|item items IH]; intros ps H.
  - inversion H; subst. split; [apply Forall2_nil|]. split; [reflexivity|].
    apply Nat.le_refl.
  - apply mapM_cons_inv in H as (p & ps' & -> & Hp & Hps).
    destruct (IH ps' Hps) as (F & Hc & Hl).
    split; [now constructor|].
    cbn [List.filter]. rewrite <- (isValidPublication_raw item p Hp).
    destruct (ParserService.isValidPublication p); split.
    + cbn [mapM]. rewrite Hp. cbn [bind]. rewrite Hc. reflexivity.
    + simpl. lia.
    + exact Hc.
    + simpl. lia.
Qed.

Lemma parse_filter_commute_witness :
  Forall2 (fun item p => ParserService.parseOrganicResult item = Ok p)
    [Scenario.item "a1" "T1"; VObj [("title", VStr (js "no id"))];
     Scenario.item "a3" "T3"]
    [Scenario.pub "a1" "T1";
     mkPublication VNull (VStr (js "no id")) VNull VNull VNull VNull VNull
       (VNum 0) VNull VNull VNull VNull;
     Scenario.pub "a3" "T3"]
  /\ ParserService.parseOrganicResults
       (VArr (List.filter raw_valid
                [Scenario.item "a1" "T1"; VObj [("title", VStr (js "no id"))];
                 Scenario.item "a3" "T3"]))
     = Ok (ParserService.filterValidPublications
             [Scenario.pub "a1" "T1";
              mkPublication VNull (VStr (js "no id")) VNull VNull VNull VNull VNull
                (VNum 0) VNull VNull VNull VNull;
              Scenario.pub "a3" "T3"])
  /\ List.length
       (ParserService.filterValidPublications
          [Scenario.pub "a1" "T1";
           mkPublication VNull (VStr (js "no id")) VNull VNull VNull VNull VNull
             (VNum 0) VNull VNull VNull VNull;
           Scenario.pub "a3" "T3"])
     <= List.length
          [Scenario.item "a1" "T1"; VObj [("title", VStr (js "no id"))];
           Scenario.item "a3" "T3"].
Proof.
  apply (parse_filter_commute
           [Scenario.item "a1" "T1"; VObj [("title", VStr (js "no id"))];
            Scenario.item "a3" "T3"]).
  vm_compute. reflexivity.
Defined.

(** ** The fields of a parsed summary *)

Lemma year_prefix_is_year (s m r : jsstring) :
  year_prefix s = Some (m, r) -> is_year_text m = true.
Proof.
  destruct s as [|c1 [|c2 [|c3 [|c4 s]]]]; simpl; try discriminate.
  destruct (year4 c1 c2 c3 c4) eqn:E; [|discriminate].
  intros H. inversion H; subst. exact E.
Qed.

Lemma match_year_from_is_year (s : jsstring) : forall prev m,
  match_year_from prev s = Some m -> is_year_text m = true.
Proof.
  induction s as [|c s IH]; intros prev m H; [discriminate|].
  rewrite match_year_from_cons in H.
  destruct (year_prefix (c :: s)) as [[m' r]|] eqn:E; [|now apply IH in H].
  destruct (boundary prev (Some c) && boundary (Some (last m' c)) (hd_error r)).
  - inversion H; subst. now apply year_prefix_is_year in E.
  - now apply IH in H.
Qed.

Lemma is_digit_bounds (c : N) :
  Char.is_digit c = true -> (48 <= Z.of_N c <= 57)%Z.
Proof.
  unfold Char.is_digit. intros H. apply andb_true_iff in H as [H1 H2].
  apply N.leb_le in H1. apply N.leb_le in H2. lia.
Qed.

Lemma parseInt_year (y : jsstring) :
  is_year_text y = true -> (1900 <= parseInt y <= 2099)%Z.
Proof.
  destruct y as [|c1 [|c2 [|c3 [|c4 [|c5 y]]]]]; simpl; try discriminate.
  intros H. pose proof (year4_digits _ _ _ _ H) as (D1 & D2 & D3 & D4).
  unfold parseInt. cbn [parseInt_go]. rewrite D1, D2, D3, D4.
  pose proof (is_digit_bounds _ D3). pose proof (is_digit_bounds _ D4).
  unfold year4 in H. apply andb_true_iff in H as [H _].
  apply andb_true_iff in H as [H _].
  apply orb_true_iff in H as [H|H]; apply andb_true_iff in H as [Ha Hb];
    apply N.eqb_eq in Ha; apply N.eqb_eq in Hb; subst; lia.
Qed.

Lemma trimmed_or_null_trim (s : jsstring) :
  trimmed_or_null (VStr (trim s)) = true.
Proof.
  simpl. destruct (trim_clean s) as [H1 H2]. now rewrite H1, H2.
Qed.

Lemma trimmed_part_spec (parts : list jsstring) (i : nat) :
  trimmed_or_null (ParserService.trimmed_part parts i) = true
  /\ ParserService.trimmed_part parts i <> VStr [].
Proof.
  unfold ParserService.trimmed_part.
  destruct (nth_error parts i) as [p|]; [|split; [reflexivity|discriminate]].
  unfold or_else. simpl truthy.
  destruct (trim p) as [|c t] eqn:E; [split; [reflexivity|discriminate]|].
  rewrite <- E. split; [apply trimmed_or_null_trim|]. rewrite E. discriminate.
Qed.

Lemma journal_year_spec (parts : list jsstring) :
  trimmed_or_null (fst (ParserService.journal_year parts)) = true
  /\ year_in_range (snd (ParserService.journal_year parts)).
Proof.
  unfold ParserService.journal_year.
  destruct (nth_error parts 1) as [[|c p1]|];
    try (split; [reflexivity|left; reflexivity]).
  destruct (match_year (trim (c :: p1))) as [m|] eqn:E.
  - split; [apply trimmed_or_null_trim|]. right. eexists. split; [reflexivity|].
    apply parseInt_year. unfold match_year in E.
    now apply match_year_from_is_year in E.
  - split; [apply trimmed_or_null_trim|left; reflexivity].
Qed.

(** X3.  Whatever the summary, when [parsePublicationInfo] returns: the
    authors, the journal and the publisher are null or strings without white
    space at their ends, authors and publisher are never the empty string,
    and the year is null or an integer from 1900 to 2099. *)
Theorem parsePublicationInfo_fields (summary : value) (pi : PubInfo.t) :
  ParserService.parsePublicationInfo summary = Ok pi ->
  trimmed_or_null (PubInfo.authors pi) = true
  /\ trimmed_or_null (PubInfo.journal pi) = true
  /\ trimmed_or_null (PubInfo.publisher pi) = true
  /\ PubInfo.authors pi <> VStr []
  /\ PubInfo.publisher pi <> VStr []
  /\ year_in_range (PubInfo.year pi).
Proof.
  unfold ParserService.parsePublicationInfo.
  destruct (negb (truthy summary)).
  - intros H. inversion H; subst. simpl.
    repeat split; try discriminate. left. reflexivity.
  - intros H. apply bind_Ok_inv in H as [s [_ H]].
    destruct (journal_year_spec (split ParserService.sep_dash s)) as [Hj Hy].
    destruct (ParserService.journal_year (split ParserService.sep_dash s))
      as [j y].
    inversion H; subst. simpl in *.
    destruct (trimmed_part_spec (split ParserService.sep_dash s) 0) as [A1 A2].
    destruct (trimmed_part_spec (split ParserService.sep_dash s) 2) as [P1 P2].
    repeat split; assumption.
Qed.

Lemma parsePublicationInfo_fields_witness :
  trimmed_or_null (VStr (js "JL Harper")) = true
  /\ trimmed_or_null (VStr (js "Population biology of plants.")) = true
  /\ trimmed_or_null (VStr (js "cabdirect.org")) = true
  /\ VStr (js "JL Harper") <> VStr []
  /\ VStr (js "cabdirect.org") <> VStr []
  /\ year_in_range (VNum 1977).
Proof.
  apply (parsePublicationInfo_fields
           (VStr (js "  JL Harper  - Population biology of plants., 1977 -  cabdirect.org "))
           (PubInfo.mk (VStr (js "JL Harper"))
              (VStr (js "Population biology of plants."))
              (VNum 1977) (VStr (js "cabdirect.org")))).
  vm_compute. reflexivity.
Defined.

(** ** Summaries with fewer or more than three segments *)

Lemma split_go_no_occurrence (sep s : jsstring) : forall cur,
  includes sep s = false ->
  split_go sep s 0 cur = [rev cur ++ s].
Proof.
  induction s as [|c s IH]; intros cur H.
  - simpl. now rewrite app_nil_r.
  - change (includes sep (c :: s))
      with (starts_with sep (c :: s) || includes sep s) in H.
    apply orb_false_iff in H as [H1 H2].
    change (split_go sep (c :: s) 0 cur)
      with (if starts_with sep (c :: s)
            then rev cur :: split_go sep s (List.length sep - 1) []
            else split_go sep s 0 (c :: cur)).
    rewrite H1, (IH (c :: cur) H2). simpl rev. now rewrite <- app_assoc.
Qed.

(** X4.  A non-empty summary in which the separator " - " does not occur
    gives the authors only: the trimmed summary (null when it is blank),
    with journal, year and publisher null.  And what follows a third
    separator is ignored: two summaries with the same first three segments
    parse to the same result. *)
Theorem parsePublicationInfo_segments :
  (forall s : jsstring,
      s <> [] -> includes ParserService.sep_dash s = false ->
      ParserService.parsePublicationInfo (VStr s)
      = Ok (PubInfo.mk (or_else (VStr (trim s)) VNull) VNull VNull VNull))
  /\ (forall (s s' p0 p1 p2 : jsstring) (more more' : list jsstring),
         split ParserService.sep_dash s = p0 :: p1 :: p2 :: more ->
         split ParserService.sep_dash s' = p0 :: p1 :: p2 :: more' ->
         ParserService.parsePublicationInfo (VStr s)
         = ParserService.parsePublicationInfo (VStr s')).
Proof.
  split.
  - intros s Hs Hno. rewrite (parsePublicationInfo_parts s Hs). cbv zeta.
    unfold split. rewrite (split_go_no_occurrence _ s [] Hno). reflexivity.
  - intros s s' p0 p1 p2 more more' H H'.
    rewrite (parsePublicationInfo_parts s (split_nonempty _ _ _ _ H)).
    rewrite (parsePublicationInfo_parts s' (split_nonempty _ _ _ _ H')).
    cbv zeta. rewrite H, H'. reflexivity.
Qed.

Lemma parsePublicationInfo_segments_witness :
  ParserService.parsePublicationInfo (VStr (js " G Hinton, Y LeCun "))
  = Ok (PubInfo.mk (or_else (VStr (trim (js " G Hinton, Y LeCun "))) VNull)
          VNull VNull VNull)
  /\ ParserService.parsePublicationInfo
       (VStr (js "A Smith - Nature, 2015 - nature.com - extra"))
     = ParserService.parsePublicationInfo
         (VStr (js "A Smith - Nature, 2015 - nature.com")).
Proof.
  split.
  - apply (proj1 parsePublicationInfo_segments).
    + discriminate.
    + vm_compute. reflexivity.
  - apply (proj2 parsePublicationInfo_segments _ _
             (js "A Smith") (js "Nature, 2015") (js "nature.com")
             [js "extra"] []);
      vm_compute; reflexivity.
Defined.

(* ================================================================== *)
(** * Further properties of the sanitization *)
(* ================================================================== *)

Lemma words_app_word (w tail : jsstring) :
  word_ok w -> starts_ws_or_ends tail = true ->
  words (w ++ tail) = w :: words tail.
Proof.
  intros [Hne Hw] Ht. induction w as [|c w IH]; [congruence|].
  simpl in Hw. apply andb_true_iff in Hw as [Hc Hw].
  apply negb_true_iff in Hc.
  change ((c :: w) ++ tail) with (c :: (w ++ tail)).
  cbn [words]. rewrite Hc.
  destruct w as [|c' w'].
  - simpl app. now rewrite Ht.
  - assert (Hc' : Char.is_ws c' = false).
    { simpl in Hw. apply andb_true_iff in Hw as [Hw _].
      now apply negb_true_iff in Hw. }
    change (starts_ws_or_ends ((c' :: w') ++ tail)) with (Char.is_ws c').
    rewrite Hc', (IH ltac:(discriminate) Hw). reflexivity.
Qed.

Lemma words_unwords (ws : list jsstring) :
  Forall word_ok ws -> words (unwords ws) = ws.
Proof.
  induction 1 as [|w ws Hw Hws IH]; [reflexivity|].
  rewrite unwords_cons. destruct ws as [|w' ws'].
  - pose proof (words_app_word w [] Hw eq_refl) as H0.
    rewrite app_nil_r in H0. exact H0.
  - rewrite (words_app_word w (Char.space :: unwords (w' :: ws')) Hw eq_refl).
    f_equal. exact IH.
Qed.

(** X5.  Sanitizing what [sanitizeString] returned changes nothing, except
    that the empty string, which a non-empty input of white space only is
    turned into, becomes null. *)
Theorem sanitizeString_twice (v v' : value) :
  ParserService.sanitizeString v = Ok v' ->
  ParserService.sanitizeString v'
  = Ok (match v' with VStr [] => VNull | _ => v' end).
Proof.
  unfold ParserService.sanitizeString at 1.
  destruct (negb (truthy v)); [intros H; inversion H; reflexivity|].
  intros H. apply bind_Ok_inv in H as [s [_ H]]. inversion H; subst. clear H.
  rewrite trim_collapse_words.
  destruct (unwords (words s)) as [|c out] eqn:E; [reflexivity|].
  unfold ParserService.sanitizeString. simpl. rewrite <- E.
  rewrite trim_collapse_words, words_unwords by apply words_ok. reflexivity.
Qed.

Lemma sanitizeString_twice_witness :
  ParserService.sanitizeString (VStr (js "Deep learning"))
  = Ok (match VStr (js "Deep learning") with VStr [] => VNull | _ => VStr (js "Deep learning") end)
  /\ ParserService.sanitizeString (VStr [])
     = Ok (match VStr [] with VStr [] => VNull | _ => VStr [] end).
Proof.
  split.
  - apply (sanitizeString_twice (VStr (js "  Deep   learning "))).
    vm_compute. reflexivity.
  - apply (sanitizeString_twice (VStr (js "   "))).
    vm_compute. reflexivity.
Defined.

Lemma nonws_content_collapse (s : jsstring) : forall b,
  nonws_content (collapse_go b s) = nonws_content s.
Proof.
  unfold nonws_content.
  induction s as [|c s IH]; intros b; [reflexivity|].
  cbn [collapse_go]. destruct (Char.is_ws c) eqn:Ec.
  - destruct b; cbn [List.filter]; rewrite ?is_ws_space, Ec; simpl; apply IH.
  - cbn [List.filter]. rewrite Ec. simpl. f_equal. apply IH.
Qed.

Lemma nonws_content_trimStart (s : jsstring) :
  nonws_content (trimStart s) = nonws_content s.
Proof.
  unfold nonws_content. induction s as [|c s IH]; [reflexivity|].
  cbn [trimStart]. destruct (Char.is_ws c) eqn:Ec; [|reflexivity].
  cbn [List.filter]. rewrite Ec. exact IH.
Qed.

Lemma nonws_content_rev (s : jsstring) :
  nonws_content (rev s) = rev (nonws_content s).
Proof.
  unfold nonws_content. induction s as [|c s IH]; [reflexivity|].
  simpl. rewrite filter_app, IH. simpl.
  destruct (negb (Char.is_ws c)); simpl; [reflexivity|now rewrite app_nil_r].
Qed.

Lemma nonws_content_trim (s : jsstring) : nonws_content (trim s) = nonws_content s.
Proof.
  unfold trim, trimEnd.
  rewrite nonws_content_rev, nonws_content_trimStart, nonws_content_rev,
    rev_involutive.
  apply nonws_content_trimStart.
Qed.

Lemma collapse_only_spaces (s : jsstring) : forall b,
  Forall (fun c => Char.is_ws c = true -> c = Char.space) (collapse_go b s).
Proof.
  induction s as [|c s IH]; intros b; [constructor|].
  cbn [collapse_go]. destruct (Char.is_ws c) eqn:Ec.
  - destruct b; [apply IH|]. constructor; [reflexivity|apply IH].
  - constructor; [congruence|apply IH].
Qed.

Lemma Forall_trimStart (P : N -> Prop) (s : jsstring) :
  Forall P s -> Forall P (trimStart s).
Proof.
  induction 1 as [|c s Hc Hs IH]; [constructor|].
  cbn [trimStart]. destruct (Char.is_ws c); [exact IH|now constructor].
Qed.

Lemma Forall_trim (P : N -> Prop) (s : jsstring) : Forall P s -> Forall P (trim s).
Proof.
  intros H. unfold trim, trimEnd.
  apply Forall_rev, Forall_trimStart, Forall_rev, Forall_trimStart, H.
Qed.

(** X6.  [sanitizeString] touches white space only: the code units of the
    result that are not white space are those of the input, in the same
    order, and every white-space code unit of the result is the plain
    space. *)
Theorem sanitizeString_content (s out : jsstring) :
  ParserService.sanitizeString (VStr s) = Ok (VStr out) ->
  nonws_content out = nonws_content s
  /\ Forall (fun c => Char.is_ws c = true -> c = Char.space) out.
Proof.
  unfold ParserService.sanitizeString.
  destruct (negb (truthy (VStr s))); [discriminate|].
  simpl. intros H. inversion H; subst. split.
  - rewrite nonws_content_trim. apply nonws_content_collapse.
  - apply Forall_trim, collapse_only_spaces.
Qed.

Lemma sanitizeString_content_witness :
  nonws_content (js "Deep learning survey")
  = nonws_content (js "  Deep" ++ [9; 10]%N ++ js "learning   survey ")
  /\ Forall (fun c => Char.is_ws c = true -> c = Char.space)
       (js "Deep learning survey").
Proof.
  apply (sanitizeString_content
           (js "  Deep" ++ [9; 10]%N ++ js "learning   survey ")
           (js "Deep learning survey")).
  vm_compute. reflexivity.
Defined.

Lemma sanitizeString_sanitized (v v' : value) :
  ParserService.sanitizeString v = Ok v' -> sanitized v' = true.
Proof.
  unfold ParserService.sanitizeString.
  destruct (negb (truthy v)); [intros H; inversion H; reflexivity|].
  intros H. apply bind_Ok_inv in H as [s [_ H]]. inversion H; subst. clear H.
  simpl. destruct (trim_clean (collapse_ws s)) as [H1 H2]. rewrite H1, H2.
  rewrite trim_collapse_words. simpl. apply unwords_no_ws_pair, words_ok.
Qed.

(** X7.  [prepareForDatabase] and the object the controller builds for the
    insert agree on every record: either both throw the same exception, or
    both return, with the same value in every column they share, and the
    text columns sanitized. *)
Theorem prepareForDatabase_agrees (article : publication) :
  match ParserService.prepareForDatabase article,
        AuthorArticleController.dbArticle_of article with
  | Ok p, Ok db =>
      DbArticle.google_scholar_id db = google_scholar_id p
      /\ DbArticle.paper_title db = title p
      /\ DbArticle.authors db = authors p
      /\ DbArticle.publication_year db = publication_year p
      /\ DbArticle.journal db = journal p
      /\ DbArticle.article_url db = article_url p
      /\ DbArticle.abstract_text db = abstract p
      /\ DbArticle.citation_count db = citation_count p
      /\ DbArticle.cites_id db = cites_id p
      /\ DbArticle.pdf_url db = pdf_url p
      /\ DbArticle.publisher db = publisher p
      /\ sanitized (title p) = true /\ sanitized (authors p) = true
      /\ sanitized (journal p) = true /\ sanitized (abstract p) = true
      /\ sanitized (publisher p) = true
      /\ google_scholar_id p = google_scholar_id article
      /\ publication_year p = publication_year article
  | Throw e, Throw e' => e = e'
  | _, _ => False
  end.
Proof.
  unfold ParserService.prepareForDatabase, AuthorArticleController.dbArticle_of.
  destruct (ParserService.sanitizeString (title article)) as [t|e] eqn:Et;
    [|reflexivity].
  destruct (ParserService.sanitizeString (authors article)) as [a|e] eqn:Ea;
    [|reflexivity].
  destruct (ParserService.sanitizeString (journal article)) as [j|e] eqn:Ej;
    [|reflexivity].
  destruct (ParserService.sanitizeString (abstract article)) as [ab|e] eqn:Eab;
    [|reflexivity].
  destruct (ParserService.sanitizeString (publisher article)) as [pu|e] eqn:Epu;
    [|reflexivity].
  simpl.
  repeat split; eauto using sanitizeString_sanitized.
Qed.

(** ** Pages *)

Lemma round53_small (x : Z) : (x < 2 ^ 53)%Z -> Number.round53 x = x.
Proof.
  intros H. unfold Number.round53.
  destruct (Z.leb_spec (Z.log2 x - 52) 0) as [_|Hl]; [reflexivity|].
  exfalso.
  assert (Hx : (0 < x)%Z).
  { destruct (Z.ltb_spec 0 x); [assumption|].
    rewrite Z.log2_nonpos in Hl by lia. lia. }
  assert (Z.log2 x < 53)%Z by (apply Z.log2_lt_pow2; lia).
  lia.
Qed.

Lemma of_Z_small (x : Z) : (0 <= x < 2 ^ 53)%Z -> Number.of_Z x = x.
Proof.
  intros H. unfold Number.of_Z.
  destruct (Z.ltb_spec x 0); [lia|]. now apply round53_small.
Qed.

(** The quotient by ten of an integer up to [2^53], rounded to binary64,
    has the integer part of the exact quotient. *)
Lemma floor_quotient10_exact (a : Z) :
  (0 < a <= 2 ^ 53)%Z -> Number.floor_quotient10 a = (a / 10)%Z.
Proof.
  intros Ha.
  assert (Hs : exists s : Z,
             (3 <= s)%Z
             /\ Number.quotient10 a
                = (let t := (a * 2 ^ s / 10)%Z in
                   let r := ((a * 2 ^ s) mod 10)%Z in
                   if ((10 <? 2 * r) || ((2 * r =? 10) && Z.odd t))%Z%bool
                   then (t + 1)%Z else t, s)).
  { unfold Number.quotient10.
    destruct (Z.eq_dec a (2 ^ 53)) as [E|E].
    - subst a. exists 3%Z. split; [lia|]. vm_compute. reflexivity.
    - assert (HL : (Z.log2 a <= 52)%Z).
      { assert (Z.log2 a < 53)%Z by (apply Z.log2_lt_pow2; lia). lia. }
      assert (HL0 : (0 <= Z.log2 a)%Z) by apply Z.log2_nonneg.
      set (s1 := (56 - Z.log2 a)%Z).
      assert (Hs1 : (4 <= s1)%Z) by (unfold s1; lia).
      unfold Number.scaled at 1.
      destruct (Z.leb_spec 0 s1); [|lia].
      destruct (a * 2 ^ s1 <? 2 ^ 53 * 10)%Z.
      + exists s1. split; [lia|].
        unfold Number.scaled. destruct (Z.leb_spec 0 s1); [reflexivity|lia].
      + exists (s1 - 1)%Z. split; [lia|].
        unfold Number.scaled. destruct (Z.leb_spec 0 (s1 - 1)); [reflexivity|lia]. }
  destruct Hs as (s & Hs3 & Hq).
  unfold Number.floor_quotient10. rewrite Hq. cbv zeta.
  destruct (Z.ltb_spec 0 s); [|lia].
  rewrite Z.shiftr_div_pow2 by lia.
  set (E := (2 ^ s)%Z).
  assert (HE : (8 <= E)%Z).
  { unfold E. change 8%Z with (2 ^ 3)%Z. apply Z.pow_le_mono_r; lia. }
  pose proof (Z.div_mod a 10 ltac:(lia)) as Hdm.
  pose proof (Z.mod_pos_bound a 10 ltac:(lia)) as Hr0.
  set (k := (a / 10)%Z) in *. set (r0 := (a mod 10)%Z) in *.
  pose proof (Z.div_mod (a * E) 10 ltac:(lia)) as Hdm2.
  pose proof (Z.mod_pos_bound (a * E) 10 ltac:(lia)) as Hr.
  set (t := (a * E / 10)%Z) in *. set (r := ((a * E) mod 10)%Z) in *.
  assert (HaE : (a * E = 10 * (k * E) + r0 * E)%Z) by (rewrite Hdm at 1; ring).
  assert (Hlow : (k * E <= t)%Z) by nia.
  assert (Hm : forall m : Z,
             (m = t \/ (m = t + 1 /\ 5 <= r))%Z -> (m / E = k)%Z).
  { intros m Hm. symmetry. apply (Z.div_unique m E k (m - k * E)); [|ring].
    left. destruct Hm as [Hm|[Hm H5]]; subst m; nia. }
  apply Hm.
  destruct ((10 <? 2 * r) || ((2 * r =? 10) && Z.odd t))%Z%bool eqn:Eb;
    [|now left].
  right. split; [reflexivity|].
  apply orb_true_iff in Eb as [Eb|Eb].
  - apply Z.ltb_lt in Eb. lia.
  - apply andb_true_iff in Eb as [Eb _]. apply Z.eqb_eq in Eb. lia.
Qed.

Lemma page_of_exact (start : Z) :
  (0 <= start <= 2 ^ 53)%Z -> Number.page_of start = (start / 10 + 1)%Z.
Proof.
  intros H. destruct (Z.eq_dec start (2 ^ 53)) as [E|E].
  { subst start. vm_compute. reflexivity. }
  unfold Number.page_of. rewrite (of_Z_small start) by lia.
  destruct (Z.eqb_spec start 0) as [E0|E0].
  { subst start. reflexivity. }
  destruct (Z.ltb_spec start 0); [lia|].
  rewrite floor_quotient10_exact by lia.
  apply of_Z_small.
  assert (start / 10 <= start)%Z by (apply Z.div_le_upper_bound; lia).
  assert (0 <= start / 10)%Z by (apply Z.div_pos; lia).
  assert (start / 10 < 2 ^ 53 - 1)%Z.
  { apply Z.div_lt_upper_bound; lia. }
  lia.
Qed.

(** X8.  For an offset from 0 to [2^53], [calculateCurrentPage] numbers the
    pages from 1 in steps of ten results, as the exact integer division
    does: the page of an offset [start] is [start / 10 + 1], it covers the
    offsets from [10 * (page - 1)] to [10 * page - 1], and the offset
    [page * 10 + r] of the request for the page numbered [page] from 0 is on
    page [page + 1]. *)
Theorem calculateCurrentPage_spec :
  (forall start : Z,
      (0 <= start <= 2 ^ 53)%Z ->
      ParserService.calculateCurrentPage start = (start / 10 + 1)%Z
      /\ (10 * (ParserService.calculateCurrentPage start - 1) <= start
          < 10 * ParserService.calculateCurrentPage start)%Z
      /\ (1 <= ParserService.calculateCurrentPage start)%Z)
  /\ (forall page r : Z,
         (0 <= page)%Z -> (0 <= r < 10)%Z -> (page * 10 + r <= 2 ^ 53)%Z ->
         ParserService.calculateCurrentPage (page * 10 + r) = (page + 1)%Z).
Proof.
  unfold ParserService.calculateCurrentPage. split.
  - intros start H. rewrite (page_of_exact start H).
    pose proof (Z.div_mod start 10 ltac:(lia)) as Hdm.
    pose proof (Z.mod_pos_bound start 10 ltac:(lia)) as Hr.
    assert (0 <= start / 10)%Z by (apply Z.div_pos; lia).
    split; [reflexivity|]. split; lia.
  - intros page r Hp Hr Hb. rewrite page_of_exact by lia.
    f_equal. symmetry. apply (Z.div_unique (page * 10 + r) 10 page r); lia.
Qed.

Lemma calculateCurrentPage_spec_witness :
  (ParserService.calculateCurrentPage 25 = (25 / 10 + 1)%Z
   /\ (10 * (ParserService.calculateCurrentPage 25 - 1) <= 25
       < 10 * ParserService.calculateCurrentPage 25)%Z
   /\ (1 <= ParserService.calculateCurrentPage 25)%Z)
  /\ ParserService.calculateCurrentPage (2 * 10 + 0) = (2 + 1)%Z.
Proof.
  split.
  - apply (proj1 calculateCurrentPage_spec). lia.
  - apply (proj2 calculateCurrentPage_spec); lia.
Defined.

(** Beyond [2^53] the rounding of the division shows: the quotient of
    22517998136852488 by ten rounds up to the next integer. *)
Example calculateCurrentPage_rounds :
  ParserService.calculateCurrentPage 22517998136852488 = 2251799813685250%Z
  /\ (22517998136852488 / 10 + 1 = 2251799813685249)%Z.
Proof. vm_compute. split; reflexivity. Qed.

(* ================================================================== *)
(** * Further properties of the search client and of the error handler *)
(* ================================================================== *)

Lemma starts_with_app (p m : jsstring) : starts_with p (p ++ m) = true.
Proof.
  induction p as [|c p IH]; [now destruct m|].
  simpl. now rewrite N.eqb_refl, IH.
Qed.

Lemma includes_prefix (p m : jsstring) : includes p (p ++ m) = true.
Proof.
  destruct (p ++ m) eqn:E; unfold includes; fold includes;
    rewrite <- E, starts_with_app; reflexivity.
Qed.

(** The conversion to a string throws nothing but the exceptions of the
    engine. *)
Lemma ToString_throws : forall (v : value) (e : jserror),
  ToString v = Throw e -> exists t : type_error, e = TypeError t.
Proof.
  fix IH 1. intros v e. destruct v as [| |b|n|s|items|fields|name]; simpl.
  - discriminate.
  - discriminate.
  - destruct b; discriminate.
  - discriminate.
  - discriminate.
  - intros H.
    assert (Hel : forall l : list value,
               elements ToString l = Throw e -> exists t, e = TypeError t).
    { clear H. induction l as [|x l IHl]; simpl; [discriminate|].
      destruct (nullish x).
      - simpl. destruct (elements ToString l) as [r|e'] eqn:El; simpl;
          [discriminate|].
        intros H. inversion H; subst. now apply IHl.
      - destruct (ToString x) as [sx|ex] eqn:Ex; simpl.
        + destruct (elements ToString l) as [r|e'] eqn:El; simpl;
            [discriminate|].
          intros H. inversion H; subst. now apply IHl.
        + intros H. inversion H; subst. apply (IH x e Ex). }
    destruct (elements ToString items) as [parts|e'] eqn:El; simpl in H;
      [discriminate|].
    inversion H; subst. now apply Hel with (l := items).
  - unfold object_ToString.
    destruct (has_own "toString" fields); [|discriminate].
    destruct (callable (lookup "toString" fields)).
    { intros H. inversion H. eauto. }
    destruct (has_own "valueOf" fields && callable (lookup "valueOf" fields));
      intros H; inversion H; eauto.
  - discriminate.
Qed.

Section SearchContract.
Variable typeErrorMessage : type_error -> jsstring.
Variable World : Type.
Variable axios_get : World -> jsstring -> Z -> res value * World.

Local Abbreviation search := (SerpApiService.search typeErrorMessage axios_get).
Local Abbreviation searchMultiplePages :=
  (SerpApiService.searchMultiplePages typeErrorMessage axios_get).
Local Abbreviation pagesLoop :=
  (SerpApiService.pagesLoop typeErrorMessage axios_get).

Lemma search_state (q : jsstring) (start : Z) (st : state World) :
  snd (search q start st)
  = emit (EvHttpGet q start) (snd (axios_get (world st) q start)) st.
Proof.
  unfold SerpApiService.search.
  destruct (axios_get (world st) q start) as [r w].
  destruct (SerpApiService.search_try r); reflexivity.
Qed.

(** X9.  Every call of [search] makes exactly one request, with the query
    and the offset it was given, whether it returns or throws (no retry);
    and it returns exactly when the request resolved with a body that is not
    null and has no truthy [error] field, the value returned being that
    body. *)
Theorem search_contract (q : jsstring) (start : Z) (st : state World) :
  trace (snd (search q start st)) = trace st ++ [EvHttpGet q start]
  /\ world (snd (search q start st)) = snd (axios_get (world st) q start)
  /\ forall data : value,
       fst (search q start st) = Ok data
       <-> (fst (axios_get (world st) q start) = Ok data
            /\ nullish data = false
            /\ truthy (getprop data "error") = false).
Proof.
  rewrite search_state. split; [reflexivity|]. split; [reflexivity|].
  intros data. unfold SerpApiService.search.
  destruct (axios_get (world st) q start) as [r w]. simpl fst.
  unfold SerpApiService.search_try, get.
  destruct r as [d|e]; simpl bind.
  - destruct (nullish d) eqn:En; simpl bind.
    + simpl. split; [discriminate|]. intros (H & Hn & _). inversion H; subst.
      congruence.
    + destruct (truthy (getprop d "error")) eqn:Et; simpl.
      * split.
        -- destruct (ToString (getprop d "error")); discriminate.
        -- intros (H & _ & Ht). inversion H; subst. congruence.
      * split.
        -- intros H. inversion H; subst. auto.
        -- intros (H & _). exact H.
  - simpl. split; [discriminate|]. intros (H & _). discriminate H.
Qed.

(** X10.  What [search] throws is decided by the kind of failure.  A
    rejection without a response gives an [Error] "Network Error: " followed
    by the message of the rejection.  Any failure after a resolved request
    also gives a "Network Error: ", followed by the message of what was
    thrown in the [try] block: the [TypeError] of the read on a null body,
    the [error] field converted to a string, or the exception of that
    conversion.  A rejection with a response whose body is not null gives an
    [Error] "SerpAPI Error: " followed by the [error] field of the body
    converted to a string, or by the message of the rejection when that
    field is falsy; the exception of the conversion, when it throws,
    escapes as it is; and with a null body the [TypeError] of the read
    escapes. *)
Theorem search_failure (q : jsstring) (start : Z) (st : state World) (e : jserror) :
  fst (search q start st) = Throw e ->
  match fst (axios_get (world st) q start) with
  | Ok data =>
      e = newError
            (js "Network Error: "
             ++ (if nullish data
                 then typeErrorMessage (ReadOfNullish data "error")
                 else match ToString (getprop data "error") with
                      | Ok shown => shown
                      | Throw te => message_of typeErrorMessage te
                      end))
  | Throw err =>
      match response_of err with
      | None =>
          e = newError (js "Network Error: " ++ message_of typeErrorMessage err)
      | Some data =>
          if nullish data then e = TypeError (ReadOfNullish data "error")
          else if truthy (getprop data "error") then
                 match ToString (getprop data "error") with
                 | Ok shown => e = newError (js "SerpAPI Error: " ++ shown)
                 | Throw te => e = te
                 end
               else e = newError
                          (js "SerpAPI Error: "
                           ++ message_of typeErrorMessage err)
      end
  end.
Proof.
  unfold SerpApiService.search.
  destruct (axios_get (world st) q start) as [r w]. simpl fst.
  destruct r as [d|err].
  - unfold SerpApiService.search_try, get. simpl bind.
    destruct (nullish d) eqn:En; simpl bind.
    + simpl. intros H. inversion H. reflexivity.
    + destruct (truthy (getprop d "error")); [|discriminate].
      destruct (ToString (getprop d "error")) as [shown|te] eqn:Es; simpl;
        intros H; inversion H; [reflexivity|].
      destruct (ToString_throws _ _ Es) as [t Et]. subst te. reflexivity.
  - simpl. unfold SerpApiService.search_catch, get.
    destruct (response_of err) as [data|]; intros H; inversion H; [|reflexivity].
    destruct (nullish data); [reflexivity|].
    destruct (truthy (getprop data "error")); [|reflexivity].
    destruct (ToString (getprop data "error")); reflexivity.
Qed.

(** ** searchMultiplePages *)

Lemma http_events_app (a b : list event) :
  http_events (a ++ b) = http_events a ++ http_events b.
Proof. apply filter_app. Qed.

Lemma delay_events_app (a b : list event) :
  delay_events (a ++ b) = delay_events a ++ delay_events b.
Proof. apply filter_app. Qed.

(** The events of the loop from page [page] with [n] pages left: [k]
    requests at the successive offsets, at most one pause per request, and
    none after the page [maxPages - 1]. *)
Lemma pagesLoop_trace (q : jsstring) (maxPages : Z) (n : nat) :
  forall (page : Z) (acc : list value) (st : state World),
  exists (k : nat) (tr : list event),
    k <= n
    /\ trace (snd (pagesLoop q maxPages n page acc st)) = trace st ++ tr
    /\ http_events tr
       = List.map (fun i => EvHttpGet q ((page + Z.of_nat i) * 10)) (seq 0 k)
    /\ List.length (delay_events tr) <= k
    /\ ((page + Z.of_nat n = maxPages)%Z -> List.length (delay_events tr) <= n - 1)
    /\ Forall (fun e => is_http e || is_delay e = true) tr.
Proof.
  induction n as [|n IH]; intros page acc st.
  - exists 0, []. simpl. rewrite app_nil_r. repeat split; auto.
  - assert (Hstop : forall (res : list value) (st1 : state World),
               trace st1 = trace st ++ [EvHttpGet q (page * 10)%Z] ->
               exists (k : nat) (tr : list event),
                 k <= S n
                 /\ trace (snd (res, st1)) = trace st ++ tr
                 /\ http_events tr
                    = List.map (fun i => EvHttpGet q ((page + Z.of_nat i) * 10))
                        (seq 0 k)
                 /\ List.length (delay_events tr) <= k
                 /\ ((page + Z.of_nat (S n) = maxPages)%Z ->
                     List.length (delay_events tr) <= S n - 1)
                 /\ Forall (fun e => is_http e || is_delay e = true) tr).
    { intros res st1 H. exists 1, [EvHttpGet q (page * 10)%Z].
      split; [lia|]. split; [exact H|].
      split; [simpl; now rewrite Z.add_0_r|].
      split; [simpl; lia|]. split; [simpl; lia|].
      constructor; [reflexivity|constructor]. }
    pose proof (proj1 (search_contract q (page * 10)%Z st)) as Htr.
    cbn [SerpApiService.pagesLoop].
    destruct (search q (page * 10)%Z st) as [r st1] eqn:Es.
    simpl snd in Htr.
    destruct r as [response|e]; [|now apply Hstop].
    destruct (get response "organic_results") as [organic|e]; [|now apply Hstop].
    destruct (negb (truthy organic)
              || SerpApiService.length_is_zero (getprop organic "length"));
      [now apply Hstop|].
    destruct (spread organic) as [items|]; [|now apply Hstop].
    set (st2 := if (page <? maxPages - 1)%Z
                then emit (EvDelay 2000) (world st1) st1 else st1).
    destruct (IH (page + 1)%Z (acc ++ items) st2) as (k & tr & Hk & Ht & Hh & Hd & Hl & Hf).
    set (pause := if (page <? maxPages - 1)%Z then [EvDelay 2000%Z] else []).
    assert (Hst2 : trace st2 = trace st ++ EvHttpGet q (page * 10)%Z :: pause).
    { unfold st2, pause. destruct (page <? maxPages - 1)%Z; simpl.
      - rewrite Htr, <- app_assoc. reflexivity.
      - exact Htr. }
    exists (S k), (EvHttpGet q (page * 10)%Z :: pause ++ tr).
    split; [lia|].
    split.
    { rewrite Ht, Hst2, <- app_assoc. reflexivity. }
    assert (Hp : http_events pause = []
                 /\ List.length (delay_events pause) <= 1
                 /\ ((maxPages - 1 <= page)%Z -> delay_events pause = [])
                 /\ Forall (fun e => is_http e || is_delay e = true) pause).
    { unfold pause. destruct (page <? maxPages - 1)%Z eqn:E.
      - repeat split; auto. apply Z.ltb_lt in E. intros; lia.
      - repeat split; auto. }
    destruct Hp as (P1 & P2 & P3 & P4).
    split.
    { change (EvHttpGet q (page * 10)%Z :: pause ++ tr)
        with ([EvHttpGet q (page * 10)%Z] ++ pause ++ tr).
      rewrite !http_events_app, P1, Hh. simpl.
      rewrite Z.add_0_r. f_equal. rewrite <- seq_shift, map_map.
      apply map_ext. intros i. f_equal. lia. }
    assert (Hdel : delay_events (EvHttpGet q (page * 10)%Z :: pause ++ tr)
                   = delay_events pause ++ delay_events tr).
    { change (EvHttpGet q (page * 10)%Z :: pause ++ tr)
        with ([EvHttpGet q (page * 10)%Z] ++ pause ++ tr).
      now rewrite !delay_events_app. }
    rewrite Hdel, length_app.
    split.
    { destruct (Z.ltb_spec page (maxPages - 1)).
      - lia.
      - rewrite (P3 ltac:(lia)). simpl. lia. }
    split.
    { intros Hpage. destruct n as [|n'].
      - rewrite (P3 ltac:(lia)). simpl.
        assert (k = 0) by lia. subst k. simpl in Hh.
        assert (delay_events tr = []) as ->; [|simpl; lia].
        destruct (delay_events tr); [reflexivity|simpl in Hd; lia].
      - specialize (Hl ltac:(lia)). lia. }
    constructor; [reflexivity|]. apply Forall_app. split; assumption.
Qed.

(** X11.  [searchMultiplePages] makes at most [maxPages] requests, for the
    offsets 0, 10, 20, ... in this order; it pauses at most once per request
    and never after the last of the [maxPages] pages; it touches nothing but
    the search API and the timer; and when the search for the first page
    throws, the error is swallowed: the result is the empty list after this
    one request. *)
Theorem searchMultiplePages_requests (q : jsstring) (maxPages : Z)
    (st : state World) :
  (exists (k : nat) (tr : list event),
      k <= Z.to_nat maxPages
      /\ trace (snd (searchMultiplePages q maxPages st)) = trace st ++ tr
      /\ http_events tr
         = List.map (fun i => EvHttpGet q (Z.of_nat i * 10)) (seq 0 k)
      /\ List.length (delay_events tr) <= k
      /\ List.length (delay_events tr) <= Z.to_nat maxPages - 1
      /\ Forall (fun e => is_http e || is_delay e = true) tr)
  /\ (forall e : jserror,
         (0 < maxPages)%Z ->
         fst (search q 0%Z st) = Throw e ->
         searchMultiplePages q maxPages st = ([], snd (search q 0%Z st))).
Proof.
  split.
  - unfold SerpApiService.searchMultiplePages.
    destruct (pagesLoop_trace q maxPages (Z.to_nat maxPages) 0%Z [] st)
      as (k & tr & Hk & Ht & Hh & Hd & Hl & Hf).
    exists k, tr. repeat split; auto.
    destruct (Z.le_gt_cases maxPages 0) as [Hle|Hgt].
    + assert (Z.to_nat maxPages = 0) by lia. lia.
    + apply Hl. lia.
  - intros e Hpos He. unfold SerpApiService.searchMultiplePages.
    destruct (Z.to_nat maxPages) as [|n] eqn:En; [lia|].
    cbn [SerpApiService.pagesLoop]. change (0 * 10)%Z with 0%Z.
    destruct (search q 0%Z st) as [r st1]. simpl in He. subst r. reflexivity.
Qed.
End SearchContract.

Lemma search_failure_witness :
  match fst (Scenario.axios_get (world (mkState Scenario.http_error_world []))
               (Scenario.author_query "Ann") 0) with
  | Ok data =>
      newError (js "SerpAPI Error: Invalid API key.")
      = newError
          (js "Network Error: "
           ++ (if nullish data
               then v8_message (ReadOfNullish data "error")
               else match ToString (getprop data "error") with
                    | Ok shown => shown
                    | Throw te => message_of v8_message te
                    end))
  | Throw err =>
      match response_of err with
      | None =>
          newError (js "SerpAPI Error: Invalid API key.")
          = newError (js "Network Error: " ++ message_of v8_message err)
      | Some data =>
          if nullish data
          then newError (js "SerpAPI Error: Invalid API key.")
               = TypeError (ReadOfNullish data "error")
          else if truthy (getprop data "error") then
                 match ToString (getprop data "error") with
                 | Ok shown =>
                     newError (js "SerpAPI Error: Invalid API key.")
                     = newError (js "SerpAPI Error: " ++ shown)
                 | Throw te =>
                     newError (js "SerpAPI Error: Invalid API key.") = te
                 end
               else newError (js "SerpAPI Error: Invalid API key.")
                    = newError
                        (js "SerpAPI Error: " ++ message_of v8_message err)
      end
  end.
Proof.
  apply (search_failure v8_message Scenario.World Scenario.axios_get
           (Scenario.author_query "Ann") 0%Z
           (mkState Scenario.http_error_world [])).
  vm_compute. reflexivity.
Defined.

(** The [error] field of the body of a rejected request as the message
    shows it: a number of 21 digits or more in exponent form, an array
    joined, an object as [[object Object]]; an object with an own
    [toString] that is not callable makes the conversion throw, and that
    [TypeError] is what [search] throws. *)
Example search_error_conversions :
  let rejected (e : value) : Scenario.World :=
    Scenario.mkWorld
      [ (Scenario.author_query "Ann",
         Throw (ErrObj (mkError (js "Request failed with status code 429")
                          (Some (js "ERR_BAD_REQUEST"))
                          (Some (VObj [("error", e)])) None))) ] [] 10 [] in
  let thrown (e : value) : res value :=
    fst (SerpApiService.search v8_message Scenario.axios_get
           (Scenario.author_query "Ann") 0%Z (mkState (rejected e) [])) in
  thrown (VNum (10 ^ 21)) = Throw (newError (js "SerpAPI Error: 1e+21"))
  /\ thrown (VNum (2 ^ 60))
     = Throw (newError (js "SerpAPI Error: 1152921504606847000"))
  /\ thrown (VArr [VNum 429; VNull; VStr (js "quota")])
     = Throw (newError (js "SerpAPI Error: 429,,quota"))
  /\ thrown (VObj [("code", VNum 429)])
     = Throw (newError (js "SerpAPI Error: [object Object]"))
  /\ thrown unprintable = Throw (TypeError NotPrimitive)
  /\ thrown (VArr [unprintable]) = Throw (TypeError NotPrimitive).
Proof. vm_compute. repeat split; reflexivity. Qed.

Lemma searchMultiplePages_requests_witness :
  SerpApiService.searchMultiplePages v8_message Scenario.axios_get
    (Scenario.author_query "Ann") 3 (mkState Scenario.timeout_world [])
  = ([], snd (SerpApiService.search v8_message Scenario.axios_get
                (Scenario.author_query "Ann") 0%Z
                (mkState Scenario.timeout_world []))).
Proof.
  apply (proj2 (searchMultiplePages_requests v8_message Scenario.World
                  Scenario.axios_get (Scenario.author_query "Ann") 3
                  (mkState Scenario.timeout_world []))
           (newError (js "Network Error: timeout of 30000ms exceeded"))).
  - lia.
  - vm_compute. reflexivity.
Defined.

(** Three pages of results: requests at the offsets 0, 10 and 20, a pause
    after the first and after the second. *)
Example searchMultiplePages_three_pages :
  trace (snd (SerpApiService.searchMultiplePages v8_message Scenario.axios_get
                (Scenario.author_query "Ann") 3
                (mkState Scenario.demo_world [])))
  = [EvHttpGet (Scenario.author_query "Ann") 0; EvDelay 2000;
     EvHttpGet (Scenario.author_query "Ann") 10; EvDelay 2000;
     EvHttpGet (Scenario.author_query "Ann") 20]
  /\ List.length
       (fst (SerpApiService.searchMultiplePages v8_message Scenario.axios_get
               (Scenario.author_query "Ann") 3
               (mkState Scenario.demo_world []))) = 15.
Proof. vm_compute. split; reflexivity. Qed.

(** ** The error handler *)

Section ErrorHandlerTable.
Variable typeErrorMessage : type_error -> jsstring.

Local Abbreviation errorHandler := (ErrorHandler.errorHandler typeErrorMessage).

(** X12.  The response of the error handler: its message is never empty; an
    error with the code ECONNREFUSED is answered 503 "Database connection
    failed"; for any other error the message is the message of the error
    ("Internal Server Error" when that is empty) and the status is 400 when
    the message contains "required", else 503 when it contains "Network
    Error", else 502 when it contains "SerpAPI Error", else the status of
    the error, 500 when it has none.  So the "Network Error: ..." that
    [search] throws is answered 503, or 400 when its text contains
    "required". *)
Theorem errorHandler_table (err : jserror) :
  snd (errorHandler err) <> []
  /\ (code_of err = Some (js "ECONNREFUSED") ->
      errorHandler err = (503%Z, js "Database connection failed"))
  /\ (code_of err <> Some (js "ECONNREFUSED") ->
      snd (errorHandler err)
      = match message_of typeErrorMessage err with
        | [] => js "Internal Server Error"
        | m => m
        end
      /\ fst (errorHandler err)
         = if includes (js "required") (snd (errorHandler err)) then 400%Z
           else if includes (js "Network Error") (snd (errorHandler err)) then 503%Z
           else if includes (js "SerpAPI Error") (snd (errorHandler err)) then 502%Z
           else match status_of err with
                | Some s => if (s =? 0)%Z then 500%Z else s
                | None => 500%Z
                end)
  /\ (forall m : jsstring,
         fst (errorHandler (newError (js "Network Error: " ++ m)))
         = if includes (js "required") (js "Network Error: " ++ m)
           then 400%Z else 503%Z).
Proof.
  split; [|split; [|split]].
  - unfold ErrorHandler.errorHandler.
    destruct (code_of err) as [c|];
      [destruct (jsstring_eqb c (js "ECONNREFUSED")); [discriminate|]|];
      cbv zeta; cbn [snd];
      destruct (message_of typeErrorMessage err); discriminate.
  - intros Hc. unfold ErrorHandler.errorHandler. rewrite Hc. reflexivity.
  - intros Hc. unfold ErrorHandler.errorHandler.
    assert (Hcode : match code_of err with
                    | Some c => jsstring_eqb c (js "ECONNREFUSED")
                    | None => false
                    end = false).
    { destruct (code_of err) as [c|]; [|reflexivity].
      destruct (jsstring_eqb c (js "ECONNREFUSED")) eqn:E; [|reflexivity].
      apply jsstring_eqb_eq in E. congruence. }
    destruct (code_of err) as [c|].
    + rewrite Hcode. cbv zeta. cbn [fst snd].
      split; [reflexivity|].
      destruct (includes (js "required") _); [reflexivity|].
      destruct (includes (js "Network Error") _); [reflexivity|].
      destruct (includes (js "SerpAPI Error") _); reflexivity.
    + cbv zeta. cbn [fst snd]. split; [reflexivity|].
      destruct (includes (js "required") _); [reflexivity|].
      destruct (includes (js "Network Error") _); [reflexivity|].
      destruct (includes (js "SerpAPI Error") _); reflexivity.
  - intros m. unfold ErrorHandler.errorHandler, newError.
    cbn [status_of message_of code_of message code status].
    assert (Hd : match js "Network Error: " ++ m with
                 | [] => js "Internal Server Error"
                 | x => x
                 end = js "Network Error: " ++ m) by reflexivity.
    rewrite Hd. cbv zeta.
    assert (Hn : includes (js "Network Error") (js "Network Error: " ++ m) = true).
    { change (js "Network Error: ") with (js "Network Error" ++ js ": ").
      rewrite <- app_assoc. apply includes_prefix. }
    rewrite Hn. cbn [fst].
    destruct (includes (js "required") (js "Network Error: " ++ m)); reflexivity.
Qed.
End ErrorHandlerTable.

Lemma errorHandler_table_witness :
  ErrorHandler.errorHandler v8_message
    (ErrObj (mkError (js "connect ECONNREFUSED 127.0.0.1:3306")
               (Some (js "ECONNREFUSED")) None None))
  = (503%Z, js "Database connection failed")
  /\ snd (ErrorHandler.errorHandler v8_message
            (TypeError (NotAFunction "authors.split")))
     = match message_of v8_message (TypeError (NotAFunction "authors.split")) with
       | [] => js "Internal Server Error"
       | m => m
       end.
Proof.
  split.
  - apply (proj1 (proj2 (errorHandler_table v8_message _))). reflexivity.
  - apply (proj1 (proj2 (proj2 (errorHandler_table v8_message _)))).
    discriminate.
Defined.

(* ================================================================== *)
(** * Further properties of the controller *)
(* ================================================================== *)

Section ControllerTrace.
Variable typeErrorMessage : type_error -> jsstring.
Variable World : Type.
Variable axios_get : World -> jsstring -> Z -> res value * World.
Variable pool_insert : World -> list value -> res value * World.
Variable pool_count : World -> value -> res Z * World.

Local Abbreviation saveLoop :=
  (AuthorArticleController.saveLoop typeErrorMessage pool_insert pool_count).
Local Abbreviation processAuthor :=
  (AuthorArticleController.processAuthor typeErrorMessage axios_get
     pool_insert pool_count).
Local Abbreviation authorLoop :=
  (AuthorArticleController.authorLoop typeErrorMessage axios_get
     pool_insert pool_count).
Local Abbreviation fetchArticlesByAuthors :=
  (AuthorArticleController.fetchArticlesByAuthors typeErrorMessage axios_get
     pool_insert pool_count).
Local Abbreviation searchByAuthor :=
  (SerpApiService.searchByAuthor typeErrorMessage axios_get).
Local Abbreviation loop_state := (AuthorArticleController.loop_state World).
Local Abbreviation authorResult := (@AuthorArticleController.authorResult World).
Local Abbreviation results := (@AuthorArticleController.results World).
Local Abbreviation lst := (@AuthorArticleController.st World).
Local Abbreviation mkLoop := (@AuthorArticleController.mkLoop World).

Lemma exists_trace (id : value) (st : state World) :
  trace (snd (ArticleModel.existsByGoogleScholarId pool_count id st))
  = trace st ++ [EvSelectCount id].
Proof.
  unfold ArticleModel.existsByGoogleScholarId.
  destruct (pool_count (world st) id) as [[c|e] w]; reflexivity.
Qed.

Lemma create_trace (db : DbArticle.t) (st : state World) :
  trace (snd (ArticleModel.create pool_insert db st))
  = trace st ++ [EvInsert (ArticleModel.insert_values db)].
Proof.
  unfold ArticleModel.create.
  destruct (pool_insert (world st) (ArticleModel.insert_values db)) as [[i|e] w];
    [reflexivity|].
  destruct (code_of e) as [c|]; [|reflexivity].
  destruct (jsstring_eqb c (js "ER_DUP_ENTRY")); [|reflexivity].
  destruct (ArticleModel.duplicate_message (DbArticle.google_scholar_id db));
    reflexivity.
Qed.

Lemma loop_adds_nothing name arts (l : loop_state) : loop_adds name arts l l.
Proof.
  unfold loop_adds. exists [], arts, [], [], 0. simpl. rewrite !app_nil_r.
  repeat split; auto. constructor.
Qed.

Lemma saveLoop_adds name validArticles :
  forall savedCount (l : loop_state) e l',
    saveLoop name validArticles savedCount l = (e, l') ->
    loop_adds name validArticles l l'.
Proof.
  induction validArticles as [|article rest IH]; intros savedCount l e l' H.
  - simpl in H. inversion H; subst. apply loop_adds_nothing.
  - rewrite saveLoop_cons in H.
    destruct (3 <=? savedCount)%nat.
    { inversion H; subst. apply loop_adds_nothing. }
    pose proof (exists_trace (google_scholar_id article) (lst l)) as Hex.
    destruct (ArticleModel.existsByGoogleScholarId pool_count
                (google_scholar_id article) (lst l)) as [r st1].
    simpl snd in Hex.
    destruct r as [[|]|ex].
    + (* the identifier exists *)
      destruct (ToString (title article)) as [shown|ex].
      * apply IH in H.
        destruct H as (chk & unchk & tr & nr & k & H1 & H2 & H3 & H4 & H5 & H6 & H7 & H8).
        simpl in H2, H4, H5, H6, H7.
        exists (article :: chk), unchk, (EvSelectCount (google_scholar_id article) :: tr),
          nr, (S k).
        rewrite H1, H2, Hex, <- app_assoc. simpl.
        repeat split; auto; try lia. now constructor.
      * inversion H; subst.
        exists [article], rest, [EvSelectCount (google_scholar_id article)], [], 0.
        simpl. rewrite !app_nil_r.
        repeat split; auto. repeat constructor.
    + destruct (AuthorArticleController.dbArticle_of article) as [dbArticle|ex] eqn:Edb.
      * pose proof (create_trace dbArticle st1) as Hcr.
        destruct (ArticleModel.create pool_insert dbArticle st1) as [r2 st2].
        simpl snd in Hcr.
        destruct r2 as [articleId|saveError].
        -- apply IH in H.
           destruct H as (chk & unchk & tr & nr & k & H1 & H2 & H3 & H4 & H5 & H6 & H7 & H8).
           simpl in H2, H4, H5, H6, H7.
           exists (article :: chk), unchk,
             (EvSelectCount (google_scholar_id article)
              :: EvInsert (ArticleModel.insert_values dbArticle) :: tr),
             (mkArticleRef articleId (DbArticle.google_scholar_id dbArticle)
                (DbArticle.paper_title dbArticle)
                (DbArticle.citation_count dbArticle) :: nr), k.
           rewrite H1, H2, Hcr, Hex, H4, H5, <- !app_assoc. simpl.
           repeat split; auto; try lia. now apply checks_insert.
        -- destruct (includes (js "already exists")
                       (message_of typeErrorMessage saveError)).
           ++ apply IH in H.
              destruct H as (chk & unchk & tr & nr & k & H1 & H2 & H3 & H4 & H5 & H6 & H7 & H8).
              simpl in H2, H4, H5, H6, H7.
              exists (article :: chk), unchk,
                (EvSelectCount (google_scholar_id article)
                 :: EvInsert (ArticleModel.insert_values dbArticle) :: tr),
                nr, (S k).
              rewrite H1, H2, Hcr, Hex, <- !app_assoc. simpl.
              repeat split; auto; try lia. now apply checks_insert.
           ++ apply IH in H.
              destruct H as (chk & unchk & tr & nr & k & H1 & H2 & H3 & H4 & H5 & H6 & H7 & H8).
              simpl in H2, H4, H5, H6, H7.
              exists (article :: chk), unchk,
                (EvSelectCount (google_scholar_id article)
                 :: EvInsert (ArticleModel.insert_values dbArticle) :: tr),
                nr, k.
              rewrite H1, H2, Hcr, Hex, <- !app_assoc. simpl.
              repeat split; auto; try lia. now apply checks_insert.
      * inversion H; subst.
        exists [article], rest, [EvSelectCount (google_scholar_id article)], [], 0.
        simpl. rewrite !app_nil_r.
        repeat split; auto. repeat constructor.
    + inversion H; subst.
      exists [article], rest, [EvSelectCount (google_scholar_id article)], [], 0.
      simpl. rewrite !app_nil_r.
      repeat split; auto. repeat constructor.
Qed.

Lemma results_plus_one (r0 : Results.t) (ar : AuthorResult.t) (ars : list AuthorResult.t) :
  results_plus (results_plus r0 [ar]) ars = results_plus r0 (ar :: ars).
Proof.
  unfold results_plus, sum_of. simpl.
  rewrite <- !app_assoc, ?app_nil_r. simpl. f_equal; lia.
Qed.

Lemma results_plus_failed (name msg : jsstring) (r0 : Results.t) :
  Results.push_author (AuthorResult.set_error msg (AuthorResult.init name)) r0
  = results_plus r0 [failed_author name msg].
Proof.
  unfold results_plus, Results.push_author, sum_of, tagged_articles. simpl.
  rewrite app_nil_r. f_equal; lia.
Qed.

Lemma counts_ok_failed (name msg : jsstring) : counts_ok (failed_author name msg).
Proof. unfold counts_ok. simpl. lia. Qed.

Lemma filter_valid_prefix (parsed checked unchecked : list publication) :
  ParserService.filterValidPublications parsed = checked ++ unchecked ->
  Forall (fun a => ParserService.isValidPublication a = true) checked.
Proof.
  intros H. apply Forall_forall. intros a Ha.
  assert (Hin : In a (ParserService.filterValidPublications parsed)).
  { rewrite H. apply in_or_app. now left. }
  unfold ParserService.filterValidPublications in Hin.
  now apply filter_In in Hin.
Qed.

(** One pass of the outer loop: the sub-summary it pushes, what it adds to
    the run-level results, and its events. *)
Lemma processAuthor_adds authorList name r0 st0 :
  exists (ar : AuthorResult.t) (t : list event),
    fst (processAuthor authorList name r0 st0) = results_plus r0 [ar]
    /\ AuthorResult.author ar = name
    /\ counts_ok ar
    /\ trace (snd (processAuthor authorList name r0 st0)) = trace st0 ++ t
    /\ author_trace name t
    /\ (delay_events t <> [] ->
        (AuthorArticleController.indexOf authorList name
         < Z.of_nat (List.length authorList) - 1)%Z).
Proof.
  pose proof (searchByAuthor_trace typeErrorMessage World axios_get name 0%Z st0)
    as Htr.
  fold (author_request name) in Htr.
  unfold AuthorArticleController.processAuthor.
  destruct (SerpApiService.searchByAuthor typeErrorMessage axios_get name 0 st0)
    as [r st1].
  simpl snd in Htr.
  assert (Hfail : forall msg,
             exists (ar : AuthorResult.t) (t : list event),
               fst (Results.push_author
                      (AuthorResult.set_error msg (AuthorResult.init name)) r0, st1)
               = results_plus r0 [ar]
               /\ AuthorResult.author ar = name
               /\ counts_ok ar
               /\ trace (snd (Results.push_author
                                (AuthorResult.set_error msg (AuthorResult.init name))
                                r0, st1)) = trace st0 ++ t
               /\ author_trace name t
               /\ (delay_events t <> [] ->
                   (AuthorArticleController.indexOf authorList name
                    < Z.of_nat (List.length authorList) - 1)%Z)).
  { intros msg. exists (failed_author name msg), [author_request name].
    split; [apply results_plus_failed|]. split; [reflexivity|].
    split; [apply counts_ok_failed|]. split; [exact Htr|].
    split; [|intros H; now elim H].
    exists [], [], []. repeat split; auto. constructor. }
  destruct r as [searchData|e]; [|apply Hfail].
  destruct (get searchData "organic_results") as [organic|e]; [|apply Hfail].
  destruct (negb (truthy organic)
            || AuthorArticleController.is_zero (getprop organic "length"));
    [apply Hfail|].
  destruct (ParserService.parseOrganicResults organic) as [parsed|e];
    [|apply Hfail].
  clear Hfail.
  set (valid := ParserService.filterValidPublications parsed).
  destruct (saveLoop name valid 0 _) as [exn l2] eqn:Hloop.
  pose proof (saveLoop_inv typeErrorMessage World pool_insert pool_count
                name valid 0 _ exn l2 Hloop) as [Hrel Hcap].
  pose proof (saveLoop_adds name valid 0 _ exn l2 Hloop) as Hadd.
  unfold loop_related in Hrel. unfold loop_adds in Hadd. simpl in Hrel, Hadd, Hcap.
  destruct Hrel as (A1 & A2 & A3 & A4 & A5 & A6 & A7).
  destruct Hadd as (chk & unchk & tr & nr & k & B1 & B2 & B3 & B4 & B5 & B6 & B7 & B8).
  specialize (Hcap eq_refl ltac:(lia)).
  assert (Hlen : List.length chk <= List.length valid).
  { rewrite B1, length_app. lia. }
  assert (Hvalid : Forall (fun a => ParserService.isValidPublication a = true) chk).
  { apply (filter_valid_prefix parsed chk unchk). exact B1. }
  assert (Hres : forall err,
             Results.push_author
               (AuthorResult.mk (AuthorResult.author (authorResult l2))
                  (AuthorResult.fetched (authorResult l2))
                  (AuthorResult.saved (authorResult l2))
                  (AuthorResult.already_exists (authorResult l2))
                  (AuthorResult.articles (authorResult l2)) err)
               (results l2)
             = results_plus r0
                 [AuthorResult.mk (AuthorResult.author (authorResult l2))
                    (AuthorResult.fetched (authorResult l2))
                    (AuthorResult.saved (authorResult l2))
                    (AuthorResult.already_exists (authorResult l2))
                    (AuthorResult.articles (authorResult l2)) err]).
  { intros err. unfold results_plus, Results.push_author, sum_of, tagged_articles.
    simpl. rewrite A1, A2, A3, A4, B4, B5, app_nil_r. f_equal; lia. }
  assert (Hcounts : forall err,
             counts_ok
               (AuthorResult.mk (AuthorResult.author (authorResult l2))
                  (AuthorResult.fetched (authorResult l2))
                  (AuthorResult.saved (authorResult l2))
                  (AuthorResult.already_exists (authorResult l2))
                  (AuthorResult.articles (authorResult l2)) err)).
  { intros err. unfold counts_ok. simpl. rewrite A4, B4, B6, B7. simpl. lia. }
  destruct exn as [e|].
  - eexists. exists (author_request name :: tr ++ []).
    unfold AuthorArticleController.author_failed, AuthorResult.set_error.
    cbn [fst snd]. split; [apply Hres|]. split; [exact A3|].
    split; [apply Hcounts|].
    split; [rewrite B2, Htr, app_nil_r, <- app_assoc; reflexivity|].
    split.
    + exists chk, tr, []. repeat split; auto.
    + intros Hd. exfalso. apply Hd. rewrite app_nil_r.
      clear -B3. unfold delay_events. simpl.
      induction B3; simpl; auto.
  - set (pause := if (AuthorArticleController.indexOf authorList name
                      <? Z.of_nat (List.length authorList) - 1)%Z
                  then [EvDelay 2000%Z] else []).
    exists (authorResult l2), (author_request name :: tr ++ pause).
    cbn [fst snd].
    split.
    { pose proof (Hres (AuthorResult.error (authorResult l2))) as HR.
      destruct (authorResult l2). exact HR. }
    split; [exact A3|].
    split.
    { pose proof (Hcounts (AuthorResult.error (authorResult l2))) as HC.
      destruct (authorResult l2). exact HC. }
    split.
    { unfold pause.
      destruct (AuthorArticleController.indexOf authorList name
                <? Z.of_nat (List.length authorList) - 1)%Z; simpl.
      - rewrite B2, Htr, <- !app_assoc. reflexivity.
      - rewrite B2, Htr, app_nil_r, <- app_assoc. reflexivity. }
    split.
    + exists chk, tr, pause. repeat split; auto.
      unfold pause. destruct (_ <? _)%Z; auto.
    + intros Hd. unfold pause in Hd.
      destruct (Z.ltb_spec (AuthorArticleController.indexOf authorList name)
                  (Z.of_nat (List.length authorList) - 1)); [assumption|].
      exfalso. apply Hd. rewrite app_nil_r.
      clear -B3. unfold delay_events. simpl.
      induction B3; simpl; auto.
Qed.

(** The outer loop: the sub-summaries in the order of the names, the
    run-level results as their sums and concatenations, and the trace as
    the concatenation of the passes' events. *)
Lemma authorLoop_adds authorList todo :
  forall r0 st0,
  exists (ars : list AuthorResult.t) (ts : list (list event)),
    fst (authorLoop authorList todo r0 st0) = results_plus r0 ars
    /\ List.map AuthorResult.author ars = todo
    /\ Forall counts_ok ars
    /\ trace (snd (authorLoop authorList todo r0 st0)) = trace st0 ++ List.concat ts
    /\ Forall2 author_trace todo ts
    /\ Forall2 (fun name t =>
                  delay_events t <> [] ->
                  (AuthorArticleController.indexOf authorList name
                   < Z.of_nat (List.length authorList) - 1)%Z) todo ts.
Proof.
  induction todo as [|name rest IH]; intros r0 st0.
  - exists [], []. simpl. rewrite app_nil_r.
    split.
    { unfold results_plus, sum_of. simpl. rewrite !app_nil_r.
      destruct r0; simpl. f_equal; lia. }
    repeat split; auto.
  - destruct (processAuthor_adds authorList name r0 st0)
      as (ar & t & P1 & P2 & P3 & P4 & P5 & P6).
    cbn [AuthorArticleController.authorLoop].
    destruct (processAuthor authorList name r0 st0) as [r1 st1].
    cbn [fst snd] in P1, P4.
    destruct (IH r1 st1) as (ars & ts & Q1 & Q2 & Q3 & Q4 & Q5 & Q6).
    exists (ar :: ars), (t :: ts).
    split; [rewrite Q1, P1; apply results_plus_one|].
    split; [simpl; congruence|].
    split; [now constructor|].
    split; [rewrite Q4, P4; simpl; now rewrite <- app_assoc|].
    split; now constructor.
Qed.

Lemma results_plus_init (ars : list AuthorResult.t) :
  results_plus Results.init ars
  = Results.mk ars (sum_of AuthorResult.fetched ars) (sum_of AuthorResult.saved ars)
      (sum_of AuthorResult.already_exists ars)
      (List.concat (List.map tagged_articles ars)).
Proof. reflexivity. Qed.

(** A run over three names, in full. *)
Lemma fetch_three_names_adds (s : jsstring) (w : World) :
  List.length (AuthorArticleController.authorList_of s) = 3 ->
  exists (ars : list AuthorResult.t) (ts : list (list event)),
    fst (fetchArticlesByAuthors (VStr s) w)
    = Json 200
        (SuccessBody (js "Processed 3 authors")
           (mkSummary (sum_of AuthorResult.fetched ars)
              (sum_of AuthorResult.saved ars)
              (sum_of AuthorResult.already_exists ars))
           ars (List.concat (List.map tagged_articles ars)))
    /\ List.map AuthorResult.author ars = AuthorArticleController.authorList_of s
    /\ Forall counts_ok ars
    /\ trace (snd (fetchArticlesByAuthors (VStr s) w)) = List.concat ts
    /\ Forall2 author_trace (AuthorArticleController.authorList_of s) ts
    /\ Forall2 (fun name t =>
                  delay_events t <> [] ->
                  (AuthorArticleController.indexOf
                     (AuthorArticleController.authorList_of s) name
                   < Z.of_nat (List.length
                                 (AuthorArticleController.authorList_of s)) - 1)%Z)
         (AuthorArticleController.authorList_of s) ts.
Proof.
  intros Hlen.
  rewrite (fetch_three_names typeErrorMessage World axios_get pool_insert
             pool_count s w Hlen).
  cbn [fst snd].
  destruct (authorLoop_adds (AuthorArticleController.authorList_of s)
              (AuthorArticleController.authorList_of s) Results.init
              (mkState w []))
    as (ars & ts & Q1 & Q2 & Q3 & Q4 & Q5 & Q6).
  exists ars, ts. rewrite Q1, Q4, results_plus_init. cbn [Results.total_fetched
    Results.total_saved Results.total_already_exists Results.authors
    Results.articles_saved trace app].
  repeat split; auto.
Qed.

Lemma checks_of_no_http (checked : list publication) (tr : list event) :
  checks_of checked tr -> http_events tr = [].
Proof. unfold http_events. induction 1; simpl; auto. Qed.

Lemma checks_of_no_delay (checked : list publication) (tr : list event) :
  checks_of checked tr -> delay_events tr = [].
Proof. unfold delay_events. induction 1; simpl; auto. Qed.

Lemma author_trace_http (name : jsstring) (t : list event) :
  author_trace name t -> http_events t = [author_request name].
Proof.
  intros (chk & blocks & pause & Ht & Hc & _ & Hp). subst t.
  change (http_events (author_request name :: blocks ++ pause))
    with (author_request name :: http_events (blocks ++ pause)).
  rewrite http_events_app, (checks_of_no_http chk blocks Hc).
  destruct Hp as [Hp|Hp]; subst pause; reflexivity.
Qed.

Lemma traces_http (names : list jsstring) (ts : list (list event)) :
  Forall2 author_trace names ts ->
  http_events (List.concat ts) = List.map author_request names.
Proof.
  induction 1 as [|name t names ts Ht _ IH]; [reflexivity|].
  simpl. rewrite http_events_app, IH, (author_trace_http name t Ht). reflexivity.
Qed.

(** X13.  The trace of a run over three names is the concatenation of
    three passes, one per name and in the order of the names; each pass is
    the search request for its name at offset 0, then for each candidate
    reached the COUNT query followed or not by the INSERT, then at most one
    pause.  So the run makes exactly three requests to the search API. *)
Theorem run_trace (s : jsstring) (w : World) :
  List.length (AuthorArticleController.authorList_of s) = 3 ->
  (exists ts : list (list event),
      trace (snd (fetchArticlesByAuthors (VStr s) w)) = List.concat ts
      /\ Forall2 author_trace (AuthorArticleController.authorList_of s) ts)
  /\ http_events (trace (snd (fetchArticlesByAuthors (VStr s) w)))
     = List.map author_request (AuthorArticleController.authorList_of s).
Proof.
  intros Hlen.
  destruct (fetch_three_names_adds s w Hlen) as (ars & ts & _ & _ & _ & Ht & Hts & _).
  split; [exists ts; auto|].
  rewrite Ht. now apply traces_http.
Qed.

Lemma sanitizeString_string (v v' : value) :
  truthy v = true -> ParserService.sanitizeString v = Ok v' ->
  exists s : jsstring, v' = VStr s.
Proof.
  unfold ParserService.sanitizeString. intros Ht. rewrite Ht. simpl negb. cbv iota.
  intros H. apply bind_Ok_inv in H as [s [_ H]]. inversion H. eauto.
Qed.

(** The line logged after a successful insert cannot throw: the title it
    shows is null or a string. *)
Lemma saved_line_shown (a : publication) (db : DbArticle.t) :
  AuthorArticleController.dbArticle_of a = Ok db ->
  exists shown : jsstring, ToString (DbArticle.paper_title db) = Ok shown.
Proof.
  unfold AuthorArticleController.dbArticle_of. intros H.
  apply bind_Ok_inv in H as [t [Ht H]].
  apply bind_Ok_inv in H as [au [_ H]].
  apply bind_Ok_inv in H as [jo [_ H]].
  apply bind_Ok_inv in H as [ab [_ H]].
  apply bind_Ok_inv in H as [pu [_ H]].
  inversion H; subst. simpl.
  pose proof (sanitizeString_sanitized _ _ Ht) as Hs.
  destruct t; try discriminate Hs; simpl; eauto.
Qed.

Lemma dbArticle_of_well_formed (a : publication) (db : DbArticle.t) :
  ParserService.isValidPublication a = true ->
  AuthorArticleController.dbArticle_of a = Ok db ->
  insert_well_formed (ArticleModel.insert_values db) = true
  /\ exists rest : list value,
       ArticleModel.insert_values db = google_scholar_id a :: rest.
Proof.
  unfold ParserService.isValidPublication. intros Hv H.
  apply andb_true_iff in Hv as [Htitle Hid].
  unfold AuthorArticleController.dbArticle_of in H.
  apply bind_Ok_inv in H as [t [Ht H]].
  apply bind_Ok_inv in H as [au [Hau H]].
  apply bind_Ok_inv in H as [jo [Hjo H]].
  apply bind_Ok_inv in H as [ab [Hab H]].
  apply bind_Ok_inv in H as [pu [Hpu H]].
  inversion H; subst db. clear H.
  unfold ArticleModel.insert_values. cbn [DbArticle.google_scholar_id
    DbArticle.paper_title DbArticle.authors DbArticle.publication_year
    DbArticle.journal DbArticle.article_url DbArticle.abstract_text
    DbArticle.citation_count DbArticle.cites_id DbArticle.pdf_url
    DbArticle.publisher].
  split; [|eexists; reflexivity].
  cbn [insert_well_formed]. rewrite Hid.
  pose proof (sanitizeString_sanitized _ _ Ht) as St.
  destruct (sanitizeString_string _ _ Htitle Ht) as [ts Ets]. subst t.
  rewrite St, (sanitizeString_sanitized _ _ Hau), (sanitizeString_sanitized _ _ Hjo),
    (sanitizeString_sanitized _ _ Hab), (sanitizeString_sanitized _ _ Hpu).
  reflexivity.
Qed.

Lemma inserts_checked_nil : inserts_checked [].
Proof. intros [|x pre] vals post H; discriminate H. Qed.

Lemma inserts_checked_cons (e : event) (tr : list event) :
  is_insert e = false -> inserts_checked tr -> inserts_checked (e :: tr).
Proof.
  intros He Htr pre vals post H.
  destruct pre as [|x pre].
  - simpl in H. inversion H; subst. discriminate He.
  - simpl in H. inversion H; subst.
    destruct (Htr pre vals post eq_refl) as (pre' & id & rest & -> & -> & Hw).
    exists (x :: pre'), id, rest. auto.
Qed.

Lemma inserts_checked_app (a b : list event) :
  inserts_checked a -> inserts_checked b ->
  (forall vals post, b <> EvInsert vals :: post) ->
  inserts_checked (a ++ b).
Proof.
  intros Ha Hb Hhead pre vals post H.
  apply app_eq_app in H as [l [[H1 H2]|[H1 H2]]].
  - destruct l as [|x l].
    + simpl in H2. symmetry in H2. now apply Hhead in H2.
    + simpl in H2. inversion H2; subst.
      apply (Ha pre vals l eq_refl).
  - destruct (Hb l vals post H2) as (pre' & id & rest & -> & -> & Hw).
    exists (a ++ pre'), id, rest. subst pre. rewrite app_assoc. auto.
Qed.

Lemma checks_of_inserts_checked (checked : list publication) (tr : list event) :
  checks_of checked tr ->
  Forall (fun a => ParserService.isValidPublication a = true) checked ->
  inserts_checked tr.
Proof.
  induction 1 as [|a rest tr _ IH|a db rest tr Hdb _ IH]; intros Hv.
  - apply inserts_checked_nil.
  - inversion Hv; subst. apply inserts_checked_cons; auto.
  - inversion Hv as [|? ? Ha Hrest]; subst.
    destruct (dbArticle_of_well_formed a db Ha Hdb) as [Hw [vs Evs]].
    intros pre vals post H.
    destruct pre as [|x pre]; [discriminate H|].
    simpl in H. inversion H as [[Hx H']]. clear H.
    destruct pre as [|y pre].
    + simpl in H'. inversion H'; subst.
      exists [], (google_scholar_id a), vs. rewrite <- Evs. auto.
    + simpl in H'. inversion H' as [[Hy H'']]. clear H'.
      destruct (IH Hrest pre vals post H'') as (pre' & id & rs & -> & -> & Hw').
      exists (EvSelectCount (google_scholar_id a)
              :: EvInsert (ArticleModel.insert_values db) :: pre'), id, rs. auto.
Qed.

Lemma author_trace_inserts_checked (name : jsstring) (t : list event) :
  author_trace name t -> inserts_checked t.
Proof.
  intros (chk & blocks & pause & Ht & Hc & Hv & Hp). subst t.
  apply inserts_checked_cons; [reflexivity|].
  apply inserts_checked_app.
  - now apply (checks_of_inserts_checked chk).
  - destruct Hp as [Hp|Hp]; subst pause.
    + apply inserts_checked_nil.
    + apply inserts_checked_cons; [reflexivity|apply inserts_checked_nil].
  - intros vals post. destruct Hp as [Hp|Hp]; subst pause; discriminate.
Qed.

Lemma traces_inserts_checked (names : list jsstring) (ts : list (list event)) :
  Forall2 author_trace names ts -> inserts_checked (List.concat ts).
Proof.
  induction 1 as [|name t names ts Ht Hts IH]; [apply inserts_checked_nil|].
  simpl. apply inserts_checked_app; [now apply (author_trace_inserts_checked name)|exact IH|].
  intros vals post. destruct Hts as [|n2 t2 ns2 ts2 Ht2 _]; [discriminate|].
  destruct Ht2 as (chk & blocks & pause & Et2 & _). subst t2. discriminate.
Qed.

(** X14.  In a run over three names, every INSERT comes immediately after
    the COUNT query of the identifier it inserts; it carries eleven values,
    the identifier first and truthy, the title a string, and every text
    column null or a string with no white space at its ends and no two
    consecutive white-space code units. *)
Theorem inserts_follow_checks (s : jsstring) (w : World) :
  List.length (AuthorArticleController.authorList_of s) = 3 ->
  inserts_checked (trace (snd (fetchArticlesByAuthors (VStr s) w))).
Proof.
  intros Hlen.
  destruct (fetch_three_names_adds s w Hlen) as (ars & ts & _ & _ & _ & Ht & Hts & _).
  rewrite Ht. now apply (traces_inserts_checked (AuthorArticleController.authorList_of s)).
Qed.

Lemma tagged_length (ars : list AuthorResult.t) :
  Forall counts_ok ars ->
  List.length (List.concat (List.map tagged_articles ars))
  = sum_of AuthorResult.saved ars.
Proof.
  unfold sum_of.
  induction 1 as [|a ars Ha _ IH]; [reflexivity|].
  simpl. rewrite length_app, IH. unfold tagged_articles. rewrite length_map.
  destruct Ha as [Ha _]. rewrite Ha. reflexivity.
Qed.

(** X15.  In the response of a run over three names, the run-level list
    [articles_saved] is the concatenation, in the order of the authors, of
    each author's [articles] list with the author's name attached to each
    entry; each author's [saved] is the length of the author's list, and
    [total_saved] is the length of the run-level list. *)
Theorem articles_saved_by_author (s : jsstring) (w : World) :
  List.length (AuthorArticleController.authorList_of s) = 3 ->
  let r := fst (fetchArticlesByAuthors (VStr s) w) in
  response_articles_saved r
  = List.concat (List.map tagged_articles (response_authors r))
  /\ Forall (fun a => AuthorResult.saved a = List.length (AuthorResult.articles a))
       (response_authors r)
  /\ exists sm : summary,
       response_summary r = Some sm
       /\ sum_total_saved sm = List.length (response_articles_saved r).
Proof.
  intros Hlen.
  destruct (fetch_three_names_adds s w Hlen) as (ars & ts & Hr & _ & Hc & _).
  rewrite Hr. cbn [response_articles_saved response_authors response_summary].
  split; [reflexivity|]. split.
  - eapply Forall_impl; [|exact Hc]. intros a Ha. apply Ha.
  - eexists. split; [reflexivity|]. simpl. symmetry. now apply tagged_length.
Qed.

Lemma counts_sum (ars : list AuthorResult.t) :
  Forall counts_ok ars ->
  sum_of AuthorResult.saved ars + sum_of AuthorResult.already_exists ars
  <= sum_of AuthorResult.fetched ars
  /\ sum_of AuthorResult.saved ars <= 3 * List.length ars.
Proof.
  unfold sum_of.
  induction 1 as [|a ars Ha _ IH]; [simpl; lia|].
  destruct Ha as (_ & H3 & Hle). simpl. lia.
Qed.

(** X16.  In the response of a run over three names, no author has more
    saved and existing articles together than fetched ones, and the same
    holds of the totals; at most nine articles are saved in a run. *)
Theorem counters_bounded (s : jsstring) (w : World) :
  List.length (AuthorArticleController.authorList_of s) = 3 ->
  let r := fst (fetchArticlesByAuthors (VStr s) w) in
  Forall (fun a => AuthorResult.saved a + AuthorResult.already_exists a
                   <= AuthorResult.fetched a) (response_authors r)
  /\ exists sm : summary,
       response_summary r = Some sm
       /\ sum_total_saved sm + sum_total_already_exists sm <= sum_total_fetched sm
       /\ sum_total_saved sm <= 9.
Proof.
  intros Hlen.
  destruct (fetch_three_names_adds s w Hlen) as (ars & ts & Hr & Hn & Hc & _).
  rewrite Hr. cbn [response_authors response_summary].
  split.
  - eapply Forall_impl; [|exact Hc]. intros a Ha. apply Ha.
  - eexists. split; [reflexivity|]. simpl.
    destruct (counts_sum ars Hc) as [H1 H2].
    assert (Hl : List.length ars = 3).
    { rewrite <- Hlen, <- Hn. now rewrite length_map. }
    lia.
Qed.

Lemma indexOf_last (a b c : jsstring) :
  c <> a -> c <> b -> AuthorArticleController.indexOf [a; b; c] c = 2%Z.
Proof.
  intros Ha Hb. cbn [AuthorArticleController.indexOf].
  destruct (jsstring_eqb a c) eqn:E1.
  { apply jsstring_eqb_eq in E1. congruence. }
  destruct (jsstring_eqb b c) eqn:E2.
  { apply jsstring_eqb_eq in E2. congruence. }
  assert (E3 : jsstring_eqb c c = true) by now apply jsstring_eqb_eq.
  rewrite E3. reflexivity.
Qed.

Lemma author_trace_delays (name : jsstring) (t : list event) :
  author_trace name t -> List.length (delay_events t) <= 1.
Proof.
  intros (chk & blocks & pause & Ht & Hc & _ & Hp). subst t.
  change (delay_events (author_request name :: blocks ++ pause))
    with (delay_events (blocks ++ pause)).
  rewrite delay_events_app, (checks_of_no_delay chk blocks Hc).
  destruct Hp as [Hp|Hp]; subst pause; simpl; lia.
Qed.

(** X17.  In a run over three names the last of which differs from the
    other two, there are at most two pauses, at most one after each of the
    first two authors and none after the last: the pass of the last author
    has no pause in it. *)
Theorem no_pause_after_last (s a b c : jsstring) (w : World) :
  AuthorArticleController.authorList_of s = [a; b; c] ->
  c <> a -> c <> b ->
  exists ta tb tc : list event,
    trace (snd (fetchArticlesByAuthors (VStr s) w)) = ta ++ tb ++ tc
    /\ author_trace a ta /\ author_trace b tb /\ author_trace c tc
    /\ delay_events tc = []
    /\ List.length
         (delay_events (trace (snd (fetchArticlesByAuthors (VStr s) w)))) <= 2.
Proof.
  intros Hs Ha Hb.
  assert (Hlen : List.length (AuthorArticleController.authorList_of s) = 3)
    by now rewrite Hs.
  destruct (fetch_three_names_adds s w Hlen) as (ars & ts & _ & _ & _ & Ht & Hts & Hd).
  rewrite Hs in Hts, Hd.
  inversion Hts as [|? ta ? ts1 Hta Hts1]; subst.
  inversion Hts1 as [|? tb ? ts2 Htb Hts2]; subst.
  inversion Hts2 as [|? tc ? ts3 Htc Hts3]; subst.
  inversion Hts3; subst.
  inversion Hd as [|? ? ? ? _ Hd1]; subst.
  inversion Hd1 as [|? ? ? ? _ Hd2]; subst.
  inversion Hd2 as [|? ? ? ? Hdc _]; subst.
  assert (Hc0 : delay_events tc = []).
  { destruct (delay_events tc) eqn:E; [reflexivity|].
    assert (Hne : e :: l <> []) by discriminate.
    apply Hdc in Hne. rewrite (indexOf_last a b c Ha Hb) in Hne. simpl in Hne. lia. }
  exists ta, tb, tc. rewrite Ht. simpl. rewrite app_nil_r.
  repeat split; auto.
  rewrite !delay_events_app, Hc0, app_nil_r, length_app.
  pose proof (author_trace_delays a ta Hta).
  pose proof (author_trace_delays b tb Htb). lia.
Qed.

(** X18.  When the search for a name resolves with a body that carries no
    error and whose [organic_results] is missing, falsy or an empty list,
    the pass pushes the sub-summary with the error 'No articles found' and
    all counters at 0, leaves the run-level counters and list as they were,
    and makes no storage operation and no pause: its only event is the
    search request. *)
Theorem no_results_author (authorList : list jsstring) (name : jsstring)
    (r0 : Results.t) (st0 : state World) (data : value) (w1 : World) :
  axios_get (world st0)
    (js "author:" ++ [Char.dquote] ++ name ++ [Char.dquote]) 0%Z = (Ok data, w1) ->
  nullish data = false ->
  truthy (getprop data "error") = false ->
  truthy (getprop data "organic_results") = false
  \/ getprop (getprop data "organic_results") "length" = VNum 0 ->
  processAuthor authorList name r0 st0
  = (results_plus r0 [failed_author name (js "No articles found")],
     mkState w1 (trace st0 ++ [author_request name])).
Proof.
  intros Hget Hn He Hempty.
  unfold AuthorArticleController.processAuthor, SerpApiService.searchByAuthor,
    SerpApiService.search.
  rewrite Hget. unfold SerpApiService.search_try, get. simpl bind.
  rewrite Hn. simpl bind. rewrite He. cbv iota. rewrite Hn. cbv iota.
  assert (Hc : negb (truthy (getprop data "organic_results"))
               || AuthorArticleController.is_zero
                    (getprop (getprop data "organic_results") "length") = true).
  { destruct Hempty as [H|H]; rewrite H; [reflexivity|].
    apply orb_true_r. }
  rewrite Hc. rewrite results_plus_failed. reflexivity.
Qed.

(** X19.  A truthy [authors] parameter that is not a string (a repeated
    query parameter gives an array, a bracketed one an object) passes the
    first validation and makes [authors.split] throw: the handler hands the
    [TypeError] to [next] without any call to the search API or the
    database, and with V8's wording the error handler answers it with
    status 500, not 400. *)
Theorem non_string_authors (v : value) (w : World) :
  truthy v = true -> (forall s : jsstring, v <> VStr s) ->
  fetchArticlesByAuthors v w
  = (Next (TypeError (NotAFunction "authors.split")), mkState w [])
  /\ ErrorHandler.errorHandler v8_message (TypeError (NotAFunction "authors.split"))
     = (500%Z, js "authors.split is not a function").
Proof.
  intros Ht Hs. split; [|vm_compute; reflexivity].
  unfold AuthorArticleController.fetchArticlesByAuthors. rewrite Ht.
  simpl negb. cbv iota.
  destruct v; try discriminate Ht; try reflexivity.
  exfalso. now apply (Hs s).
Qed.

Section AllStored.
Hypothesis Hstored : forall (w : World) (id : value),
    exists (n : Z) (w' : World), pool_count w id = (Ok n, w') /\ (0 < n)%Z.

Lemma insert_events_count (tr : list event) (id : value) :
  insert_events (tr ++ [EvSelectCount id]) = insert_events tr.
Proof. unfold insert_events. rewrite filter_app. simpl. apply app_nil_r. Qed.

(** Every candidate reached is found in storage: nothing is inserted or
    saved, and unless the line logged for a candidate throws, every
    candidate is counted. *)
Lemma saveLoop_all_stored name (arts : list publication) :
  forall l : loop_state,
  exists (exn : option jserror) (l' : loop_state),
    saveLoop name arts 0 l = (exn, l')
    /\ insert_events (trace (lst l')) = insert_events (trace (lst l))
    /\ AuthorResult.saved (authorResult l') = AuthorResult.saved (authorResult l)
    /\ (exn = None ->
        AuthorResult.already_exists (authorResult l')
        = AuthorResult.already_exists (authorResult l) + List.length arts).
Proof.
  induction arts as [|article rest IH]; intros l.
  - exists None, l. simpl. repeat split; auto.
  - rewrite saveLoop_cons. change (3 <=? 0)%nat with false. cbv iota.
    unfold ArticleModel.existsByGoogleScholarId.
    destruct (Hstored (world (lst l)) (google_scholar_id article))
      as (n & w' & Hc & Hn).
    rewrite Hc. apply Z.ltb_lt in Hn. rewrite Hn.
    destruct (ToString (title article)) as [shown|ex].
    + destruct (IH (AuthorArticleController.count_already_exists l
                      (emit (EvSelectCount (google_scholar_id article)) w' (lst l))))
        as (exn & l' & H1 & H2 & H3 & H4).
      exists exn, l'. split; [exact H1|].
      split.
      { rewrite H2. unfold emit. cbn [AuthorArticleController.count_already_exists
          AuthorArticleController.st trace]. apply insert_events_count. }
      split; [rewrite H3; reflexivity|].
      intros Hexn. rewrite (H4 Hexn). simpl. lia.
    + eexists. eexists. split; [reflexivity|].
      split; [unfold emit; cbn [AuthorArticleController.st trace];
              apply insert_events_count|].
      split; [reflexivity|discriminate].
Qed.

Lemma insert_events_request (tr : list event) (name : jsstring) :
  insert_events (tr ++ [author_request name]) = insert_events tr.
Proof. unfold insert_events. rewrite filter_app. simpl. apply app_nil_r. Qed.

Lemma processAuthor_all_stored authorList name r0 st0 :
  exists ar : AuthorResult.t,
    fst (processAuthor authorList name r0 st0) = results_plus r0 [ar]
    /\ AuthorResult.saved ar = 0
    /\ AuthorResult.articles ar = []
    /\ (AuthorResult.error ar = None ->
        AuthorResult.already_exists ar = AuthorResult.fetched ar)
    /\ insert_events (trace (snd (processAuthor authorList name r0 st0)))
       = insert_events (trace st0).
Proof.
  pose proof (searchByAuthor_trace typeErrorMessage World axios_get name 0%Z st0)
    as Htr.
  fold (author_request name) in Htr.
  unfold AuthorArticleController.processAuthor.
  destruct (SerpApiService.searchByAuthor typeErrorMessage axios_get name 0 st0)
    as [r st1].
  simpl snd in Htr.
  assert (Hfail : forall msg,
             exists ar : AuthorResult.t,
               fst (Results.push_author
                      (AuthorResult.set_error msg (AuthorResult.init name)) r0, st1)
               = results_plus r0 [ar]
               /\ AuthorResult.saved ar = 0
               /\ AuthorResult.articles ar = []
               /\ (AuthorResult.error ar = None ->
                   AuthorResult.already_exists ar = AuthorResult.fetched ar)
               /\ insert_events
                    (trace (snd (Results.push_author
                                   (AuthorResult.set_error msg (AuthorResult.init name))
                                   r0, st1)))
                  = insert_events (trace st0)).
  { intros msg. exists (failed_author name msg).
    split; [apply results_plus_failed|]. repeat split.
    cbn [snd]. rewrite Htr. apply insert_events_request. }
  destruct r as [searchData|e]; [|apply Hfail].
  destruct (get searchData "organic_results") as [organic|e]; [|apply Hfail].
  destruct (negb (truthy organic)
            || AuthorArticleController.is_zero (getprop organic "length"));
    [apply Hfail|].
  destruct (ParserService.parseOrganicResults organic) as [parsed|e];
    [|apply Hfail].
  clear Hfail.
  set (valid := ParserService.filterValidPublications parsed).
  destruct (saveLoop_all_stored name valid
              (mkLoop (AuthorResult.set_fetched (List.length valid)
                         (AuthorResult.init name))
                      (Results.add_fetched (List.length valid) r0) st1))
    as (exn & l2 & Hloop & C1 & C2 & C3).
  rewrite Hloop.
  pose proof (saveLoop_inv typeErrorMessage World pool_insert pool_count
                name valid 0 _ exn l2 Hloop) as [Hrel _].
  pose proof (saveLoop_adds name valid 0 _ exn l2 Hloop) as Hadd.
  unfold loop_related in Hrel. unfold loop_adds in Hadd.
  simpl in Hrel, Hadd, C1, C2, C3.
  destruct Hrel as (A1 & A2 & A3 & A4 & A5 & A6 & A7).
  destruct Hadd as (chk & unchk & tr & nr & k & B1 & B2 & B3 & B4 & B5 & B6 & B7 & B8).
  assert (Hnr : nr = []).
  { destruct nr; [reflexivity|]. simpl in B6. lia. }
  rewrite Hnr in B4, B5. simpl in B4, B5. rewrite app_nil_r in B5.
  destruct exn as [e|].
  - exists (AuthorResult.set_error (message_of typeErrorMessage e)
              (authorResult l2)).
    unfold AuthorArticleController.author_failed, AuthorResult.set_error.
    cbn [fst snd]. split.
    { unfold results_plus, Results.push_author, sum_of, tagged_articles.
      simpl. rewrite A1, A2, B4, B5, app_nil_r. simpl. f_equal; lia. }
    split; [exact C2|]. split; [exact B4|]. split; [discriminate|].
    rewrite C1, Htr. apply insert_events_request.
  - exists (authorResult l2). cbn [fst snd].
    split.
    { unfold results_plus, Results.push_author, sum_of, tagged_articles.
      simpl. rewrite A1, A2, B4, B5, app_nil_r. simpl. f_equal; lia. }
    split; [exact C2|]. split; [exact B4|].
    split; [intros _; rewrite (C3 eq_refl), A4; reflexivity|].
    destruct (AuthorArticleController.indexOf authorList name
              <? Z.of_nat (List.length authorList) - 1)%Z.
    + unfold emit. cbn [trace]. unfold insert_events. rewrite filter_app. simpl.
      rewrite app_nil_r. fold (insert_events (trace (lst l2))).
      rewrite C1, Htr. apply insert_events_request.
    + rewrite C1, Htr. apply insert_events_request.
Qed.

Lemma authorLoop_all_stored authorList todo :
  forall r0 st0,
  exists ars : list AuthorResult.t,
    fst (authorLoop authorList todo r0 st0) = results_plus r0 ars
    /\ Forall (fun ar => AuthorResult.saved ar = 0
                         /\ AuthorResult.articles ar = []
                         /\ (AuthorResult.error ar = None ->
                             AuthorResult.already_exists ar
                             = AuthorResult.fetched ar))
         ars
    /\ insert_events (trace (snd (authorLoop authorList todo r0 st0)))
       = insert_events (trace st0).
Proof.
  induction todo as [|name rest IH]; intros r0 st0.
  - exists []. simpl. split; [|split; [constructor|reflexivity]].
    unfold results_plus, sum_of. simpl. rewrite !app_nil_r.
    destruct r0; simpl. f_equal; lia.
  - destruct (processAuthor_all_stored authorList name r0 st0)
      as (ar & P1 & P2 & P3 & P4 & P5).
    cbn [AuthorArticleController.authorLoop].
    destruct (processAuthor authorList name r0 st0) as [r1 st1].
    cbn [fst snd] in P1, P5.
    destruct (IH r1 st1) as (ars & Q1 & Q2 & Q3).
    exists (ar :: ars).
    split; [rewrite Q1, P1; apply results_plus_one|].
    split; [constructor; auto|]. congruence.
Qed.

(** X20.  When the COUNT query answers a positive count for every
    identifier, a run over three names issues no INSERT and saves nothing,
    and every author whose pass ended without an error has every fetched
    article reported as already existing. *)
Theorem rerun_saves_nothing (s : jsstring) (w : World) :
  List.length (AuthorArticleController.authorList_of s) = 3 ->
  let run := fetchArticlesByAuthors (VStr s) w in
  insert_events (trace (snd run)) = []
  /\ response_articles_saved (fst run) = []
  /\ Forall (fun ar => AuthorResult.saved ar = 0
                       /\ AuthorResult.articles ar = []
                       /\ (AuthorResult.error ar = None ->
                           AuthorResult.already_exists ar
                           = AuthorResult.fetched ar))
       (response_authors (fst run)).
Proof.
  intros Hlen.
  rewrite (fetch_three_names typeErrorMessage World axios_get pool_insert
             pool_count s w Hlen).
  cbn [fst snd response_articles_saved response_authors].
  destruct (authorLoop_all_stored (AuthorArticleController.authorList_of s)
              (AuthorArticleController.authorList_of s) Results.init
              (mkState w []))
    as (ars & Q1 & Q2 & Q3).
  rewrite Q1, Q3, results_plus_init.
  cbn [Results.authors Results.articles_saved].
  split; [reflexivity|]. split; [|exact Q2].
  clear -Q2. induction Q2 as [|a ars Ha _ IH]; [reflexivity|].
  simpl. rewrite IH. unfold tagged_articles.
  destruct Ha as (_ & Ha & _). rewrite Ha. reflexivity.
Qed.
End AllStored.
End ControllerTrace.

Lemma run_trace_witness :
  (exists ts : list (list event),
      trace (snd (Scenario.fetchArticlesByAuthors (VStr Scenario.demo_request)
                    Scenario.demo_world)) = List.concat ts
      /\ Forall2 author_trace
           (AuthorArticleController.authorList_of Scenario.demo_request) ts)
  /\ http_events
       (trace (snd (Scenario.fetchArticlesByAuthors (VStr Scenario.demo_request)
                      Scenario.demo_world)))
     = List.map author_request
         (AuthorArticleController.authorList_of Scenario.demo_request).
Proof.
  exact (run_trace v8_message Scenario.World Scenario.axios_get
           Scenario.pool_insert Scenario.pool_count Scenario.demo_request
           Scenario.demo_world ltac:(vm_compute; reflexivity)).
Defined.

(** The events of the run over the three authors of [Scenario.demo_world]:
    Ann's pass stops after its third insert, Bob's search fails, and Cy's
    pass, the last, has no pause. *)
Example demo_trace :
  trace (snd (Scenario.fetchArticlesByAuthors (VStr Scenario.demo_request)
                Scenario.demo_world))
  = [ author_request (js "Ann");
      EvSelectCount (VStr (js "a1"));
      EvInsert (ArticleModel.insert_values
                  (DbArticle.mk (VStr (js "a1")) (VStr (js "T1")) VNull VNull
                     VNull VNull VNull (VNum 0) VNull VNull VNull));
      EvSelectCount (VStr (js "a2"));
      EvSelectCount (VStr (js "a3"));
      EvInsert (ArticleModel.insert_values
                  (DbArticle.mk (VStr (js "a3")) (VStr (js "T3")) VNull VNull
                     VNull VNull VNull (VNum 0) VNull VNull VNull));
      EvSelectCount (VStr (js "a4"));
      EvInsert (ArticleModel.insert_values
                  (DbArticle.mk (VStr (js "a4")) (VStr (js "T4")) VNull VNull
                     VNull VNull VNull (VNum 0) VNull VNull VNull));
      EvDelay 2000;
      author_request (js "Bob");
      author_request (js "Cy");
      EvSelectCount (VStr (js "a1"));
      EvSelectCount (VStr (js "c2"));
      EvInsert (ArticleModel.insert_values
                  (DbArticle.mk (VStr (js "c2")) (VStr (js "U2")) VNull VNull
                     VNull VNull VNull (VNum 0) VNull VNull VNull));
      EvSelectCount (VStr (js "c3"));
      EvInsert (ArticleModel.insert_values
                  (DbArticle.mk (VStr (js "c3")) (VStr (js "U3")) VNull VNull
                     VNull VNull VNull (VNum 0) VNull VNull VNull)) ].
Proof. vm_compute. reflexivity. Qed.

Lemma inserts_follow_checks_witness :
  inserts_checked
    (trace (snd (Scenario.fetchArticlesByAuthors (VStr Scenario.demo_request)
                   Scenario.demo_world))).
Proof.
  exact (inserts_follow_checks v8_message Scenario.World Scenario.axios_get
           Scenario.pool_insert Scenario.pool_count Scenario.demo_request
           Scenario.demo_world ltac:(vm_compute; reflexivity)).
Defined.

Lemma articles_saved_by_author_witness :
  let r := fst (Scenario.fetchArticlesByAuthors (VStr Scenario.demo_request)
                  Scenario.demo_world) in
  response_articles_saved r
  = List.concat (List.map tagged_articles (response_authors r))
  /\ Forall (fun a => AuthorResult.saved a = List.length (AuthorResult.articles a))
       (response_authors r)
  /\ exists sm : summary,
       response_summary r = Some sm
       /\ sum_total_saved sm = List.length (response_articles_saved r).
Proof.
  exact (articles_saved_by_author v8_message Scenario.World Scenario.axios_get
           Scenario.pool_insert Scenario.pool_count Scenario.demo_request
           Scenario.demo_world ltac:(vm_compute; reflexivity)).
Defined.

Lemma counters_bounded_witness :
  let r := fst (Scenario.fetchArticlesByAuthors (VStr Scenario.demo_request)
                  Scenario.demo_world) in
  Forall (fun a => AuthorResult.saved a + AuthorResult.already_exists a
                   <= AuthorResult.fetched a) (response_authors r)
  /\ exists sm : summary,
       response_summary r = Some sm
       /\ sum_total_saved sm + sum_total_already_exists sm <= sum_total_fetched sm
       /\ sum_total_saved sm <= 9.
Proof.
  exact (counters_bounded v8_message Scenario.World Scenario.axios_get
           Scenario.pool_insert Scenario.pool_count Scenario.demo_request
           Scenario.demo_world ltac:(vm_compute; reflexivity)).
Defined.

Lemma no_pause_after_last_witness :
  exists ta tb tc : list event,
    trace (snd (Scenario.fetchArticlesByAuthors (VStr Scenario.demo_request)
                  Scenario.demo_world)) = ta ++ tb ++ tc
    /\ author_trace (js "Ann") ta /\ author_trace (js "Bob") tb
    /\ author_trace (js "Cy") tc
    /\ delay_events tc = []
    /\ List.length
         (delay_events
            (trace (snd (Scenario.fetchArticlesByAuthors
                           (VStr Scenario.demo_request) Scenario.demo_world))))
       <= 2.
Proof.
  refine (no_pause_after_last v8_message Scenario.World Scenario.axios_get
            Scenario.pool_insert Scenario.pool_count Scenario.demo_request
            (js "Ann") (js "Bob") (js "Cy") Scenario.demo_world
            ltac:(vm_compute; reflexivity) _ _);
    intros H; vm_compute in H; discriminate H.
Defined.

(** With a name given twice, the index of the last name is that of its
    first occurrence, and the pass of the last author ends with a pause. *)
Example pause_after_repeated_name :
  let w := Scenario.mkWorld
             [ (Scenario.author_query "Ann",
                Scenario.page [Scenario.item "a1" "T1"]) ] [] 10 [] in
  List.map is_delay
    (trace (snd (Scenario.fetchArticlesByAuthors (VStr (js "Ann,Bob,Ann")) w)))
  = [false; false; false; true; false; false; false; true].
Proof. vm_compute. reflexivity. Qed.

Lemma no_results_author_witness :
  AuthorArticleController.processAuthor v8_message Scenario.axios_get
    Scenario.pool_insert Scenario.pool_count [js "Ann"] (js "Ann") Results.init
    (mkState no_results_world [])
  = (results_plus Results.init [failed_author (js "Ann") (js "No articles found")],
     mkState no_results_world ([] ++ [author_request (js "Ann")])).
Proof.
  refine (no_results_author v8_message Scenario.World Scenario.axios_get
            Scenario.pool_insert Scenario.pool_count [js "Ann"] (js "Ann")
            Results.init (mkState no_results_world [])
            (VObj [("organic_results", VArr [])]) no_results_world _ _ _ _).
  - vm_compute. reflexivity.
  - reflexivity.
  - reflexivity.
  - right. reflexivity.
Defined.

Lemma non_string_authors_witness :
  Scenario.fetchArticlesByAuthors (VArr [VStr (js "Ann"); VStr (js "Bob")])
    Scenario.demo_world
  = (Next (TypeError (NotAFunction "authors.split")),
     mkState Scenario.demo_world [])
  /\ ErrorHandler.errorHandler v8_message (TypeError (NotAFunction "authors.split"))
     = (500%Z, js "authors.split is not a function").
Proof.
  refine (non_string_authors v8_message Scenario.World Scenario.axios_get
            Scenario.pool_insert Scenario.pool_count
            (VArr [VStr (js "Ann"); VStr (js "Bob")]) Scenario.demo_world _ _).
  - reflexivity.
  - intros s H. discriminate H.
Defined.

Lemma rerun_saves_nothing_witness :
  let run := AuthorArticleController.fetchArticlesByAuthors v8_message
               Scenario.axios_get Scenario.pool_insert all_stored_count
               (VStr Scenario.demo_request) Scenario.demo_world in
  insert_events (trace (snd run)) = []
  /\ response_articles_saved (fst run) = []
  /\ Forall (fun ar => AuthorResult.saved ar = 0
                       /\ AuthorResult.articles ar = []
                       /\ (AuthorResult.error ar = None ->
                           AuthorResult.already_exists ar
                           = AuthorResult.fetched ar))
       (response_authors (fst run)).
Proof.
  refine (rerun_saves_nothing v8_message Scenario.World Scenario.axios_get
            Scenario.pool_insert all_stored_count _ Scenario.demo_request
            Scenario.demo_world ltac:(vm_compute; reflexivity)).
  intros w id. exists 1%Z, w. split; [reflexivity|lia].
Defined.

(** The counters of that run: five, none and three articles fetched, all of
    them reported as existing. *)
Example rerun_counters :
  let run := AuthorArticleController.fetchArticlesByAuthors v8_message
               Scenario.axios_get Scenario.pool_insert all_stored_count
               (VStr Scenario.demo_request) Scenario.demo_world in
  List.map AuthorResult.fetched (response_authors (fst run)) = [5; 0; 3]
  /\ List.map AuthorResult.already_exists (response_authors (fst run)) = [5; 0; 3]
  /\ response_summary (fst run) = Some (mkSummary 8 0 8).
Proof. vm_compute. repeat split; reflexivity. Qed.

(* ------------------------------------------------------------------ *)
(** ** The list of author names *)

Lemma split_go_comma_cons (c : N) (s cur : jsstring) :
  split_go [44%N] (c :: s) 0 cur
  = if (44 =? c)%N then rev cur :: split_go [44%N] s 0 []
    else split_go [44%N] s 0 (c :: cur).
Proof.
  change (split_go [44%N] (c :: s) 0 cur)
    with (if ((44 =? c)%N && true)%bool
          then rev cur :: split_go [44%N] s 0 []
          else split_go [44%N] s 0 (c :: cur)).
  now rewrite andb_true_r.
Qed.

Lemma no_comma_rev (s : jsstring) : no_comma s = true -> no_comma (rev s) = true.
Proof.
  unfold no_comma. rewrite !forallb_forall. intros H c Hc.
  apply H. now apply in_rev.
Qed.

Lemma split_go_comma_free (s : jsstring) : forall cur : jsstring,
  no_comma cur = true ->
  Forall (fun p => no_comma p = true) (split_go [44%N] s 0 cur).
Proof.
  induction s as [|c s IH]; intros cur Hcur.
  - simpl. constructor; [now apply no_comma_rev|constructor].
  - rewrite split_go_comma_cons. destruct (44 =? c)%N eqn:E.
    + constructor; [now apply no_comma_rev|]. now apply IH.
    + apply IH. unfold no_comma. cbn [forallb]. rewrite N.eqb_sym, E.
      exact Hcur.
Qed.

Lemma no_comma_trim (p : jsstring) : no_comma p = true -> no_comma (trim p) = true.
Proof.
  unfold no_comma. intros H. apply forallb_forall. apply Forall_forall.
  apply Forall_trim. apply Forall_forall. now apply forallb_forall.
Qed.

(** X21.  Every name of the list the handler builds from the [authors]
    string is not empty, has no white space at its ends and no comma. *)
Theorem authorList_of_names (s : jsstring) :
  Forall name_ok (AuthorArticleController.authorList_of s).
Proof.
  apply Forall_forall. intros a Ha.
  unfold AuthorArticleController.authorList_of in Ha.
  apply filter_In in Ha as [Ha Ht].
  apply in_map_iff in Ha as [p [Hp Hin]]. subst a.
  destruct (trim_clean p) as [H1 H2].
  split; [|split; [exact H1|split; [exact H2|]]].
  - intros E. rewrite E in Ht. discriminate Ht.
  - apply no_comma_trim.
    pose proof (split_go_comma_free s [] eq_refl) as Hall.
    rewrite Forall_forall in Hall. apply Hall. exact Hin.
Qed.

Lemma split_go_piece (x : jsstring) : forall (r cur : jsstring),
  no_comma x = true ->
  split_go [44%N] (x ++ 44%N :: r) 0 cur
  = (rev cur ++ x) :: split_go [44%N] r 0 [].
Proof.
  induction x as [|c x IH]; intros r cur Hx.
  - simpl app. rewrite split_go_comma_cons. simpl. now rewrite app_nil_r.
  - unfold no_comma in Hx. cbn [forallb] in Hx.
    apply andb_true_iff in Hx as [Hc Hx].
    simpl app. rewrite split_go_comma_cons.
    rewrite N.eqb_sym. destruct (c =? 44)%N; [discriminate Hc|].
    rewrite (IH r (c :: cur) Hx). simpl rev. now rewrite <- app_assoc.
Qed.

Lemma split_go_last_piece (x : jsstring) : forall cur : jsstring,
  no_comma x = true -> split_go [44%N] x 0 cur = [rev cur ++ x].
Proof.
  induction x as [|c x IH]; intros cur Hx.
  - simpl. now rewrite app_nil_r.
  - unfold no_comma in Hx. cbn [forallb] in Hx.
    apply andb_true_iff in Hx as [Hc Hx].
    rewrite split_go_comma_cons.
    rewrite N.eqb_sym. destruct (c =? 44)%N; [discriminate Hc|].
    rewrite (IH (c :: cur) Hx). simpl rev. now rewrite <- app_assoc.
Qed.

Lemma join_with_cons (sep x y : jsstring) (l : list jsstring) :
  join_with sep (x :: y :: l) = x ++ sep ++ join_with sep (y :: l).
Proof. reflexivity. Qed.

Lemma split_join (names : list jsstring) :
  names <> [] -> Forall (fun a => no_comma a = true) names ->
  split [44%N] (join_with [44%N] names) = names.
Proof.
  intros Hne H. induction H as [|x l Hx Hl IH]; [now elim Hne|].
  destruct l as [|y l].
  - unfold split. simpl join_with. now rewrite (split_go_last_piece x [] Hx).
  - rewrite join_with_cons. unfold split. simpl app.
    rewrite (split_go_piece x _ [] Hx). simpl rev. simpl app.
    f_equal. apply IH. discriminate.
Qed.

Lemma names_kept (names : list jsstring) :
  Forall name_ok names ->
  List.filter (fun a => truthy (VStr a)) (List.map trim names) = names.
Proof.
  induction 1 as [|a l Ha _ IH]; [reflexivity|].
  destruct Ha as (Hne & Hs & He & _).
  assert (Ht : trim a = a).
  { unfold trim. now rewrite (trimStart_id a Hs), (trimEnd_id a He). }
  cbn [List.map List.filter]. rewrite Ht, IH.
  destruct a as [|c a]; [now elim Hne|reflexivity].
Qed.

(** X22.  A list of names that are not empty, have no white space at their
    ends and no comma is what the handler builds from the names joined by
    commas: with [authorList_of_names], the lists the handler can build are
    the lists of such names. *)
Theorem authorList_of_join (names : list jsstring) :
  Forall name_ok names ->
  AuthorArticleController.authorList_of (join_with (js ",") names) = names.
Proof.
  intros H. destruct names as [|x l]; [reflexivity|].
  unfold AuthorArticleController.authorList_of.
  change (js ",") with [44%N]. rewrite split_join.
  - now apply names_kept.
  - discriminate.
  - eapply Forall_impl; [|exact H]. intros a Ha. apply Ha.
Qed.

Lemma authorList_of_join_witness :
  AuthorArticleController.authorList_of
    (join_with (js ",") [js "Ann"; js "Bob Lee"; js "Cy"])
  = [js "Ann"; js "Bob Lee"; js "Cy"].
Proof.
  apply (authorList_of_join [js "Ann"; js "Bob Lee"; js "Cy"]).
  repeat constructor; try discriminate.
Defined.
